(** * QuizMe: the quiz-generation and session engine

    A shallow embedding of [source/testbank.py] (the node classes of the
    document tree), [source/quizcore.py] (structural model and category
    builders) and [source/teach_me.py] (session events, reports and
    questions), followed by the properties of the specification that are
    proved about it.

    Conventions.
    - A Python [set] or [frozenset] of texts is a [gset string].
      Iterating a set is in an order the language leaves open; the
      embedding iterates in the order of [elements].
    - A Python [dict] is iterated in the order in which its keys were
      inserted.  The dictionaries that [build] fills fact by fact are
      [dict]s: lists of entries in that order.  The two mappings of a
      fact, whose keys are inserted while a frozenset is iterated, are
      [gmap]s, iterated in the order of [map_to_list].  No statement
      below depends on the order in which a set is iterated.
    - An exception is a value of [exn]; a computation that mutates objects
      returns its outcome together with the state reached, because in
      Python the mutations made before a [raise] stay.
    - The pseudo-random source of module [random] is an explicit sequence
      of draws that is consumed from the left.
    - The handler [BankParser] is given the events of a document as a
      list, in the order in which [xml.sax.parse] calls its methods. *)

From stdpp Require Import gmap strings list fin_maps sets.

Open Scope string_scope.
Open Scope list_scope.
Open Scope Z_scope.
Open Scope nat_scope.

(** ** Exceptions and outcomes *)

Inductive exn : Type :=
  | RuntimeError (msg : string)
  | ValueError (arg : option string)
  | TypeError
  | IndexError.

Inductive outcome (A : Type) : Type :=
  | Ok (a : A)
  | Raise (e : exn).
Arguments Ok {A} a.
Arguments Raise {A} e.

Definition is_Raise {A} (o : outcome A) : Prop :=
  match o with Ok _ => False | Raise _ => True end.

(** Computations over a mutable state [S]: the state survives a raise. *)
Definition M (S A : Type) : Type := S -> outcome A * S.

Definition ret {S A} (a : A) : M S A := fun s => (Ok a, s).

Definition raise {S A} (e : exn) : M S A := fun s => (Raise e, s).

Definition bind {S A B} (m : M S A) (k : A -> M S B) : M S B :=
  fun s =>
    match m s with
    | (Ok a, s') => k a s'
    | (Raise e, s') => (Raise e, s')
    end.

Definition get {S} : M S S := fun s => (Ok s, s).

Definition modify {S} (f : S -> S) : M S unit := fun s => (Ok tt, f s).

Declare Scope py_scope.
Delimit Scope py_scope with py.
Notation "x <- m ;; k" := (bind m (fun x => k))
  (at level 100, m at next level, right associativity) : py_scope.
Notation "m ;;; k" := (bind m (fun _ => k))
  (at level 100, right associativity) : py_scope.
Open Scope py_scope.

(** [for x in l: body x] *)
Fixpoint for_each {S A} (l : list A) (body : A -> M S unit) : M S unit :=
  match l with
  | [] => ret tt
  | x :: l' => body x ;;; for_each l' body
  end.

(** Pure constructors only fail or succeed: no state. *)
Definition obind {A B} (o : outcome A) (k : A -> outcome B) : outcome B :=
  match o with
  | Ok a => k a
  | Raise e => Raise e
  end.

(** [list(map(f, l))] for a constructor [f] that may raise: the first
    failure, in list order, is the one raised. *)
Fixpoint map_raise {A B} (f : A -> outcome B) (l : list A) : outcome (list B) :=
  match l with
  | [] => Ok []
  | x :: l' =>
      obind (f x) (fun y => obind (map_raise f l') (fun ys => Ok (y :: ys)))
  end.

(** ** Dictionaries *)

(** A dictionary whose order of iteration the program reads: its entries
    in the order in which the keys were first inserted, one entry for
    each key. *)
Module dict.

Record dict (K V : Type) : Type := Dict { items : list (K * V) }.
Arguments Dict {K V} items.
Arguments items {K V} d.

Section operations.

Context {K V : Type} `{Countable K}.

(** [d.get(k)] on the entries. *)
Fixpoint value_at (k : K) (entries : list (K * V)) : option V :=
  match entries with
  | [] => None
  | entry :: rest =>
      if decide (entry.1 = k) then Some entry.2 else value_at k rest
  end.

(** [d.setdefault(k, init)] on the entries, followed by the change [f]
    that the caller makes in place to the value it was handed: the value
    of a key that is present changes where it stands, a new key goes to
    the end with [f init]. *)
Fixpoint upsert (k : K) (init : V) (f : V -> V) (entries : list (K * V))
  : list (K * V) :=
  match entries with
  | [] => [(k, f init)]
  | entry :: rest =>
      if decide (entry.1 = k) then (entry.1, f entry.2) :: rest
      else entry :: upsert k init f rest
  end.

Definition setdefault (d : dict K V) (k : K) (init : V) (f : V -> V)
  : dict K V :=
  Dict (upsert k init f (items d)).

(** [list(d)] *)
Definition keys (d : dict K V) : list K := (items d).*1.

(** [d.get(k)], written [d !! k]; [d[k]] for a key that is present is
    [d !!! k]. *)
#[global] Instance dict_lookup : Lookup K V (dict K V) :=
  fun k d => value_at k (items d).

(** [{}] *)
#[global] Instance dict_empty : Empty (dict K V) := Dict [].

(** [set(d)] *)
#[global] Instance dict_dom : Dom (dict K V) (gset K) :=
  fun d => list_to_set (keys d).

End operations.

End dict.

Abbreviation dict := dict.dict.

(** ** Module [random] *)

Module random.

Definition rng : Type := list nat.

(** [_randbelow(n)]: one draw, reduced below [n]. *)
Definition randbelow (n : nat) (g : rng) : nat * rng :=
  match g with
  | [] => (0, [])
  | r :: g' => (r mod n, g')
  end.

(** The selection loop of [sample]: draw a position among the pool that
    is left, take that element out. *)
Fixpoint pick {A} (pool : list A) (k : nat) (g : rng) : list A * rng :=
  match k with
  | 0 => ([], g)
  | S k' =>
      let '(j, g1) := randbelow (length pool) g in
      match pool !! j with
      | Some x =>
          let '(xs, g2) := pick (delete j pool) k' g1 in (x :: xs, g2)
      | None => ([], g1)
      end
  end.

(** [random.sample(population, k)]: [k] elements at distinct positions;
    [ValueError] when [k] exceeds the population.  A set given as
    population is one whose elements were first laid out as a tuple. *)
Definition sample {A} (population : list A) (k : nat) (g : rng)
  : outcome (list A) * rng :=
  if decide (k <= length population)
  then let '(xs, g') := pick population k g in (Ok xs, g')
  else (Raise (ValueError None), g).

(** [random.choice(seq)]: [IndexError] on an empty sequence. *)
Definition choice {A} (seq : list A) (g : rng) : outcome A * rng :=
  match seq with
  | [] => (Raise IndexError, g)
  | _ =>
      let '(j, g') := randbelow (length seq) g in
      match seq !! j with
      | Some x => (Ok x, g')
      | None => (Raise IndexError, g')
      end
  end.

(** [random.shuffle(x)]: a rearrangement of [x] chosen by the draws. *)
Definition shuffle {A} (x : list A) (g : rng) : list A * rng :=
  pick x (length x) g.

End random.

(** ** Module [testbank]: the nodes of the document tree *)

Module testbank.

Inductive node_class : Type :=
  | TestBank | Chapter | Section | Category | Fact | Question | Answer.

(** [_Node]: slots [attr], [text], [children]; [cls] is the class of
    the object, which [isinstance] inspects. *)
#[local] Unset Elimination Schemes.
Inductive node : Type :=
  Node { cls : node_class;
         attr : option string;
         text : string;
         children : list node }.
#[local] Set Elimination Schemes.

End testbank.

(** ** Module [quizcore]: structural model and category builders *)

Module quizcore.

(** [Question(question)]: slot [text]. *)
Record Question : Type := { q_text : string }.

(** [Answer(answer, true_or_false)]: slot [text]. *)
Record Answer : Type := { a_text : string }.

Definition Question_init (question : testbank.node) : Question :=
  {| q_text := testbank.text question |}.

Definition Answer_init (answer : testbank.node) (true_or_false : bool)
  : outcome Answer :=
  if true_or_false
     && negb (bool_decide (testbank.text answer ∈ ["True"; "False"]))
  then Raise (RuntimeError "Answer is invalid!")
  else Ok {| a_text := testbank.text answer |}.

(** [Fact]: slots [kind], [questions], [answers], [q_to_a], [a_to_q]. *)
Record Fact : Type := {
  kind : option string;
  questions : list Question;
  answers : list Answer;
  q_to_a : gmap string (gset string);
  a_to_q : gmap string (gset string) }.

(** The loop of [Fact.__init__] over [fact.children]. *)
Fixpoint Fact_sort (children : list testbank.node) (true_or_false : bool)
    (qs : list Question) (ans : list Answer)
  : outcome (list Question * list Answer) :=
  match children with
  | [] => Ok (qs, ans)
  | child :: rest =>
      match testbank.cls child with
      | testbank.Question =>
          Fact_sort rest true_or_false (qs ++ [Question_init child]) ans
      | testbank.Answer =>
          obind (Answer_init child true_or_false) (fun a =>
          Fact_sort rest true_or_false qs (ans ++ [a]))
      | _ => Raise TypeError
      end
  end.

Definition Fact_init (fact : testbank.node) (true_or_false : bool)
  : outcome Fact :=
  obind (Fact_sort (testbank.children fact) true_or_false [] [])
    (fun '(qs, ans) =>
       match ans with
       | [] => Raise (RuntimeError "Fact is empty!")
       | _ => Ok {| kind := testbank.attr fact;
                    questions := qs;
                    answers := ans;
                    q_to_a := ∅;
                    a_to_q := ∅ |}
       end).

(** The two frozensets of [Fact.build]. *)
Definition question_texts (f : Fact) : gset string :=
  list_to_set (q_text <$> questions f).

Definition answer_texts (f : Fact) : gset string :=
  list_to_set (a_text <$> answers f).

(** [Fact.build]: [dict.update] overrides the keys it is given and keeps
    the others. *)
Definition Fact_build (f : Fact) : Fact :=
  let qs := question_texts f in
  let ans := answer_texts f in
  {| kind := kind f;
     questions := questions f;
     answers := answers f;
     q_to_a := gset_to_gmap ans qs ∪ q_to_a f;
     a_to_q := gset_to_gmap qs ans ∪ a_to_q f |}.

(** [Record = namedtuple('Record', 'kind, question, choices, answer')] *)
Record Record_ : Type := {
  r_kind : string;
  r_question : string;
  r_choices : list string;
  r_answer : string }.

Inductive category_class : Type := Matching | MultipleChoice | TrueOrFalse.

(** [_Category]: slots [facts], [q_and_a]; [cclass] is the concrete class. *)
Record Category : Type := {
  cclass : category_class;
  facts : list Fact;
  q_and_a : list Record_ }.

Definition CHOICES (c : category_class) : nat :=
  match c with
  | Matching => 25
  | MultipleChoice => 3
  | TrueOrFalse => 0
  end.

Definition NAME (c : category_class) : string :=
  match c with
  | Matching => "Matching"
  | MultipleChoice => "Multiple Choice"
  | TrueOrFalse => ""
  end.

(** [isinstance(self, TrueOrFalse)] *)
Definition is_TrueOrFalse (c : category_class) : bool :=
  match c with
  | TrueOrFalse => true
  | _ => false
  end.

(** [_Category.__init__], reached through [super().__init__] by the three
    concrete classes. *)
Definition Category_init (c : category_class) (category : testbank.node)
  : outcome Category :=
  obind (map_raise
           (fun child => Fact_init child (is_TrueOrFalse c))
           (testbank.children category))
    (fun fs =>
       match fs with
       | [] => Raise (RuntimeError "Category is empty!")
       | _ => Ok {| cclass := c; facts := fs; q_and_a := [] |}
       end).

(** The table [_CATEGORY]. *)
Definition _CATEGORY : gmap string category_class :=
  <["matching" := Matching]>
    (<["multiple_choice" := MultipleChoice]>
       (<["true_or_false" := TrueOrFalse]> ∅)).

(** [Section.get_category]: a [KeyError] of the table becomes a
    [ValueError] carrying the attribute. *)
Definition Section_get_category (category : testbank.node)
  : outcome Category :=
  match testbank.attr category ≫= (fun key => _CATEGORY !! key) with
  | Some c => Category_init c category
  | None => Raise (ValueError (testbank.attr category))
  end.

Record Section : Type := {
  s_name : option string;
  categories : list Category }.

Definition Section_init (section : testbank.node) : outcome Section :=
  obind (map_raise Section_get_category (testbank.children section))
    (fun cs =>
       match cs with
       | [] => Raise (RuntimeError "Section is empty!")
       | _ => Ok {| s_name := testbank.attr section; categories := cs |}
       end).

Record Chapter : Type := {
  c_name : option string;
  sections : list Section }.

Definition Chapter_init (chapter : testbank.node) : outcome Chapter :=
  obind (map_raise Section_init (testbank.children chapter))
    (fun ss =>
       match ss with
       | [] => Raise (RuntimeError "Chapter is empty!")
       | _ => Ok {| c_name := testbank.attr chapter; sections := ss |}
       end).

Record UnitTest : Type := {
  u_name : option string;
  chapters : list Chapter }.

Definition UnitTest_init (root_node : testbank.node) : outcome UnitTest :=
  obind (map_raise Chapter_init (testbank.children root_node))
    (fun cs =>
       match cs with
       | [] => Raise (RuntimeError "UnitTest is empty!")
       | _ => Ok {| u_name := testbank.attr root_node; chapters := cs |}
       end).

(** *** Category builders *)

(** The state a [build] works on: the category object and the random
    source. *)
Record build_state : Type := {
  self : Category;
  gen : random.rng }.

Definition rand {A} (f : random.rng -> outcome A * random.rng)
  : M build_state A :=
  fun s => let '(o, g) := f (gen s) in (o, {| self := self s; gen := g |}).

Definition rand_total {A} (f : random.rng -> A * random.rng)
  : M build_state A :=
  fun s => let '(a, g) := f (gen s) in (Ok a, {| self := self s; gen := g |}).

(** The state after [self.q_and_a.append(r)]. *)
Definition with_record (r : Record_) (s : build_state) : build_state :=
  {| self := {| cclass := cclass (self s);
                facts := facts (self s);
                q_and_a := q_and_a (self s) ++ [r] |};
     gen := gen s |}.

Definition append_record (r : Record_) : M build_state unit :=
  modify (with_record r).

(** The state once the first loop has called [fact.build()] on each of
    [self.facts]. *)
Definition with_facts (fs : list Fact) (s : build_state) : build_state :=
  {| self := {| cclass := cclass (self s);
                facts := fs;
                q_and_a := q_and_a (self s) |};
     gen := gen s |}.

Definition set_facts (fs : list Fact) : M build_state unit :=
  modify (with_facts fs).

(** [d.setdefault(k, set()).update(s)] *)
Definition set_update (d : dict string (gset string)) (k : string)
    (s : gset string) : dict string (gset string) :=
  dict.setdefault d k ∅ (fun v => v ∪ s).

(** [for k in src: dst.setdefault(k, set()).update(src[k])], where [src]
    is one of the two mappings of a fact. *)
Definition merge_sets (dst : dict string (gset string))
    (src : gmap string (gset string)) : dict string (gset string) :=
  foldl (fun d '(k, s) => set_update d k s) dst (map_to_list src).

(** One value of [kinds]: [{'question': {}, 'answer': {}}]. *)
Record group : Type := {
  g_question : dict string (gset string);
  g_answer : dict string (gset string) }.

Definition empty_group : group := {| g_question := ∅; g_answer := ∅ |}.

(** [kinds.setdefault(kind, {...})['question'].setdefault(q, set()).update(s)] *)
Definition add_question (kinds : dict (option string) group)
    (kd : option string) (q : string) (s : gset string)
  : dict (option string) group :=
  dict.setdefault kinds kd empty_group
    (fun g => {| g_question := set_update (g_question g) q s;
                 g_answer := g_answer g |}).

(** [kinds.setdefault(kind, {...})['answer'].setdefault(a, set()).update(s)] *)
Definition add_answer (kinds : dict (option string) group)
    (kd : option string) (a : string) (s : gset string)
  : dict (option string) group :=
  dict.setdefault kinds kd empty_group
    (fun g => {| g_question := g_question g;
                 g_answer := set_update (g_answer g) a s |}).

(** The two inner loops of [_MCM.build] for one fact that was built. *)
Definition collect_fact (kinds : dict (option string) group) (f : Fact)
  : dict (option string) group :=
  let kinds1 :=
    foldl (fun ks '(q, s) => add_question ks (kind f) q s)
          kinds (map_to_list (q_to_a f)) in
  foldl (fun ks '(a, s) => add_answer ks (kind f) a s)
        kinds1 (map_to_list (a_to_q f)).

(** The first loop of [_MCM.build]: the facts as [fact.build()] leaves
    them, and the table [kinds]. *)
Fixpoint MCM_collect (fs : list Fact) (kinds : dict (option string) group)
  : list Fact * dict (option string) group :=
  match fs with
  | [] => ([], kinds)
  | fact :: rest =>
      let fact' := Fact_build fact in
      let '(rest', kinds') := MCM_collect rest (collect_fact kinds fact') in
      (fact' :: rest', kinds')
  end.

(** The body of [for question in questions] in [_MCM.build]. *)
Definition MCM_question (c : category_class) (g : group)
    (answers : gset string) (question : string) : M build_state unit :=
  let correct := g_question g !!! question in
  let wrong := answers ∖ correct in
  sample <- rand (random.sample (elements wrong)
                    (size wrong `min` CHOICES c)) ;;
  right_ <- rand (random.choice (elements correct)) ;;
  sample <- rand_total (random.shuffle (sample ++ [right_])) ;;
  append_record {| r_kind := NAME c;
                   r_question := question;
                   r_choices := sample;
                   r_answer := right_ |}.

(** The body of [for kind in kinds] in [_MCM.build]: the questions are
    gone through as a set. *)
Definition MCM_kind (c : category_class) (g : group) : M build_state unit :=
  let questions := dom (g_question g) in
  let answers := dom (g_answer g) in
  for_each (elements questions) (MCM_question c g answers).

(** [_MCM.build]: the kinds are gone through in the order in which the
    first loop met them. *)
Definition MCM_build : M build_state unit :=
  s <- get ;;
  let '(fs, kinds) := MCM_collect (facts (self s)) ∅ in
  set_facts fs ;;;
  for_each (dict.items kinds) (fun kg => MCM_kind (cclass (self s)) kg.2).

(** The first loop of [TrueOrFalse.build]. *)
Fixpoint TF_collect (fs : list Fact) (questions : dict string (gset string))
  : list Fact * dict string (gset string) :=
  match fs with
  | [] => ([], questions)
  | fact :: rest =>
      let fact' := Fact_build fact in
      let '(rest', questions') :=
        TF_collect rest (merge_sets questions (q_to_a fact')) in
      (fact' :: rest', questions')
  end.

(** The body of [for question in questions] in [TrueOrFalse.build]. *)
Definition TF_question (qs : string * gset string) : M build_state unit :=
  if decide (size qs.2 = 1) then
    sample <- rand (random.sample ["True"; "False"] 2) ;;
    match elements qs.2 with
    | right_ :: _ =>
        append_record {| r_kind := "True or False";
                         r_question := qs.1;
                         r_choices := sample;
                         r_answer := right_ |}
    | [] => raise IndexError
    end
  else raise (RuntimeError "Question is invalid!").

(** [TrueOrFalse.build]: the questions are gone through in the order in
    which the first loop met them. *)
Definition TrueOrFalse_build : M build_state unit :=
  s <- get ;;
  let '(fs, questions) := TF_collect (facts (self s)) ∅ in
  set_facts fs ;;;
  for_each (dict.items questions) TF_question.

(** [category.build()], dispatched on the class of the object. *)
Definition build : M build_state unit :=
  s <- get ;;
  match cclass (self s) with
  | TrueOrFalse => TrueOrFalse_build
  | _ => MCM_build
  end.

End quizcore.

(** ** Module [teach_me]: reports, questions and the session *)

Module teach_me.

(** [Report]: the private slots.  A report is an object on a heap, named by
    its position; [_parent] is a reference to another report. *)
Record Report : Type := {
  _level : string;
  _parent : option nat;
  _right : nat;
  _wrong : nat;
  _problems : list (quizcore.Record_ * string);
  _finalized : bool }.

#[global] Instance Report_inhabited : Inhabited Report :=
  populate {| _level := ""; _parent := None; _right := 0; _wrong := 0;
              _problems := []; _finalized := false |}.

(** The heap of reports. *)
Abbreviation heap := (list Report).

Definition set_right (n : nat) (r : Report) : Report :=
  {| _level := _level r; _parent := _parent r; _right := n;
     _wrong := _wrong r; _problems := _problems r;
     _finalized := _finalized r |}.

Definition set_wrong (n : nat) (r : Report) : Report :=
  {| _level := _level r; _parent := _parent r; _right := _right r;
     _wrong := n; _problems := _problems r;
     _finalized := _finalized r |}.

Definition set_problems (l : list (quizcore.Record_ * string)) (r : Report)
  : Report :=
  {| _level := _level r; _parent := _parent r; _right := _right r;
     _wrong := _wrong r; _problems := l;
     _finalized := _finalized r |}.

Definition set_finalized (b : bool) (r : Report) : Report :=
  {| _level := _level r; _parent := _parent r; _right := _right r;
     _wrong := _wrong r; _problems := _problems r;
     _finalized := b |}.

(** Reading the object behind a reference. *)
Definition deref (self : nat) : M heap Report :=
  fun h => (Ok (h !!! self), h).

(** Writing the object behind a reference. *)
Definition assign (self : nat) (r : Report) : M heap unit :=
  modify (fun h => <[self := r]> h).

(** [Report(level, parent)]: a new object, open, with zero counts. *)
Definition new_report (level : string) (parent : option nat) : Report :=
  {| _level := level; _parent := parent; _right := 0; _wrong := 0;
     _problems := []; _finalized := false |}.

Definition Report_init (level : string) (parent : option nat) : M heap nat :=
  fun h => (Ok (length h), h ++ [new_report level parent]).

Definition right_answer (self : nat) : M heap unit :=
  r <- deref self ;;
  if _finalized r then raise (RuntimeError "Report is finalized!")
  else assign self (set_right (_right r + 1) r).

Definition wrong_answer (self : nat) : M heap unit :=
  r <- deref self ;;
  if _finalized r then raise (RuntimeError "Report is finalized!")
  else assign self (set_wrong (_wrong r + 1) r).

Definition review (self : nat) (question : quizcore.Record_)
    (answer : string) : M heap unit :=
  r <- deref self ;;
  if _finalized r then raise (RuntimeError "Report is finalized!")
  else assign self (set_problems (_problems r ++ [(question, answer)]) r).

(** [Report.finalize]: the three statements on the parent read and write
    the objects one after the other. *)
Definition finalize (self : nat) : M heap unit :=
  r <- deref self ;;
  if _finalized r then raise (RuntimeError "Report is finalized!")
  else
    assign self (set_finalized true r) ;;;
    match _parent r with
    | None => ret tt
    | Some parent =>
        (p <- deref parent ;; s <- deref self ;;
         assign parent (set_right (_right p + _right s) p)) ;;;
        (p <- deref parent ;; s <- deref self ;;
         assign parent (set_wrong (_wrong p + _wrong s) p)) ;;;
        (p <- deref parent ;; s <- deref self ;;
         assign parent (set_problems (_problems p ++ _problems s) p))
    end.

(** The read-only properties. *)
Definition Report_level (self : nat) : M heap string :=
  r <- deref self ;; ret (_level r).

Definition Report_right (self : nat) : M heap nat :=
  r <- deref self ;;
  if negb (_finalized r) then raise (RuntimeError "Report is not finalized!")
  else ret (_right r).

Definition Report_wrong (self : nat) : M heap nat :=
  r <- deref self ;;
  if negb (_finalized r) then raise (RuntimeError "Report is not finalized!")
  else ret (_wrong r).

Definition Report_total (self : nat) : M heap nat :=
  r <- deref self ;;
  if negb (_finalized r) then raise (RuntimeError "Report is not finalized!")
  else ret (_right r + _wrong r).

Definition Report_final (self : nat) : M heap bool :=
  r <- deref self ;; ret (bool_decide (_parent r = None)).

(** [Answer]: a [Question] without report, plus the answer given. *)
Record Answer : Type := {
  a_answer : string;
  a_category : string;
  a_question : string;
  a_choices : list string;
  a_right : string }.

(** [Report.get_problems]: the entries a fresh run of the generator
    yields. *)
Definition get_problems (self : nat) : M heap (list Answer) :=
  r <- deref self ;;
  if negb (_finalized r) then raise (RuntimeError "Report is not finalized!")
  else ret ((fun qa : quizcore.Record_ * string =>
               {| a_answer := qa.2;
                  a_category := quizcore.r_kind qa.1;
                  a_question := quizcore.r_question qa.1;
                  a_choices := quizcore.r_choices qa.1;
                  a_right := quizcore.r_answer qa.1 |}) <$> _problems r).

(** [Question]: the private slots; [q_report] refers to a report. *)
Record Question : Type := {
  q_report : nat;
  q_category : string;
  q_question : string;
  q_choices : list string;
  q_right : string;
  q_answered : bool;
  q_q_and_a : quizcore.Record_ }.

Definition Question_init (report : nat) (rec : quizcore.Record_) : Question :=
  {| q_report := report;
     q_category := quizcore.r_kind rec;
     q_question := quizcore.r_question rec;
     q_choices := quizcore.r_choices rec;
     q_right := quizcore.r_answer rec;
     q_answered := false;
     q_q_and_a := {| quizcore.r_kind := quizcore.r_kind rec;
                     quizcore.r_question := quizcore.r_question rec;
                     quizcore.r_choices := quizcore.r_choices rec;
                     quizcore.r_answer := quizcore.r_answer rec |} |}.

Definition set_answered (b : bool) (q : Question) : Question :=
  {| q_report := q_report q; q_category := q_category q;
     q_question := q_question q; q_choices := q_choices q;
     q_right := q_right q; q_answered := b; q_q_and_a := q_q_and_a q |}.

(** What a caller passes to [answer]: an [int] or a [str]. *)
Inductive index_or_string : Type :=
  | Int (i : Z)
  | Str (s : string).

(** [seq[i]] on a tuple: a negative index counts from the end. *)
Definition getitem {A} (seq : list A) (i : Z) : outcome A :=
  let n := Z.of_nat (length seq) in
  let j := if decide (i < 0)%Z then (i + n)%Z else i in
  if decide (0 <= j < n)%Z then
    match seq !! Z.to_nat j with
    | Some x => Ok x
    | None => Raise IndexError
    end
  else Raise IndexError.

(** A method of a question works on the question and on the heap of
    reports. *)
Definition on_heap {A} (m : M heap A) : M (Question * heap) A :=
  fun s => let '(o, h) := m s.2 in (o, (s.1, h)).

Definition resolve (choices : list string) (x : index_or_string)
  : M (Question * heap) string :=
  match x with
  | Int i =>
      match getitem choices i with
      | Ok s => ret s
      | Raise e => raise e
      end
  | Str s => ret s
  end.

(** [Question.answer] *)
Definition Question_answer (x : index_or_string) : M (Question * heap) unit :=
  s <- get ;;
  let self := s.1 in
  if q_answered self
  then raise (RuntimeError "Question has already been answered!")
  else
    given <- resolve (q_choices self) x ;;
    (if decide (given = q_right self)
     then on_heap (right_answer (q_report self))
     else on_heap (wrong_answer (q_report self)) ;;;
          on_heap (review (q_report self) (q_q_and_a self) given)) ;;;
    modify (fun s => (set_answered true s.1, s.2)).

(** *** The session *)

(** [_Status]: [kind] is the name of the class of the division. *)
Inductive event : Type :=
  | Enter (kind : string) (name : option string)
  | Exit (kind : string) (name : option string)
  | QuestionEv (q : Question)
  | ReportEv (r : nat).

Record FAQ : Type := { test : quizcore.UnitTest }.

(** [FAQ(testbank)] *)
Definition FAQ_init (testbank : testbank.node) : outcome FAQ :=
  obind (quizcore.UnitTest_init testbank) (fun t => Ok {| test := t |}).

(** The external driver pulls one event at a time and, on a question,
    calls [answer] once before it pulls again; [driver] gives the argument
    of that call from the number of questions seen before and the
    question at hand. *)
Definition driver : Type := nat -> Question -> index_or_string.

(** A running session: the heap of reports, the random source, the events
    yielded so far and the number of questions the driver was given. *)
Record session : Type := {
  reports : heap;
  gen : random.rng;
  trace : list event;
  asked : nat }.

Definition with_reports {A} (m : M heap A) : M session A :=
  fun s =>
    let '(o, h) := m (reports s) in
    (o, {| reports := h; gen := gen s; trace := trace s; asked := asked s |}).

Definition with_gen {A} (f : random.rng -> A * random.rng) : M session A :=
  fun s =>
    let '(a, g) := f (gen s) in
    (Ok a, {| reports := reports s; gen := g; trace := trace s;
              asked := asked s |}).

(** The generator hands [ev] to the driver. *)
Definition with_event (ev : event) (s : session) : session :=
  {| reports := reports s; gen := gen s; trace := trace s ++ [ev];
     asked := asked s |}.

Definition emit (ev : event) : M session unit := modify (with_event ev).

(** The driver's turn on a question: one call of [answer]; what it raises
    ends the driver, and with it the session. *)
Definition driver_answers (drv : driver) (q : Question) : M session unit :=
  fun s =>
    let '(o, (_, h)) := Question_answer (drv (asked s) q) (q, reports s) in
    (o, {| reports := h; gen := gen s; trace := trace s;
           asked := S (asked s) |}).

(** [yield ev], up to the next pull. *)
Definition yield (drv : driver) (ev : event) : M session unit :=
  emit ev ;;;
  match ev with
  | QuestionEv q => driver_answers drv q
  | _ => ret tt
  end.

(** [category.build()] inside a session. *)
Definition call_build (category : quizcore.Category)
  : M session quizcore.Category :=
  fun s =>
    let '(o, b) :=
      quizcore.build {| quizcore.self := category; quizcore.gen := gen s |} in
    (match o with Ok _ => Ok (quizcore.self b) | Raise e => Raise e end,
     {| reports := reports s; gen := quizcore.gen b; trace := trace s;
        asked := asked s |}).

(** [for category in section.categories: category.build();
    q_and_a.extend(category.q_and_a)] *)
Fixpoint build_all (categories : list quizcore.Category)
    (q_and_a : list quizcore.Record_) : M session (list quizcore.Record_) :=
  match categories with
  | [] => ret q_and_a
  | category :: rest =>
      built <- call_build category ;;
      build_all rest (q_and_a ++ quizcore.q_and_a built)
  end.

(** The body of [for section in chapter.sections]. *)
Definition iter_section (drv : driver) (chapter_report : nat)
    (section : quizcore.Section) : M session unit :=
  yield drv (Enter "Section" (quizcore.s_name section)) ;;;
  section_report <- with_reports (Report_init "Section" (Some chapter_report)) ;;
  q_and_a <- build_all (quizcore.categories section) [] ;;
  q_and_a <- with_gen (random.shuffle q_and_a) ;;
  for_each q_and_a (fun question =>
    yield drv (QuestionEv (Question_init section_report question))) ;;;
  yield drv (Exit "Section" (quizcore.s_name section)) ;;;
  with_reports (finalize section_report) ;;;
  yield drv (ReportEv section_report).

(** The body of [for chapter in unittest.chapters]. *)
Definition iter_chapter (drv : driver) (unittest_report : nat)
    (chapter : quizcore.Chapter) : M session unit :=
  yield drv (Enter "Chapter" (quizcore.c_name chapter)) ;;;
  chapter_report <- with_reports (Report_init "Chapter" (Some unittest_report)) ;;
  for_each (quizcore.sections chapter) (iter_section drv chapter_report) ;;;
  yield drv (Exit "Chapter" (quizcore.c_name chapter)) ;;;
  with_reports (finalize chapter_report) ;;;
  yield drv (ReportEv chapter_report).

(** [FAQ.__iter__], run to exhaustion against the driver; the value is
    the reference to the report of the unit test. *)
Definition FAQ_iter (drv : driver) (self : FAQ) : M session nat :=
  let unittest := test self in
  yield drv (Enter "UnitTest" (quizcore.u_name unittest)) ;;;
  unittest_report <- with_reports (Report_init "UnitTest" None) ;;
  for_each (quizcore.chapters unittest) (iter_chapter drv unittest_report) ;;;
  yield drv (Exit "UnitTest" (quizcore.u_name unittest)) ;;;
  with_reports (finalize unittest_report) ;;;
  yield drv (ReportEv unittest_report) ;;;
  ret unittest_report.

(** A session starts with no report and nothing yielded. *)
Definition start (g : random.rng) : session :=
  {| reports := []; gen := g; trace := []; asked := 0 |}.

Definition is_question (ev : event) : bool :=
  match ev with
  | QuestionEv _ => true
  | _ => false
  end.

(** The number of Question events of a trace. *)
Definition questions_emitted (t : list event) : nat :=
  length (filter (fun ev => is_question ev = true) t).

End teach_me.

(** ** Vocabulary of the statements *)

Module spec.

Import testbank.

(** The three recognized category types. *)
Definition recognized (a : option string) : Prop :=
  a = Some "matching" \/ a = Some "multiple_choice"
  \/ a = Some "true_or_false".

(** An answer node whose text is neither "True" nor "False". *)
Definition invalid_answer (a : node) : Prop :=
  cls a = Answer /\ text a <> "True" /\ text a <> "False".

(** A fact node whose answer list would be empty. *)
Definition no_answer (fact : node) : Prop :=
  forall c, c ∈ children fact -> cls c <> Answer.

Definition bad_fact (true_or_false : bool) (fact : node) : Prop :=
  no_answer fact
  \/ (true_or_false = true
      /\ exists a, a ∈ children fact /\ invalid_answer a).

Definition bad_category (c : node) : Prop :=
  ~ recognized (attr c)
  \/ children c = []
  \/ exists f, f ∈ children c
       /\ bad_fact (bool_decide (attr c = Some "true_or_false")) f.

Definition bad_section (s : node) : Prop :=
  children s = [] \/ exists c, c ∈ children s /\ bad_category c.

Definition bad_chapter (ch : node) : Prop :=
  children ch = [] \/ exists s, s ∈ children ch /\ bad_section s.

(** Some level of the tree is empty, some category type is unknown, or
    some true/false answer is neither "True" nor "False". *)
Definition malformed (root : node) : Prop :=
  children root = [] \/ exists ch, ch ∈ children root /\ bad_chapter ch.

(** The facts of a category that carry the kind label [kd]. *)
Definition group (kd : option string) (fs : list quizcore.Fact)
  : list quizcore.Fact :=
  filter (fun f => quizcore.kind f = kd) fs.

(** The distinct question texts of a list of facts. *)
Definition all_questions (fs : list quizcore.Fact) : gset string :=
  ⋃ (quizcore.question_texts <$> fs).

(** The distinct answer texts of a list of facts. *)
Definition all_answers (fs : list quizcore.Fact) : gset string :=
  ⋃ (quizcore.answer_texts <$> fs).

(** The answers recorded for the question text [q]: those of the facts
    that list [q]. *)
Definition recorded_answers (q : string) (fs : list quizcore.Fact)
  : gset string :=
  all_answers (filter (fun f => q ∈ quizcore.question_texts f) fs).

(** The wrong pool of [q] in the kind group [kd]: the answers of the
    group that are not correct for [q]. *)
Definition wrong_pool (kd : option string) (q : string)
    (fs : list quizcore.Fact) : gset string :=
  all_answers (group kd fs) ∖ recorded_answers q (group kd fs).

(** A fact as [Fact.__init__] leaves it: both mappings empty. *)
Definition fresh (f : quizcore.Fact) : Prop :=
  quizcore.q_to_a f = ∅ /\ quizcore.a_to_q f = ∅.

(** A fact whose mappings, once built, hold what [build] computes from
    its own questions and answers and nothing else. *)
Definition clean (f : quizcore.Fact) : Prop :=
  quizcore.q_to_a (quizcore.Fact_build f)
  = gset_to_gmap (quizcore.answer_texts f) (quizcore.question_texts f)
  /\ quizcore.a_to_q (quizcore.Fact_build f)
     = gset_to_gmap (quizcore.question_texts f) (quizcore.answer_texts f).

(** What [Fact.__init__] has checked. *)
Definition valid_fact (true_or_false : bool) (f : quizcore.Fact) : Prop :=
  fresh f
  /\ quizcore.answers f <> []
  /\ (true_or_false = true ->
      forall a, a ∈ quizcore.answer_texts f -> a = "True" \/ a = "False").

(** What the constructor of a category has checked. *)
Definition valid_category (c : quizcore.Category) : Prop :=
  quizcore.q_and_a c = []
  /\ Forall (valid_fact (quizcore.is_TrueOrFalse (quizcore.cclass c)))
       (quizcore.facts c).

(** The question texts a [build] of the category goes through, in the
    order of its loops: the keys of the merged dictionary for a true/false
    category, the questions of each kind group otherwise. *)
Definition questions_asked (c : quizcore.Category) : list string :=
  match quizcore.cclass c with
  | quizcore.TrueOrFalse =>
      dict.keys (quizcore.TF_collect (quizcore.facts c) ∅).2
  | _ =>
      mjoin ((fun kg : option string * quizcore.group =>
                elements (dom (quizcore.g_question kg.2)))
             <$> dict.items (quizcore.MCM_collect (quizcore.facts c) ∅).2)
  end.

(** The number of records of a list that ask [q]. *)
Definition records_for (q : string) (l : list quizcore.Record_) : nat :=
  length (filter (fun r => quizcore.r_question r = q) l).

(** The kind labels of the facts that ask [q]. *)
Definition labels_asking (q : string) (fs : list quizcore.Fact)
  : gset (option string) :=
  list_to_set
    (quizcore.kind <$> filter (fun f => q ∈ quizcore.question_texts f) fs).

(** The records that one build of a category owes to the question text
    [q]: one when a true/false category asks it; one for each kind label
    under which a matching or multiple-choice category asks it. *)
Definition records_per_build (c : quizcore.Category) (q : string) : nat :=
  match quizcore.cclass c with
  | quizcore.TrueOrFalse =>
      if decide (q ∈ all_questions (quizcore.facts c)) then 1 else 0
  | _ => size (labels_asking q (quizcore.facts c))
  end.

(** Between the session states [s] and [s'], [n] more questions were
    yielded and the report [p] counted [n] more answers; [p] kept its
    parent and its flag, and the other reports of [s] are as they were. *)
Definition counted (p n : nat) (s s' : teach_me.session) : Prop :=
  teach_me.questions_emitted (teach_me.trace s')
  = teach_me.questions_emitted (teach_me.trace s) + n
  /\ length (teach_me.reports s) <= length (teach_me.reports s')
  /\ (forall i, i < length (teach_me.reports s) -> i <> p ->
       teach_me.reports s' !! i = teach_me.reports s !! i)
  /\ exists r r',
       teach_me.reports s !! p = Some r
       /\ teach_me.reports s' !! p = Some r'
       /\ teach_me._finalized r' = teach_me._finalized r
       /\ teach_me._parent r' = teach_me._parent r
       /\ teach_me._right r' + teach_me._wrong r'
          = teach_me._right r + teach_me._wrong r + n.

(** The number of choices equal to [a]. *)
Definition occurrences (a : string) (choices : list string) : nat :=
  length (filter (fun x => x = a) choices).

End spec.

(** ** Concrete inputs *)

Module examples.

Import testbank.

Definition Q (t : string) : node := Node Question None t [].
Definition A (t : string) : node := Node Answer None t [].

(** A [multiple_choice] category, label "colors", two facts. *)
Definition colors : node :=
  Node Category (Some "multiple_choice") ""
    [ Node Fact (Some "colors") "" [Q "Color of sky"; A "Blue"];
      Node Fact (Some "colors") "" [Q "Color of grass"; A "Green"] ].

(** A [true_or_false] category with one fact. *)
Definition sky : node :=
  Node Category (Some "true_or_false") ""
    [ Node Fact None "" [Q "Sky is blue"; A "True"] ].

(** The same question text with both answers, across two facts. *)
Definition ambiguous : node :=
  Node Category (Some "true_or_false") ""
    [ Node Fact None "" [Q "Sky is blue"; A "True"];
      Node Fact None "" [Q "Sky is blue"; A "False"] ].

Definition bank : node :=
  Node TestBank (Some "bank") ""
    [ Node Chapter (Some "one") ""
        [ Node Section (Some "first") "" [colors; sky] ] ].

(** A bank whose only section has no category. *)
Definition hollow : node :=
  Node TestBank (Some "bank") ""
    [ Node Chapter (Some "one") "" [ Node Section (Some "first") "" [] ] ].

Definition draws : random.rng := [3; 1; 4; 1; 5; 9; 2; 6; 5; 3; 5; 8; 9; 7; 9].

Definition answers_given : teach_me.driver :=
  fun n _ =>
    match n with
    | 0 => teach_me.Int 0
    | 1 => teach_me.Str "Blue"
    | _ => teach_me.Int (-1)
    end.

Definition open_report : teach_me.Report :=
  {| teach_me._level := "Section"; teach_me._parent := None;
     teach_me._right := 2; teach_me._wrong := 1;
     teach_me._problems := []; teach_me._finalized := false |}.

Definition closed_report : teach_me.Report :=
  teach_me.set_finalized true open_report.

Definition sky_record : quizcore.Record_ :=
  {| quizcore.r_kind := "Multiple Choice";
     quizcore.r_question := "Color of sky";
     quizcore.r_choices := ["Green"; "Blue"];
     quizcore.r_answer := "Blue" |}.

Definition sky_question : teach_me.Question :=
  teach_me.Question_init 0 sky_record.

(** A chapter report and a section report below it; the section has one
    right answer; the chapter is finalized first. *)
Definition parent_finalized_first : outcome unit * teach_me.heap :=
  (chapter <- teach_me.Report_init "Chapter" None ;;
   section <- teach_me.Report_init "Section" (Some chapter) ;;
   teach_me.right_answer section ;;;
   teach_me.finalize chapter) [].

(** A fact with one question and one answer. *)
Definition pair_fact (kd : option string) (qa : string * string) : node :=
  Node Fact kd "" [Q qa.1; A qa.2].

(** A [matching] category with more wrong answers than the class draws. *)
Definition capitals : node :=
  Node Category (Some "matching") ""
    (pair_fact None <$>
       [ ("Austria", "Vienna"); ("Belgium", "Brussels");
         ("Bulgaria", "Sofia"); ("Croatia", "Zagreb");
         ("Cyprus", "Nicosia"); ("Czechia", "Prague");
         ("Denmark", "Copenhagen"); ("Estonia", "Tallinn");
         ("Finland", "Helsinki"); ("France", "Paris");
         ("Germany", "Berlin"); ("Greece", "Athens");
         ("Hungary", "Budapest"); ("Ireland", "Dublin");
         ("Italy", "Rome"); ("Latvia", "Riga");
         ("Lithuania", "Vilnius"); ("Luxembourg", "Luxembourg City");
         ("Malta", "Valletta"); ("Netherlands", "Amsterdam");
         ("Poland", "Warsaw"); ("Portugal", "Lisbon");
         ("Romania", "Bucharest"); ("Slovakia", "Bratislava");
         ("Slovenia", "Ljubljana"); ("Spain", "Madrid");
         ("Sweden", "Stockholm") ]).

(** A [multiple_choice] category with more wrong answers than the class
    draws. *)
Definition five_colors : node :=
  Node Category (Some "multiple_choice") ""
    (pair_fact (Some "colors") <$>
       [ ("Color of sky", "Blue"); ("Color of grass", "Green");
         ("Color of snow", "White"); ("Color of coal", "Black");
         ("Color of blood", "Red") ]).

(** A [multiple_choice] category that asks one question under two
    labels. *)
Definition two_labels : node :=
  Node Category (Some "multiple_choice") ""
    [ pair_fact (Some "rivers") ("Found in Egypt", "Nile");
      pair_fact (Some "rivers") ("Found in Brazil", "Amazon");
      pair_fact (Some "cities") ("Found in Egypt", "Cairo");
      pair_fact (Some "cities") ("Found in Brazil", "Manaus") ].

(** The category object made of a category node. *)
Definition built (category : node) : quizcore.Category :=
  match quizcore.Section_get_category category with
  | Ok c => c
  | Raise _ =>
      {| quizcore.cclass := quizcore.Matching; quizcore.facts := [];
         quizcore.q_and_a := [] |}
  end.

(** A bank whose only category has a type that is not recognized. *)
Definition essay : node :=
  Node TestBank (Some "bank") ""
    [ Node Chapter (Some "one") ""
        [ Node Section (Some "first") ""
            [ Node Category (Some "essay") ""
                [ pair_fact None ("Why is the sky blue", "Scattering") ] ] ] ].

End examples.

(** ** Invariants of the session and vocabulary of trees *)

(** The classes that [isinstance] tells apart. *)
#[global] Instance node_class_eq_dec : EqDecision testbank.node_class.
Proof. solve_decision. Defined.

Module props.

(** The entry that [get_problems] makes of a stored problem. *)
Definition review_entry (qa : quizcore.Record_ * string) : teach_me.Answer :=
  {| teach_me.a_answer := qa.2;
     teach_me.a_category := quizcore.r_kind qa.1;
     teach_me.a_question := quizcore.r_question qa.1;
     teach_me.a_choices := quizcore.r_choices qa.1;
     teach_me.a_right := quizcore.r_answer qa.1 |}.

(** A report with as many problems as wrong answers. *)
Definition tallied (r : teach_me.Report) : Prop :=
  teach_me._wrong r = length (teach_me._problems r).

(** Every parent reference points to a report created earlier. *)
Definition parents_below (h : list teach_me.Report) : Prop :=
  forall i r p,
    h !! i = Some r -> teach_me._parent r = Some p -> p < i.

(** The reports outside [open] are finalized. *)
Definition closed_except (open : list nat) (h : list teach_me.Report)
  : Prop :=
  forall i r, h !! i = Some r -> i ∉ open -> teach_me._finalized r = true.

(** Only the first report has no parent. *)
Definition one_root (h : list teach_me.Report) : Prop :=
  forall i r, h !! i = Some r -> teach_me._parent r = None -> i = 0.

(** What holds of the heap of reports all along a session, [open] being
    the reports of the divisions entered and not yet left. *)
Definition session_heap (open : list nat) (h : list teach_me.Report)
  : Prop :=
  Forall tallied h /\ parents_below h /\ closed_except open h
  /\ one_root h.

(** The divisions of a unit test: itself, its chapters, their sections. *)
Definition divisions (t : quizcore.UnitTest) : nat :=
  1 + sum_list_with (fun c => 1 + length (quizcore.sections c))
        (quizcore.chapters t).

(** A child of a fact node that is neither a question nor an answer. *)
Definition foreign_fact (fact : testbank.node) : Prop :=
  exists c, c ∈ testbank.children fact
    /\ testbank.cls c <> testbank.Question
    /\ testbank.cls c <> testbank.Answer.

(** Some fact of the tree has such a child. *)
Definition foreign (root : testbank.node) : Prop :=
  exists ch s c f,
    ch ∈ testbank.children root /\ s ∈ testbank.children ch
    /\ c ∈ testbank.children s /\ f ∈ testbank.children c
    /\ foreign_fact f.

(** What [Fact.__init__] raises for which defect of a fact node. *)
Definition fact_defect (true_or_false : bool) (fact : testbank.node)
    (e : exn) : Prop :=
  (e = RuntimeError "Fact is empty!" /\ spec.no_answer fact)
  \/ (e = RuntimeError "Answer is invalid!" /\ true_or_false = true
      /\ exists a, a ∈ testbank.children fact /\ spec.invalid_answer a)
  \/ (e = TypeError /\ foreign_fact fact).

(** What [Section.get_category] raises for which defect of a category
    node: the [ValueError] of a type that is not recognized carries the
    type. *)
Definition category_defect (c : testbank.node) (e : exn) : Prop :=
  (e = ValueError (testbank.attr c) /\ ~ spec.recognized (testbank.attr c))
  \/ (spec.recognized (testbank.attr c)
      /\ ((e = RuntimeError "Category is empty!"
           /\ testbank.children c = [])
          \/ exists f, f ∈ testbank.children c
               /\ fact_defect
                    (bool_decide (testbank.attr c = Some "true_or_false"))
                    f e)).

Definition section_defect (s : testbank.node) (e : exn) : Prop :=
  (e = RuntimeError "Section is empty!" /\ testbank.children s = [])
  \/ exists c, c ∈ testbank.children s /\ category_defect c e.

Definition chapter_defect (ch : testbank.node) (e : exn) : Prop :=
  (e = RuntimeError "Chapter is empty!" /\ testbank.children ch = [])
  \/ exists s, s ∈ testbank.children ch /\ section_defect s e.

(** The exception [e] reports a defect that the tree has: a
    [RuntimeError] for an empty level or an invalid true/false answer, a
    [ValueError] for a category type that is not recognized, a
    [TypeError] for a child of a fact that is neither a question nor an
    answer. *)
Definition tree_defect (root : testbank.node) (e : exn) : Prop :=
  (e = RuntimeError "UnitTest is empty!" /\ testbank.children root = [])
  \/ exists ch, ch ∈ testbank.children root /\ chapter_defect ch e.

(** Two exceptions of one class. *)
Definition same_class (e1 e2 : exn) : Prop :=
  match e1, e2 with
  | RuntimeError _, RuntimeError _
  | ValueError _, ValueError _
  | TypeError, TypeError
  | IndexError, IndexError => True
  | _, _ => False
  end.

(** The texts of the children of class [c], in document order. *)
Definition texts_of (c : testbank.node_class) (children : list testbank.node)
  : list string :=
  testbank.text <$> filter (fun n => testbank.cls n = c) children.

End props.

(** ** Module [testbank]: the handler [BankParser] *)

Module BankParser.

Import testbank.

(** What a method of the handler may raise: one of the exceptions of
    [exn], or the [KeyError] of [attributes.getValue]. *)
Inductive raised : Type :=
  | Builtin (e : exn)
  | KeyError (key : string).

Inductive result (A : Type) : Type :=
  | Done (a : A)
  | Failed (e : raised).
Arguments Done {A} a.
Arguments Failed {A} e.

(** The events that [xml.sax.parse] delivers to the handler. *)
Inductive sax_event : Type :=
  | StartElement (name : string) (attributes : gmap string string)
  | Characters (content : string)
  | EndElement (name : string).

(** The handler: [context] is a Python list used as a stack, its top
    at the end. *)
Record parser : Type := {
  context : list node;
  root_node : option node }.

(** [BankParser()] *)
Definition init : parser := {| context := []; root_node := None |}.

(** [l.pop()] and [l[-1]]: the last element, with what comes before it. *)
Fixpoint pop {A} (l : list A) : option (list A * A) :=
  match l with
  | [] => None
  | x :: l' =>
      match pop l' with
      | None => Some ([], x)
      | Some (rest, y) => Some (x :: rest, y)
      end
  end.

(** [attributes.getValue(key)] *)
Definition getValue (attributes : gmap string string) (key : string)
  : result string :=
  match attributes !! key with
  | Some v => Done v
  | None => Failed (KeyError key)
  end.

(** [_Node.__init__]: no text, no children. *)
Definition new_node (c : node_class) (a : option string) : node :=
  Node c a "" [].

(** [_Node.add_text] *)
Definition add_text (content : string) (n : node) : node :=
  Node (cls n) (attr n) (text n +:+ content) (children n).

(** [_Node.add_child] *)
Definition add_child (child : node) (n : node) : node :=
  Node (cls n) (attr n) (text n) (children n ++ [child]).

(** [Category(attr)]: the type is validated. *)
Definition Category_init (a : string) : result node :=
  if decide (a ∈ ["matching"; "multiple_choice"; "true_or_false"])
  then Done (new_node Category (Some a))
  else Failed (Builtin (RuntimeError "Type of category not recognized!")).

(** [self.context.append(n)] *)
Definition push (n : node) (p : parser) : parser :=
  {| context := context p ++ [n]; root_node := root_node p |}.

(** The common shape of the branches of [startElement] below the root:
    [self.context[-1]] has to be of class [c]; then a node is made, from
    that parent and the attributes, and pushed. *)
Definition inside (c : node_class) (msg : string)
    (make : node -> result node) (p : parser) : result unit * parser :=
  match pop (context p) with
  | None => (Failed (Builtin IndexError), p)
  | Some (_, parent) =>
      if decide (cls parent = c) then
        match make parent with
        | Done n => (Done tt, push n p)
        | Failed e => (Failed e, p)
        end
      else (Failed (Builtin (RuntimeError msg)), p)
  end.

(** A node of class [c] whose attribute is [attributes.getValue(key)]. *)
Definition named (c : node_class) (attributes : gmap string string)
    (key : string) : result node :=
  match getValue attributes key with
  | Done v => Done (new_node c (Some v))
  | Failed e => Failed e
  end.

(** [BankParser.startElement] *)
Definition startElement (name : string) (attributes : gmap string string)
    (p : parser) : result unit * parser :=
  if decide (name = "testbank") then
    match context p with
    | [] =>
        match named TestBank attributes "name" with
        | Done n => (Done tt, push n p)
        | Failed e => (Failed e, p)
        end
    | _ => (Failed (Builtin (RuntimeError "Context should be empty!")), p)
    end
  else if decide (name = "chapter") then
    inside TestBank "Chapter should be in context of testbank!"
      (fun _ => named Chapter attributes "name") p
  else if decide (name = "section") then
    inside Chapter "Section should be in context of chapter!"
      (fun _ => named Section attributes "name") p
  else if decide (name = "category") then
    inside Section "Category should be in context of section!"
      (fun _ =>
         match getValue attributes "type" with
         | Done v => Category_init v
         | Failed e => Failed e
         end) p
  else if decide (name = "fact") then
    inside Category "Fact should be in context of category!"
      (fun parent =>
         if decide (attr parent = Some "multiple_choice")
         then named Fact attributes "type"
         else Done (new_node Fact None)) p
  else if decide (name = "question") then
    inside Fact "Question should be in context of fact!"
      (fun _ => Done (new_node Question None)) p
  else if decide (name = "answer") then
    inside Fact "Answer should be in context of fact!"
      (fun _ => Done (new_node Answer None)) p
  else (Failed (Builtin (ValueError (Some name))), p).

(** [BankParser.characters] *)
Definition characters (content : string) (p : parser)
  : result unit * parser :=
  match pop (context p) with
  | None => (Failed (Builtin IndexError), p)
  | Some (rest, n) =>
      (Done tt, {| context := rest ++ [add_text content n];
                   root_node := root_node p |})
  end.

(** [BankParser.endElement]: the node is popped before anything else. *)
Definition endElement (name : string) (p : parser) : result unit * parser :=
  match pop (context p) with
  | None => (Failed (Builtin IndexError), p)
  | Some (rest, n) =>
      if decide (name = "testbank") then
        (Done tt, {| context := rest; root_node := Some n |})
      else
        match pop rest with
        | None =>
            (Failed (Builtin IndexError),
             {| context := rest; root_node := root_node p |})
        | Some (rest', parent) =>
            (Done tt, {| context := rest' ++ [add_child n parent];
                         root_node := root_node p |})
        end
  end.

Definition handle (ev : sax_event) (p : parser) : result unit * parser :=
  match ev with
  | StartElement name attributes => startElement name attributes p
  | Characters content => characters content p
  | EndElement name => endElement name p
  end.

(** The handler driven through the events of a document; the first
    exception ends the parse. *)
Fixpoint feed (events : list sax_event) (p : parser)
  : result unit * parser :=
  match events with
  | [] => (Done tt, p)
  | ev :: rest =>
      match handle ev p with
      | (Done _, p') => feed rest p'
      | (Failed e, p') => (Failed e, p')
      end
  end.

(** [BankParser.parse], on the events of the file. *)
Definition parse (events : list sax_event) : result (option node) :=
  match feed events init with
  | (Done _, p) => Done (root_node p)
  | (Failed e, _) => Failed e
  end.

End BankParser.

(** ** The shape of parsed trees *)

Module shape.

Import testbank.

(** [ATTR_NAME] of the seven classes. *)
Definition ATTR_NAME (c : node_class) : option string :=
  match c with
  | TestBank | Chapter | Section => Some "name"
  | Category | Fact => Some "type"
  | Question | Answer => None
  end.

(** The element name of a class: [type(self).__name__.lower()]. *)
Definition tag (c : node_class) : string :=
  match c with
  | TestBank => "testbank"
  | Chapter => "chapter"
  | Section => "section"
  | Category => "category"
  | Fact => "fact"
  | Question => "question"
  | Answer => "answer"
  end.

(** Which node may be the child of which; a fact has a type under a
    category of type [multiple_choice] and only there. *)
Definition nests (parent child : node) : Prop :=
  match cls parent, cls child with
  | TestBank, Chapter | Chapter, Section | Section, Category => True
  | Category, Fact =>
      if decide (attr parent = Some "multiple_choice")
      then is_Some (attr child)
      else attr child = None
  | Fact, Question | Fact, Answer => True
  | _, _ => False
  end.

Definition leaf (n : node) : Prop := attr n = None /\ children n = [].

Definition fact (f : node) : Prop :=
  cls f = Fact /\ Forall (fun n => nests f n /\ leaf n) (children f).

Definition category (c : node) : Prop :=
  cls c = Category /\ spec.recognized (attr c)
  /\ Forall (fun f => nests c f /\ fact f) (children c).

Definition section (s : node) : Prop :=
  cls s = Section /\ is_Some (attr s)
  /\ Forall (fun c => nests s c /\ category c) (children s).

Definition chapter (ch : node) : Prop :=
  cls ch = Chapter /\ is_Some (attr ch)
  /\ Forall (fun s => nests ch s /\ section s) (children ch).

Definition testbank (t : node) : Prop :=
  cls t = TestBank /\ is_Some (attr t)
  /\ Forall (fun ch => nests t ch /\ chapter ch) (children t).

(** A node as the handler builds it, whatever its class. *)
Definition shaped (n : node) : Prop :=
  match cls n with
  | TestBank => testbank n
  | Chapter => chapter n
  | Section => section n
  | Category => category n
  | Fact => fact n
  | Question | Answer => leaf n
  end.

(** The open elements, innermost first: each one nested in the next, the
    outermost one a test bank. *)
Fixpoint stack (st : list node) : Prop :=
  match st with
  | [] => True
  | [b] => cls b = TestBank
  | b :: (a :: _) as rest => nests a b /\ stack rest
  end.

(** What holds of the handler between two events of a document whose
    open elements are named [open], innermost first. *)
Definition parsing (open : list string) (p : BankParser.parser) : Prop :=
  let st := reverse (BankParser.context p) in
  Forall shaped st /\ stack st /\ (fun n => tag (cls n)) <$> st = open
  /\ (forall t, BankParser.root_node p = Some t -> testbank t).

(** A stream of events as a parser of XML delivers it: every end tag
    closes the innermost open element, and none is left open. *)
Fixpoint well_nested (open : list string)
    (events : list BankParser.sax_event) : bool :=
  match events with
  | [] => bool_decide (open = [])
  | BankParser.StartElement name _ :: rest => well_nested (name :: open) rest
  | BankParser.Characters _ :: rest => well_nested open rest
  | BankParser.EndElement name :: rest =>
      match open with
      | [] => false
      | inner :: outer => bool_decide (name = inner) && well_nested outer rest
      end
  end.

(** An outcome that is a value or a [RuntimeError]. *)
Definition value_or_RuntimeError {A} (o : outcome A) : Prop :=
  match o with
  | Ok _ | Raise (RuntimeError _) => True
  | Raise _ => False
  end.

(** The attributes of the start tag of a node: its attribute, if any,
    under the [ATTR_NAME] of its class. *)
Definition attributes (n : node) : gmap string string :=
  match ATTR_NAME (cls n), attr n with
  | Some key, Some v => {[ key := v ]}
  | _, _ => ∅
  end.

(** The events of the document that writes a tree: for each node its
    start tag, its text if any, its children in order, its end tag. *)
Fixpoint document (n : node) : list BankParser.sax_event :=
  BankParser.StartElement (tag (cls n)) (attributes n)
  :: (if decide (text n = "") then []
      else [BankParser.Characters (text n)])
  ++ concat (map document (children n))
  ++ [BankParser.EndElement (tag (cls n))].

End shape.

(** ** Documents *)

Module documents.

Import BankParser.

Definition element (name : string) (attributes : gmap string string)
    (body : list sax_event) : list sax_event :=
  StartElement name attributes :: body ++ [EndElement name].

Definition leaf (name text : string) : list sax_event :=
  element name ∅ [Characters text].

(** The document of [examples.bank]. *)
Definition colors : list sax_event :=
  element "testbank" {[ "name" := "bank" ]}
    (element "chapter" {[ "name" := "one" ]}
       (element "section" {[ "name" := "first" ]}
          (element "category" {[ "type" := "multiple_choice" ]}
             (element "fact" {[ "type" := "colors" ]}
                (leaf "question" "Color of sky" ++ leaf "answer" "Blue")
              ++ element "fact" {[ "type" := "colors" ]}
                   (leaf "question" "Color of grass"
                    ++ leaf "answer" "Green"))
           ++ element "category" {[ "type" := "true_or_false" ]}
                (element "fact" {[ "type" := "ignored" ]}
                   (leaf "question" "Sky is blue"
                    ++ leaf "answer" "True"))))).

(** The document of [examples.hollow]. *)
Definition hollow : list sax_event :=
  element "testbank" {[ "name" := "bank" ]}
    (element "chapter" {[ "name" := "one" ]}
       (element "section" {[ "name" := "first" ]} [])).

End documents.

(** * Properties *)

Import teach_me.

#[local] Set Warnings "-clear-no-such-hyp".

(** ** Loops *)

Section loop_facts.

Context {S A : Type}.
Implicit Types (body : A -> M S unit) (l : list A) (s : S).

Lemma for_each_app body l1 l2 s :
  for_each (l1 ++ l2) body s
  = (for_each l1 body ;;; for_each l2 body) s.
Proof.
  revert s. induction l1 as [|x l1 IH]; intros s; cbn.
  - done.
  - unfold bind in *. destruct (body x s) as [[[]|e] s1]; [|done].
    by rewrite IH.
Qed.

(** An invariant that follows the elements done, for a loop that
    completes. *)
Lemma for_each_inv (I : list A -> S -> Prop) body l :
  (forall done x s s',
     x ∈ l -> I done s -> body x s = (Ok tt, s') -> I (done ++ [x]) s') ->
  forall s s', I [] s -> for_each l body s = (Ok tt, s') -> I l s'.
Proof.
  intros Hstep. cut (forall l2 done s s', l2 ⊆ l -> I done s ->
    for_each l2 body s = (Ok tt, s') -> I (done ++ l2) s').
  { intros H s s'. by apply (H l []). }
  induction l2 as [|x l2 IH]; intros done s s' Hsub HI; cbn.
  - intros [= <-]. by rewrite app_nil_r.
  - unfold bind. destruct (body x s) as [[[]|e] s1] eqn:Hx; [|done].
    intros Hrest. rewrite cons_middle, app_assoc.
    eapply IH; [set_solver| |done].
    eapply Hstep; [|done|done]. set_solver.
Qed.

(** A loop whose body always completes under an invariant completes. *)
Lemma for_each_total (I : S -> Prop) body l :
  (forall x s, x ∈ l -> I s -> exists s', body x s = (Ok tt, s') /\ I s') ->
  forall s, I s -> exists s', for_each l body s = (Ok tt, s') /\ I s'.
Proof.
  induction l as [|x l IH]; intros Hstep s HI; cbn.
  - by exists s.
  - destruct (Hstep x s) as (s1 & Hx & HI1); [left|done|].
    unfold bind. rewrite Hx. apply IH; [|done].
    intros y s2 Hy. apply Hstep. by right.
Qed.

(** A loop raises [e] when one element makes the body raise [e] without
    touching the state and the body raises nothing else. *)
Lemma for_each_raises (e : exn) body l x :
  x ∈ l ->
  (forall s, body x s = (Raise e, s)) ->
  (forall y s, (exists s', body y s = (Ok tt, s')) \/ body y s = (Raise e, s)) ->
  forall s, exists s', for_each l body s = (Raise e, s').
Proof.
  intros Hx Hbad Hall. induction Hx as [x l|x y l Hx IH]; intros s; cbn.
  - unfold bind. rewrite Hbad. by eexists.
  - unfold bind. destruct (Hall y s) as [[s1 ->]| ->]; [|by eexists].
    apply IH, Hbad.
Qed.

End loop_facts.

(** ** The random source *)

Section random_facts.

Context {A : Type}.
Implicit Types (pool xs : list A) (g : random.rng).

Lemma randbelow_lt n g : 0 < n -> (random.randbelow n g).1 < n.
Proof.
  intros Hn. destruct g as [|r g]; cbn; [done|].
  apply Nat.mod_upper_bound. lia.
Qed.

(** [pick] returns [k] elements taken at distinct positions of the pool. *)
Lemma pick_spec pool k g :
  k <= length pool ->
  length (random.pick pool k g).1 = k /\ (random.pick pool k g).1 ⊆+ pool.
Proof.
  revert pool g. induction k as [|k IH]; intros pool g Hk; cbn.
  - split; [done|]. apply submseteq_nil_l.
  - pose proof (randbelow_lt (length pool) g ltac:(lia)) as Hj.
    destruct (random.randbelow (length pool) g) as [j g1]. cbn in Hj.
    destruct (lookup_lt_is_Some_2 pool j Hj) as [x Hx]. rewrite Hx.
    pose proof (delete_Permutation _ _ _ Hx) as Hperm.
    assert (Hlen : length pool = Datatypes.S (length (delete j pool))).
    { by rewrite Hperm at 1. }
    destruct (IH (delete j pool) g1 ltac:(lia)) as [IHl IHs].
    destruct (random.pick (delete j pool) k g1) as [xs g2]. cbn in *.
    split; [by rewrite IHl|]. rewrite Hperm. by apply submseteq_skip.
Qed.

Lemma sample_spec pool k g :
  k <= length pool ->
  exists xs g', random.sample pool k g = (Ok xs, g')
    /\ length xs = k /\ xs ⊆+ pool.
Proof.
  intros Hk. unfold random.sample. rewrite decide_True by done.
  pose proof (pick_spec pool k g Hk) as [Hl Hs].
  destruct (random.pick pool k g) as [xs g']. by exists xs, g'.
Qed.

Lemma shuffle_spec (x : list A) g : (random.shuffle x g).1 ≡ₚ x.
Proof.
  unfold random.shuffle.
  destruct (pick_spec x (length x) g) as [Hl Hs]; [done|].
  apply submseteq_length_Permutation; [done|]. by rewrite Hl.
Qed.

Lemma choice_spec (seq : list A) g :
  seq <> [] -> exists x g', random.choice seq g = (Ok x, g') /\ x ∈ seq.
Proof.
  intros Hne. unfold random.choice. destruct seq as [|a seq']; [done|].
  set (seq := a :: seq').
  pose proof (randbelow_lt (length seq) g ltac:(cbn; lia)) as Hj.
  destruct (random.randbelow (length seq) g) as [j g']. cbn in Hj.
  destruct (lookup_lt_is_Some_2 seq j Hj) as [x Hx]. rewrite Hx.
  exists x, g'. split; [done|]. by eapply list_elem_of_lookup_2.
Qed.

End random_facts.

(** ** Reports *)

Section report_facts.

Implicit Types (h : heap) (r : Report) (self : nat).

Lemma deref_lookup h self r :
  h !! self = Some r -> deref self h = (Ok r, h).
Proof.
  intros Hr. unfold deref. by rewrite (list_lookup_total_correct _ _ _ Hr).
Qed.

Lemma finalize_closed h self r :
  h !! self = Some r -> _finalized r = true ->
  finalize self h = (Raise (RuntimeError "Report is finalized!"), h).
Proof.
  intros Hr Hf. unfold finalize, bind. rewrite (deref_lookup _ _ _ Hr), Hf.
  reflexivity.
Qed.

Lemma lookup_assign_eq h self r r' :
  h !! self = Some r -> <[self := r']> h !! self = Some r'.
Proof.
  intros Hr. apply list_lookup_insert_eq. by eapply lookup_lt_Some.
Qed.

Ltac heap_lookup :=
  repeat first
    [ rewrite list_lookup_total_insert
    | rewrite list_lookup_insert
    | rewrite length_insert ].

(** Finalizing an open report succeeds and leaves it finalized. *)
Lemma finalize_open h self r :
  h !! self = Some r -> _finalized r = false ->
  exists h', finalize self h = (Ok tt, h') /\ length h' = length h /\
    exists r', h' !! self = Some r' /\ _finalized r' = true.
Proof.
  intros Hr Hf. pose proof (lookup_lt_Some _ _ _ Hr) as Hlt.
  unfold finalize, bind. rewrite (deref_lookup _ _ _ Hr), Hf.
  unfold assign, modify, ret, deref.
  destruct (_parent r) as [p|]; cbv beta iota.
  - eexists. split; [reflexivity|]. split; [by rewrite !length_insert|].
    heap_lookup. rewrite (list_lookup_total_correct _ _ _ Hr).
    repeat (case_decide; try (exfalso; intuition lia)); eauto.
  - eexists. split; [reflexivity|]. split; [by rewrite !length_insert|].
    heap_lookup. rewrite decide_True by done. eauto.
Qed.

Lemma read_open h self r :
  h !! self = Some r -> _finalized r = false ->
  Report_right self h = (Raise (RuntimeError "Report is not finalized!"), h)
  /\ Report_wrong self h = (Raise (RuntimeError "Report is not finalized!"), h)
  /\ Report_total self h = (Raise (RuntimeError "Report is not finalized!"), h).
Proof.
  intros Hr Hf. unfold Report_right, Report_wrong, Report_total, bind.
  rewrite (deref_lookup _ _ _ Hr), Hf. done.
Qed.

(** C7. Finalizing a finalized report raises; so does a second [finalize]
    after a first one that succeeded; reading [right], [wrong] or [total]
    of a report that is not finalized raises.  Each failed call returns
    the heap it was given: counters, problem list and flag are as they
    were. *)
Theorem finalize_twice_and_early_reads_fail h self r :
  h !! self = Some r ->
  (_finalized r = true ->
     finalize self h = (Raise (RuntimeError "Report is finalized!"), h))
  /\ (_finalized r = false ->
      (exists h1, finalize self h = (Ok tt, h1) /\
         finalize self h1 = (Raise (RuntimeError "Report is finalized!"), h1))
      /\ Report_right self h
         = (Raise (RuntimeError "Report is not finalized!"), h)
      /\ Report_wrong self h
         = (Raise (RuntimeError "Report is not finalized!"), h)
      /\ Report_total self h
         = (Raise (RuntimeError "Report is not finalized!"), h)).
Proof.
  intros Hr. split; intros Hf.
  - by eapply finalize_closed.
  - split; [|by eapply read_open].
    destruct (finalize_open h self r Hr Hf) as (h1 & Hfin & _ & r1 & Hr1 & Hf1).
    exists h1. split; [done|]. by eapply finalize_closed.
Qed.

Lemma finalize_twice_and_early_reads_fail_witness :
  [examples.open_report; examples.closed_report] !! 0
    = Some examples.open_report
  /\ (exists h1,
        finalize 0 [examples.open_report; examples.closed_report] = (Ok tt, h1)
        /\ finalize 0 h1 = (Raise (RuntimeError "Report is finalized!"), h1)).
Proof.
  split; [reflexivity|].
  apply (finalize_twice_and_early_reads_fail
           [examples.open_report; examples.closed_report] 0
           examples.open_report); reflexivity.
Defined.

(** C2 (the code departs from it).  A chapter report is finalized while
    the section report below it is still open: the later [finalize] of the
    section does not raise, and the finalized chapter, whose [right] read 0,
    reads 1 afterwards. *)
Theorem finalize_child_after_parent :
  exists h h',
    examples.parent_finalized_first = (Ok tt, h)
    /\ Report_right 0 h = (Ok 0, h)
    /\ finalize 1 h = (Ok tt, h')
    /\ Report_right 0 h' = (Ok 1, h').
Proof. eexists _, _. repeat split; reflexivity. Qed.

End report_facts.

(** ** Questions *)

Section question_facts.

Implicit Types (h : heap) (q : Question) (r : Report).

Lemma getitem_in_range {A} (l : list A) (j : Z) :
  (- Z.of_nat (length l) <= j < Z.of_nat (length l))%Z ->
  exists x, getitem l j = Ok x /\ x ∈ l.
Proof.
  intros Hj. unfold getitem.
  set (k := if decide (j < 0)%Z then (j + Z.of_nat (length l))%Z else j).
  assert (Hk : (0 <= k < Z.of_nat (length l))%Z).
  { subst k. case_decide; lia. }
  rewrite decide_True by done.
  destruct (lookup_lt_is_Some_2 l (Z.to_nat k)) as [x Hx]; [lia|].
  rewrite Hx. exists x. split; [done|]. by eapply list_elem_of_lookup_2.
Qed.

Lemma getitem_out_of_range {A} (l : list A) (i : Z) :
  (i < - Z.of_nat (length l) \/ Z.of_nat (length l) <= i)%Z ->
  getitem l i = Raise IndexError.
Proof.
  intros Hi. unfold getitem. cbv zeta.
  destruct (decide (i < 0)%Z); rewrite decide_False; done || lia.
Qed.

Lemma right_answer_open h self r :
  h !! self = Some r -> _finalized r = false ->
  right_answer self h = (Ok tt, <[self := set_right (_right r + 1) r]> h).
Proof.
  intros Hr Hf. unfold right_answer, bind.
  by rewrite (deref_lookup _ _ _ Hr), Hf.
Qed.

Lemma wrong_answer_open h self r :
  h !! self = Some r -> _finalized r = false ->
  wrong_answer self h = (Ok tt, <[self := set_wrong (_wrong r + 1) r]> h).
Proof.
  intros Hr Hf. unfold wrong_answer, bind.
  by rewrite (deref_lookup _ _ _ Hr), Hf.
Qed.

Lemma review_open h self r rec given :
  h !! self = Some r -> _finalized r = false ->
  review self rec given h
  = (Ok tt, <[self := set_problems (_problems r ++ [(rec, given)]) r]> h).
Proof.
  intros Hr Hf. unfold review, bind.
  by rewrite (deref_lookup _ _ _ Hr), Hf.
Qed.

(** What [answer] does once the text given is known, on an open report:
    one more answer counted, right or wrong. *)
Lemma answer_text_open q h r given :
  q_answered q = false ->
  h !! q_report q = Some r -> _finalized r = false ->
  exists r',
    Question_answer (Str given) (q, h)
    = (Ok tt, (set_answered true q, <[q_report q := r']> h))
    /\ _finalized r' = false /\ _parent r' = _parent r
    /\ _right r' + _wrong r' = _right r + _wrong r + 1
    /\ (given = q_right q ->
        _right r' = _right r + 1 /\ _wrong r' = _wrong r
        /\ _problems r' = _problems r).
Proof.
  intros Ha Hr Hf. unfold Question_answer, bind, get. cbv beta iota.
  cbn [fst snd]. rewrite Ha. unfold resolve, ret. cbv beta iota.
  cbn [fst snd]. case_decide as Hg.
  - unfold on_heap. cbn [fst snd].
    rewrite (right_answer_open _ _ _ Hr Hf). unfold modify. cbn [fst snd].
    eexists. split; [reflexivity|]. cbn.
    split; [done|]. split; [done|]. split; [lia|]. intros _. by repeat split.
  - unfold on_heap, bind. cbn [fst snd].
    rewrite (wrong_answer_open _ _ _ Hr Hf). cbn [fst snd].
    erewrite review_open; [|by eapply lookup_assign_eq|done].
    unfold modify. cbn [fst snd]. rewrite list_insert_insert_eq.
    eexists. split; [reflexivity|]. cbn.
    split; [done|]. split; [done|]. split; [lia|]. done.
Qed.

Lemma answer_index_as_text q h i given :
  q_answered q = false ->
  getitem (q_choices q) i = Ok given ->
  Question_answer (Int i) (q, h) = Question_answer (Str given) (q, h).
Proof.
  intros Ha Hi. unfold Question_answer, bind, get. cbv beta iota.
  cbn [fst snd]. rewrite Ha. unfold resolve. by rewrite Hi.
Qed.

(** C8. On an unanswered question, answering with an index whose choice
    is the correct text and answering with that text itself act alike;
    when the report of the question is open, both add one to its right
    count and leave its wrong count, its problem list and every other
    report as they were. *)
Theorem answer_by_index_or_by_text q h i :
  q_answered q = false ->
  getitem (q_choices q) i = Ok (q_right q) ->
  Question_answer (Int i) (q, h) = Question_answer (Str (q_right q)) (q, h)
  /\ forall r,
      h !! q_report q = Some r -> _finalized r = false ->
      exists h' r',
        Question_answer (Int i) (q, h) = (Ok tt, (set_answered true q, h'))
        /\ h' !! q_report q = Some r'
        /\ _right r' = _right r + 1
        /\ _wrong r' = _wrong r
        /\ _problems r' = _problems r
        /\ forall j, j <> q_report q -> h' !! j = h !! j.
Proof.
  intros Ha Hi. split; [by apply answer_index_as_text|].
  intros r Hr Hf. rewrite (answer_index_as_text _ _ _ _ Ha Hi).
  destruct (answer_text_open q h r (q_right q) Ha Hr Hf)
    as (r' & Hrun & _ & _ & _ & Hright).
  destruct (Hright eq_refl) as (? & ? & ?).
  exists (<[q_report q := r']> h), r'. repeat split; try done.
  - by eapply lookup_assign_eq.
  - intros j Hj. by rewrite list_lookup_insert_ne.
Qed.

Lemma answer_by_index_or_by_text_witness :
  Question_answer (Int 1) (examples.sky_question, [examples.open_report])
  = Question_answer (Str "Blue") (examples.sky_question, [examples.open_report])
  /\ forall r,
      [examples.open_report] !! 0 = Some r -> _finalized r = false ->
      exists h' r',
        Question_answer (Int 1) (examples.sky_question, [examples.open_report])
        = (Ok tt, (set_answered true examples.sky_question, h'))
        /\ h' !! 0 = Some r'
        /\ _right r' = _right r + 1
        /\ _wrong r' = _wrong r
        /\ _problems r' = _problems r
        /\ forall j, j <> 0 -> h' !! j = [examples.open_report] !! j.
Proof.
  apply (answer_by_index_or_by_text examples.sky_question
           [examples.open_report] 1); reflexivity.
Defined.

(** C10. On an unanswered question, an index outside the choices raises
    [IndexError] and returns the question and the heap it was given; a
    following call with an index inside the choices is not refused as a
    second answer, and succeeds when the report is open. *)
Theorem answer_out_of_range_is_atomic q h i :
  q_answered q = false ->
  (i < - Z.of_nat (length (q_choices q))
   \/ Z.of_nat (length (q_choices q)) <= i)%Z ->
  exists s1,
    Question_answer (Int i) (q, h) = (Raise IndexError, s1)
    /\ s1 = (q, h)
    /\ forall j r,
        (- Z.of_nat (length (q_choices q)) <= j
         < Z.of_nat (length (q_choices q)))%Z ->
        h !! q_report q = Some r -> _finalized r = false ->
        exists s2, Question_answer (Int j) s1 = (Ok tt, s2)
                   /\ q_answered s2.1 = true.
Proof.
  intros Ha Hi. exists (q, h). split; [|split; [done|]].
  - unfold Question_answer, bind, get. cbv beta iota. cbn [fst snd].
    rewrite Ha. unfold resolve. by rewrite (getitem_out_of_range _ _ Hi).
  - intros j r Hj Hr Hf.
    destruct (getitem_in_range (q_choices q) j Hj) as (given & Hg & _).
    rewrite (answer_index_as_text _ _ _ _ Ha Hg).
    destruct (answer_text_open q h r given Ha Hr Hf) as (r' & Hrun & _).
    eexists. split; [exact Hrun|done].
Qed.

Lemma answer_out_of_range_is_atomic_witness :
  exists s1,
    Question_answer (Int 2) (examples.sky_question, [examples.open_report])
    = (Raise IndexError, s1)
    /\ s1 = (examples.sky_question, [examples.open_report])
    /\ forall j r,
        (- Z.of_nat (length (q_choices examples.sky_question)) <= j
         < Z.of_nat (length (q_choices examples.sky_question)))%Z ->
        [examples.open_report] !! q_report examples.sky_question = Some r ->
        _finalized r = false ->
        exists s2, Question_answer (Int j) s1 = (Ok tt, s2)
                   /\ q_answered s2.1 = true.
Proof.
  apply (answer_out_of_range_is_atomic examples.sky_question
           [examples.open_report] 2); [reflexivity | right; cbn; lia].
Defined.

End question_facts.

(** ** Construction of the structural model *)

Section construction_facts.

Import testbank.

Lemma map_raise_fails {A B} (f : A -> outcome B) (l : list A) x :
  x ∈ l -> is_Raise (f x) -> is_Raise (map_raise f l).
Proof.
  intros Hx Hf. induction Hx as [x l|x y l Hx IH]; cbn.
  - destruct (f x); [done|exact I].
  - specialize (IH Hf). destruct (f y); [|exact I]. cbn.
    by destruct (map_raise f l).
Qed.

Lemma Fact_sort_invalid children a qs ans :
  a ∈ children -> spec.invalid_answer a ->
  is_Raise (quizcore.Fact_sort children true qs ans).
Proof.
  intros Ha (Hc & Ht & Hf). revert qs ans.
  induction Ha as [a l|a b l Ha IH]; intros qs ans; cbn;
    try specialize (IH Hc Ht Hf).
  - rewrite Hc. unfold quizcore.Answer_init. cbn.
    rewrite bool_decide_eq_false_2; [exact I|].
    rewrite !elem_of_cons, elem_of_nil. intuition.
  - destruct (cls b); try exact I; [apply IH|].
    destruct (quizcore.Answer_init b true); [apply IH|exact I].
Qed.

Lemma Fact_sort_no_answer children tf qs ans qs' ans' :
  (forall c, c ∈ children -> cls c <> Answer) ->
  quizcore.Fact_sort children tf qs ans = Ok (qs', ans') -> ans' = ans.
Proof.
  revert qs. induction children as [|c l IH]; intros qs Hno; cbn.
  - by intros [= _ ->].
  - assert (cls c <> Answer) by (apply Hno; left).
    destruct (cls c); try done.
    apply IH. intros d Hd. apply Hno. by right.
Qed.

Lemma Fact_init_bad tf fact :
  spec.bad_fact tf fact -> is_Raise (quizcore.Fact_init fact tf).
Proof.
  intros [Hno|(-> & a & Ha & Hbad)]; unfold quizcore.Fact_init.
  - destruct (quizcore.Fact_sort (children fact) tf [] []) as [[qs ans]|]
      eqn:Hsort; [|exact I].
    apply Fact_sort_no_answer in Hsort as ->; [exact I|done].
  - pose proof (Fact_sort_invalid _ _ [] [] Ha Hbad) as Hr.
    by destruct (quizcore.Fact_sort (children fact) true [] []).
Qed.

Lemma CATEGORY_lookup key c :
  quizcore._CATEGORY !! key = Some c ->
  spec.recognized (Some key)
  /\ quizcore.is_TrueOrFalse c = bool_decide (Some key = Some "true_or_false").
Proof.
  unfold quizcore._CATEGORY, spec.recognized.
  rewrite !lookup_insert_Some, lookup_empty.
  intros [[<- <-]|[_ [[<- <-]|[_ [[<- <-]|[_ [=]]]]]]]; split; auto.
Qed.

Lemma Category_init_empty c category :
  children category = [] -> is_Raise (quizcore.Category_init c category).
Proof. intros Hc. unfold quizcore.Category_init. by rewrite Hc. Qed.

Lemma get_category_bad category :
  spec.bad_category category ->
  is_Raise (quizcore.Section_get_category category).
Proof.
  unfold quizcore.Section_get_category, spec.bad_category.
  destruct (attr category) as [key|] eqn:Hattr; cbn.
  2:{ intros _. exact I. }
  destruct (quizcore._CATEGORY !! key) as [c|] eqn:Hkey; [|intros _; exact I].
  destruct (CATEGORY_lookup _ _ Hkey) as [Hrec Htf].
  intros [Hnot|[Hempty|(f & Hf & Hbad)]].
  - done.
  - by apply Category_init_empty.
  - unfold quizcore.Category_init.
    pose proof (map_raise_fails
      (fun child => quizcore.Fact_init child (quizcore.is_TrueOrFalse c))
      (children category) f Hf) as Hr.
    rewrite Htf in Hr |- *. specialize (Hr (Fact_init_bad _ _ Hbad)).
    by destruct (map_raise _ (children category)).
Qed.

Lemma Section_init_bad section :
  spec.bad_section section -> is_Raise (quizcore.Section_init section).
Proof.
  unfold quizcore.Section_init. intros [Hempty|(c & Hc & Hbad)].
  - by rewrite Hempty.
  - pose proof (map_raise_fails _ _ c Hc (get_category_bad _ Hbad)) as Hr.
    by destruct (map_raise _ (children section)).
Qed.

Lemma Chapter_init_bad chapter :
  spec.bad_chapter chapter -> is_Raise (quizcore.Chapter_init chapter).
Proof.
  unfold quizcore.Chapter_init. intros [Hempty|(s & Hs & Hbad)].
  - by rewrite Hempty.
  - pose proof (map_raise_fails _ _ s Hs (Section_init_bad _ Hbad)) as Hr.
    by destruct (map_raise _ (children chapter)).
Qed.

Lemma UnitTest_init_bad root :
  spec.malformed root -> is_Raise (quizcore.UnitTest_init root).
Proof.
  unfold quizcore.UnitTest_init. intros [Hempty|(c & Hc & Hbad)].
  - by rewrite Hempty.
  - pose proof (map_raise_fails _ _ c Hc (Chapter_init_bad _ Hbad)) as Hr.
    by destruct (map_raise _ (children root)).
Qed.

Lemma map_raise_Raise {A B} (f : A -> outcome B) l e :
  map_raise f l = Raise e -> exists x, x ∈ l /\ f x = Raise e.
Proof.
  induction l as [|x l IH]; cbn; [done|].
  destruct (f x) as [y|e'] eqn:Hx; cbn.
  - destruct (map_raise f l) as [ys|e'']; cbn; [done|]. intros [= ->].
    destruct (IH eq_refl) as (z & Hz & Hfz). exists z. split; [by right|done].
  - intros [= ->]. exists x. split; [by left|done].
Qed.

Lemma Fact_sort_Raise children tf qs ans e :
  quizcore.Fact_sort children tf qs ans = Raise e ->
  (e = RuntimeError "Answer is invalid!" /\ tf = true
   /\ exists a, a ∈ children /\ spec.invalid_answer a)
  \/ (e = TypeError
      /\ exists c, c ∈ children /\ cls c <> Question /\ cls c <> Answer).
Proof.
  revert qs ans. induction children as [|c l IH]; intros qs ans; cbn; [done|].
  assert (Hlift :
    (e = RuntimeError "Answer is invalid!" /\ tf = true
     /\ exists a, a ∈ l /\ spec.invalid_answer a)
    \/ (e = TypeError
        /\ exists d, d ∈ l /\ cls d <> Question /\ cls d <> Answer) ->
    (e = RuntimeError "Answer is invalid!" /\ tf = true
     /\ exists a, a ∈ c :: l /\ spec.invalid_answer a)
    \/ (e = TypeError
        /\ exists d, d ∈ c :: l /\ cls d <> Question /\ cls d <> Answer)).
  { intros [(-> & -> & a & Ha & Hbad)|(-> & d & Hd & Hne)].
    - left. split; [done|]. split; [done|]. exists a. split; [by right|done].
    - right. split; [done|]. exists d. split; [by right|done]. }
  destruct (cls c) eqn:Hc;
    try (intros [= <-]; right; split; [done|]; exists c;
         split; [by left|by rewrite Hc]).
  - intros H%IH. by apply Hlift.
  - unfold quizcore.Answer_init. destruct tf; cbn.
    + case_bool_decide as Ht; cbn.
      * intros H%IH. by apply Hlift.
      * intros [= <-]. left. split; [done|]. split; [done|].
        exists c. split; [by left|].
        rewrite !elem_of_cons, elem_of_nil in Ht. split; [done|]. tauto.
    + intros H%IH. by apply Hlift.
Qed.

Lemma map_raise_Ok_nil {A B} (f : A -> outcome B) l :
  map_raise f l = Ok [] -> l = [].
Proof.
  destruct l as [|x l]; cbn; [done|].
  destruct (f x); cbn; [|done]. by destruct (map_raise f l).
Qed.

Lemma Fact_sort_grows children tf qs ans qs' ans' :
  quizcore.Fact_sort children tf qs ans = Ok (qs', ans') ->
  length ans <= length ans'.
Proof.
  revert qs ans. induction children as [|c l IH]; intros qs ans; cbn.
  - by intros [= _ ->].
  - destruct (cls c); try done; [apply IH|].
    destruct (quizcore.Answer_init c tf); cbn; [|done].
    intros Hl%IH. rewrite length_app in Hl. cbn in Hl. lia.
Qed.

Lemma Fact_sort_none children tf qs ans qs' :
  quizcore.Fact_sort children tf qs ans = Ok (qs', []) ->
  forall c, c ∈ children -> cls c <> Answer.
Proof.
  revert qs ans. induction children as [|c l IH]; intros qs ans; cbn.
  - by intros _ d ?%elem_of_nil.
  - destruct (cls c) eqn:Hc; try done.
    + intros Hs d [->|Hd]%elem_of_cons; [by rewrite Hc|by eapply IH].
    + destruct (quizcore.Answer_init c tf); cbn; [|done].
      intros Hl%Fact_sort_grows. rewrite length_app in Hl. cbn in Hl. lia.
Qed.

Lemma Fact_init_defect fact tf e :
  quizcore.Fact_init fact tf = Raise e -> props.fact_defect tf fact e.
Proof.
  unfold quizcore.Fact_init, props.fact_defect.
  destruct (quizcore.Fact_sort _ _ _ _) as [[qs ans]|e'] eqn:Hsort; cbn.
  - destruct ans; [|done]. intros [= <-]. left. split; [done|].
    exact (Fact_sort_none _ _ _ _ _ Hsort).
  - intros [= ->].
    apply Fact_sort_Raise in Hsort as [(-> & -> & Ha)|(-> & c & Hc & Hq & Ha)].
    + right. left. done.
    + right. right. split; [done|]. by exists c.
Qed.

Lemma get_category_defect category e :
  quizcore.Section_get_category category = Raise e ->
  props.category_defect category e.
Proof.
  unfold quizcore.Section_get_category, props.category_defect.
  destruct (attr category) as [key|] eqn:Hattr; cbn.
  2:{ intros [= <-]. left. split; [done|]. intros [?|[?|?]]; done. }
  destruct (quizcore._CATEGORY !! key) as [c|] eqn:Hkey.
  2:{ intros [= <-]. left. split; [done|].
      unfold quizcore._CATEGORY in Hkey.
      intros [[= ->]|[[= ->]|[= ->]]]; by vm_compute in Hkey. }
  destruct (CATEGORY_lookup _ _ Hkey) as [Hrec Htf].
  unfold quizcore.Category_init.
  destruct (map_raise _ _) as [fs|e'] eqn:Hfs; cbn.
  - destruct fs; [|done]. intros [= <-]. right. split; [done|]. left.
    split; [done|]. by eapply map_raise_Ok_nil.
  - intros [= ->]. right. split; [done|]. right.
    apply map_raise_Raise in Hfs as (f & Hf & Hr).
    exists f. split; [done|]. rewrite <- Htf. by apply Fact_init_defect.
Qed.

Lemma Section_init_defect section e :
  quizcore.Section_init section = Raise e -> props.section_defect section e.
Proof.
  unfold quizcore.Section_init, props.section_defect.
  destruct (map_raise _ _) as [cs|e'] eqn:Hcs; cbn.
  - destruct cs; [|done]. intros [= <-]. left. split; [done|].
    by eapply map_raise_Ok_nil.
  - intros [= ->]. right. apply map_raise_Raise in Hcs as (c & Hc & Hr).
    exists c. split; [done|]. by apply get_category_defect.
Qed.

Lemma Chapter_init_defect chapter e :
  quizcore.Chapter_init chapter = Raise e -> props.chapter_defect chapter e.
Proof.
  unfold quizcore.Chapter_init, props.chapter_defect.
  destruct (map_raise _ _) as [ss|e'] eqn:Hss; cbn.
  - destruct ss; [|done]. intros [= <-]. left. split; [done|].
    by eapply map_raise_Ok_nil.
  - intros [= ->]. right. apply map_raise_Raise in Hss as (s & Hs & Hr).
    exists s. split; [done|]. by apply Section_init_defect.
Qed.

Lemma UnitTest_init_defect root e :
  quizcore.UnitTest_init root = Raise e -> props.tree_defect root e.
Proof.
  unfold quizcore.UnitTest_init, props.tree_defect.
  destruct (map_raise _ _) as [cs|e'] eqn:Hcs; cbn.
  - destruct cs; [|done]. intros [= <-]. left. split; [done|].
    by eapply map_raise_Ok_nil.
  - intros [= ->]. right. apply map_raise_Raise in Hcs as (ch & Hch & Hr).
    exists ch. split; [done|]. by apply Chapter_init_defect.
Qed.

(** C4. When a level of the document tree is empty (unit test, chapter,
    section, fact list of a category, answer list of a fact), when a
    category type is not one of the three recognized ones, or when an
    answer of a true/false category is neither "True" nor "False", the
    constructor [FAQ], through which every session has to start, raises,
    and what it raises reports a defect that the tree has: a
    [RuntimeError] with its message for an empty level or an invalid
    true/false answer, the [ValueError] of the declared type for a
    category type that is not recognized, a [TypeError] for a child of a
    fact that is neither a question nor an answer. *)
Theorem malformed_tree_is_rejected root :
  spec.malformed root ->
  exists e, FAQ_init root = Raise e /\ props.tree_defect root e.
Proof.
  intros Hbad. apply UnitTest_init_bad in Hbad. unfold FAQ_init.
  destruct (quizcore.UnitTest_init root) as [t|e] eqn:Hinit; [done|].
  exists e. split; [done|]. by apply UnitTest_init_defect.
Qed.

Lemma malformed_tree_is_rejected_witness :
  spec.malformed examples.hollow
  /\ exists e, FAQ_init examples.hollow = Raise e
              /\ props.tree_defect examples.hollow e.
Proof.
  assert (H : spec.malformed examples.hollow).
  { right. eexists. split; [left|]. right. eexists. split; [left|].
    by left. }
  split; [exact H|]. exact (malformed_tree_is_rejected examples.hollow H).
Defined.

(** The failures of the construction are not of one class: an empty
    section raises a [RuntimeError], a category type that is not
    recognized a [ValueError]. *)
Lemma structure_error_is_not_one_class :
  exists e1 e2,
    spec.malformed examples.hollow
    /\ FAQ_init examples.hollow = Raise e1
    /\ spec.malformed examples.essay
    /\ FAQ_init examples.essay = Raise e2
    /\ e1 = RuntimeError "Section is empty!"
    /\ e2 = ValueError (Some "essay")
    /\ ~ props.same_class e1 e2.
Proof.
  exists (RuntimeError "Section is empty!"), (ValueError (Some "essay")).
  split.
  { right. eexists. split; [left|]. right. eexists. split; [left|].
    by left. }
  split; [vm_compute; reflexivity|]. split.
  { right. eexists. split; [left|]. right. eexists. split; [left|].
    right. eexists. split; [left|]. left.
    intros [[=]|[[=]|[=]]]. }
  split; [vm_compute; reflexivity|]. split; [done|]. split; [done|].
  intros [].
Qed.

End construction_facts.

(** ** Dictionaries *)

Section dict_facts.

Context {K V : Type} `{Countable K}.

Implicit Types (d : dict K V) (k : K).

Lemma dict_lookup_empty k : (∅ : dict K V) !! k = None.
Proof. done. Qed.

Lemma dict_dom_empty : dom (∅ : dict K V) = ∅.
Proof. done. Qed.

Lemma dict_lookup_total_alt `{!Inhabited V} d k :
  d !!! k = default inhabitant (d !! k).
Proof. done. Qed.

Lemma dict_lookup_total_empty `{!Inhabited V} k :
  (∅ : dict K V) !!! k = inhabitant.
Proof. done. Qed.

Lemma value_at_None (l : list (K * V)) k :
  dict.value_at k l = None <-> k ∉ l.*1.
Proof.
  induction l as [|[k' v] l IH]; cbn.
  - split; [intros _; apply not_elem_of_nil|done].
  - rewrite not_elem_of_cons. case_decide; naive_solver.
Qed.

Lemma value_at_Some (l : list (K * V)) k v :
  NoDup l.*1 -> dict.value_at k l = Some v <-> (k, v) ∈ l.
Proof.
  induction l as [|[k' v'] l IH]; cbn; intros Hnd.
  - split; [done|]. by intros ?%elem_of_nil.
  - apply NoDup_cons in Hnd as [Hk' Hnd]. rewrite elem_of_cons.
    case_decide as Hk.
    + subst k'. split; [intros [= ->]; by left|].
      intros [[= ->]|Hin]; [done|]. exfalso. apply Hk'.
      apply list_elem_of_fmap. by exists (k, v).
    + rewrite (IH Hnd). split; [by right|]. intros [[= -> ->]|Hin]; done.
Qed.

Lemma dict_elem_of_dom d k : k ∈ dom d <-> is_Some (d !! k).
Proof.
  unfold dom, dict.dict_dom, dict.keys, lookup, dict.dict_lookup.
  rewrite elem_of_list_to_set, <- not_eq_None_Some, value_at_None.
  split; [naive_solver|]. intros Hk. by destruct (decide (k ∈ (dict.items d).*1)).
Qed.

Lemma dict_not_elem_of_dom d k : k ∉ dom d <-> d !! k = None.
Proof. rewrite dict_elem_of_dom, eq_None_not_Some. done. Qed.

(** An entry of a dictionary is the value of its key. *)
Lemma elem_of_dict_items d k v :
  NoDup (dict.keys d) -> (k, v) ∈ dict.items d <-> d !! k = Some v.
Proof. intros Hnd. symmetry. by apply value_at_Some. Qed.

Lemma lookup_upsert (l : list (K * V)) k init f k' :
  dict.value_at k' (dict.upsert k init f l)
  = if decide (k = k')
    then Some (f (default init (dict.value_at k l)))
    else dict.value_at k' l.
Proof.
  induction l as [|[k0 v0] l IH]; cbn.
  - repeat case_decide; congruence.
  - destruct (decide (k0 = k)) as [->|Hk0]; cbn.
    + repeat case_decide; congruence.
    + rewrite IH. repeat case_decide; congruence.
Qed.

Lemma lookup_setdefault d k init f k' :
  dict.setdefault d k init f !! k'
  = if decide (k = k') then Some (f (default init (d !! k))) else d !! k'.
Proof. apply lookup_upsert. Qed.

(** [setdefault] keeps the keys where they are and puts a new key last. *)
Lemma keys_setdefault d k init f :
  dict.keys (dict.setdefault d k init f)
  = if decide (k ∈ dict.keys d) then dict.keys d else dict.keys d ++ [k].
Proof.
  unfold dict.keys, dict.setdefault. cbn [dict.items].
  induction (dict.items d) as [|[k0 v0] l IH]; cbn.
  - rewrite decide_False; [done|apply not_elem_of_nil].
  - destruct (decide (k0 = k)) as [->|Hk0]; cbn.
    + rewrite decide_True; [done|by left].
    + rewrite IH. case_decide as Hin.
      * rewrite decide_True; [done|by right].
      * rewrite decide_False; [done|]. rewrite not_elem_of_cons. done.
Qed.

Lemma NoDup_keys_setdefault d k init f :
  NoDup (dict.keys d) -> NoDup (dict.keys (dict.setdefault d k init f)).
Proof.
  intros Hnd. rewrite keys_setdefault. case_decide as Hin; [done|].
  apply NoDup_app. split; [done|]. split; [|apply NoDup_singleton].
  intros x Hx ->%list_elem_of_singleton. done.
Qed.

Lemma dict_dom_keys d : dom d = list_to_set (dict.keys d).
Proof. done. Qed.

End dict_facts.

(** ** Dictionaries of sets *)

Section set_dict_facts.

Implicit Types (d dst : dict string (gset string))
  (src : gmap string (gset string)) (k : string).

Lemma lookup_set_update d k s k' :
  quizcore.set_update d k s !! k'
  = if decide (k = k') then Some (default ∅ (d !! k) ∪ s) else d !! k'.
Proof. unfold quizcore.set_update. by rewrite lookup_setdefault. Qed.

Lemma lookup_fold_set_update (l : list (string * gset string)) dst k :
  NoDup l.*1 ->
  foldl (fun d '(k, s) => quizcore.set_update d k s) dst l !! k
  = match (list_to_map l : gmap string (gset string)) !! k with
    | Some s => Some (default ∅ (dst !! k) ∪ s)
    | None => dst !! k
    end.
Proof.
  revert dst. induction l as [|[k0 s0] l IH]; intros dst Hnd; cbn.
  - by rewrite lookup_empty.
  - apply NoDup_cons in Hnd as [Hk0 Hnd]. rewrite IH by done.
    rewrite lookup_set_update.
    destruct (decide (k0 = k)) as [->|Hne].
    + rewrite lookup_insert_eq.
      by rewrite (not_elem_of_list_to_map_1 _ _ Hk0).
    + by rewrite lookup_insert_ne.
Qed.

Lemma lookup_merge_sets dst src k :
  quizcore.merge_sets dst src !! k
  = match src !! k with
    | Some s => Some (default ∅ (dst !! k) ∪ s)
    | None => dst !! k
    end.
Proof.
  unfold quizcore.merge_sets.
  rewrite lookup_fold_set_update by apply NoDup_fst_map_to_list.
  by rewrite list_to_map_to_list.
Qed.

Lemma dom_merge_sets dst src :
  dom (quizcore.merge_sets dst src) = dom dst ∪ dom src.
Proof.
  apply set_eq. intros k.
  rewrite elem_of_union, !dict_elem_of_dom, elem_of_dom.
  rewrite lookup_merge_sets. unfold is_Some.
  destruct (src !! k), (dst !! k); naive_solver.
Qed.

Lemma lookup_total_merge_sets dst src k :
  quizcore.merge_sets dst src !!! k = dst !!! k ∪ src !!! k.
Proof.
  rewrite !dict_lookup_total_alt, lookup_total_alt, lookup_merge_sets.
  change (inhabitant : gset string) with (∅ : gset string).
  destruct (src !! k), (dst !! k); cbn; set_solver.
Qed.

Lemma NoDup_keys_merge_sets dst src :
  NoDup (dict.keys dst) -> NoDup (dict.keys (quizcore.merge_sets dst src)).
Proof.
  unfold quizcore.merge_sets. generalize (map_to_list src). intros l.
  revert dst. induction l as [|[k s] l IH]; intros dst Hnd; cbn; [done|].
  apply IH. by apply NoDup_keys_setdefault.
Qed.

End set_dict_facts.

(** ** What the constructors establish *)

Section valid_facts.

Import testbank.

Lemma map_raise_Ok {A B} (f : A -> outcome B) l ys :
  map_raise f l = Ok ys -> Forall2 (fun x y => f x = Ok y) l ys.
Proof.
  revert ys. induction l as [|x l IH]; intros ys; cbn.
  - intros [= <-]. constructor.
  - destruct (f x) as [y|] eqn:Hx; [|done]. cbn.
    destruct (map_raise f l) as [ys'|]; [|done]. cbn.
    intros [= <-]. constructor; [done|]. by apply IH.
Qed.

Lemma Fact_sort_valid children tf qs ans qs' ans' :
  quizcore.Fact_sort children tf qs ans = Ok (qs', ans') ->
  (tf = true ->
   Forall (fun a => quizcore.a_text a = "True" \/ quizcore.a_text a = "False")
     ans) ->
  (tf = true ->
   Forall (fun a => quizcore.a_text a = "True" \/ quizcore.a_text a = "False")
     ans')
  /\ length ans <= length ans'.
Proof.
  revert qs ans. induction children as [|c l IH]; intros qs ans; cbn.
  - intros [= <- <-] H. by split.
  - destruct (cls c); try done.
    + apply IH.
    + unfold quizcore.Answer_init.
      destruct (tf && _) eqn:Hchk; [done|]. cbn.
      intros Hsort Hans.
      apply IH in Hsort as [Hv Hl].
      * split; [done|]. rewrite length_app in Hl. cbn in Hl. lia.
      * intros ->. apply Forall_app. split; [by apply Hans|].
        constructor; [|constructor]. cbn in *.
        apply negb_false_iff, bool_decide_eq_true in Hchk.
        rewrite !elem_of_cons, elem_of_nil in Hchk. tauto.
Qed.

Lemma Fact_init_Ok fact tf f :
  quizcore.Fact_init fact tf = Ok f -> spec.valid_fact tf f.
Proof.
  unfold quizcore.Fact_init.
  destruct (quizcore.Fact_sort _ _ _ _) as [[qs ans]|] eqn:Hsort; [|done].
  cbn. apply Fact_sort_valid in Hsort as [Hv _]; [|by constructor].
  destruct ans as [|a ans]; [done|]. intros [= <-].
  split; [done|]. split; [done|]. intros Htf x.
  unfold quizcore.answer_texts. cbn [quizcore.answers].
  rewrite elem_of_list_to_set, list_elem_of_fmap. intros (b & -> & Hb).
  specialize (Hv Htf). rewrite Forall_forall in Hv. by apply Hv.
Qed.

Lemma Category_init_Ok c category cat :
  quizcore.Category_init c category = Ok cat ->
  quizcore.cclass cat = c /\ spec.valid_category cat.
Proof.
  unfold quizcore.Category_init.
  destruct (map_raise _ _) as [fs|] eqn:Hfs; [|done]. cbn.
  destruct fs as [|f fs]; [done|]. intros [= <-].
  split; [done|]. split; [done|]. cbn.
  apply map_raise_Ok in Hfs. clear -Hfs.
  induction Hfs as [|x y l k Hxy _ IH]; constructor; [|done].
  by eapply Fact_init_Ok.
Qed.

Lemma get_category_Ok category cat :
  quizcore.Section_get_category category = Ok cat -> spec.valid_category cat.
Proof.
  unfold quizcore.Section_get_category.
  destruct (attr category ≫= _) as [c|]; [|done].
  intros H. by apply Category_init_Ok in H as [_ ?].
Qed.

Lemma fresh_clean f : spec.fresh f -> spec.clean f.
Proof.
  intros [Hq Ha]. unfold spec.clean, quizcore.Fact_build. cbn.
  rewrite Hq, Ha. by rewrite !(right_id_L ∅ (∪)).
Qed.

Lemma Fact_build_idem f :
  quizcore.Fact_build (quizcore.Fact_build f) = quizcore.Fact_build f.
Proof.
  unfold quizcore.Fact_build, quizcore.question_texts,
    quizcore.answer_texts. cbn.
  by rewrite !(assoc_L (∪)), !(idemp_L (∪)).
Qed.

Lemma valid_fact_answers tf f :
  spec.valid_fact tf f -> exists a, a ∈ quizcore.answer_texts f.
Proof.
  intros (_ & Hne & _). destruct (quizcore.answers f) as [|a l] eqn:Ha; [done|].
  exists (quizcore.a_text a). unfold quizcore.answer_texts.
  rewrite Ha. cbn. set_solver.
Qed.

End valid_facts.

(** ** The true/false builder *)

Section true_or_false_facts.

Import quizcore.

Implicit Types (fs : list Fact) (q : string) (st : build_state).

Lemma lookup_total_built (X Y : gset string) q :
  (gset_to_gmap X Y : gmap string (gset string)) !!! q
  = if decide (q ∈ Y) then X else ∅.
Proof.
  rewrite lookup_total_alt.
  change (inhabitant : gset string) with (∅ : gset string).
  case_decide as Hq.
  - by rewrite (proj2 (lookup_gset_to_gmap_Some _ _ _ _) (conj Hq eq_refl)).
  - by rewrite (proj2 (lookup_gset_to_gmap_None _ _ _) Hq).
Qed.

Lemma recorded_answers_cons q f fs :
  spec.recorded_answers q (f :: fs)
  = (if decide (q ∈ question_texts f) then answer_texts f else ∅)
    ∪ spec.recorded_answers q fs.
Proof.
  unfold spec.recorded_answers, spec.all_answers. rewrite filter_cons.
  case_decide; cbn; [done|]. by rewrite (left_id_L ∅ (∪)).
Qed.

Lemma TF_collect_facts fs qs0 : (TF_collect fs qs0).1 = Fact_build <$> fs.
Proof.
  revert qs0. induction fs as [|f fs IH]; intros qs0; cbn; [done|].
  specialize (IH (merge_sets qs0 (q_to_a (Fact_build f)))).
  destruct (TF_collect fs _) as [rest qs']. cbn in *. by rewrite IH.
Qed.

Lemma TF_collect_table fs qs0 :
  Forall spec.clean fs ->
  dom (TF_collect fs qs0).2 = dom qs0 ∪ spec.all_questions fs
  /\ forall q, (TF_collect fs qs0).2 !!! q
              = qs0 !!! q ∪ spec.recorded_answers q fs.
Proof.
  intros Hclean. revert qs0.
  induction Hclean as [|f fs [Hq _] _ IH]; intros qs0; cbn [TF_collect].
  - unfold spec.all_questions, spec.recorded_answers, spec.all_answers.
    cbn. split; [|intros q]; by rewrite (right_id_L ∅ (∪)).
  - specialize (IH (merge_sets qs0 (q_to_a (Fact_build f)))).
    destruct (TF_collect fs _) as [rest qs']. cbn [fst snd] in *.
    destruct IH as [IHd IHl]. split.
    + rewrite IHd, dom_merge_sets, Hq, dom_gset_to_gmap.
      unfold spec.all_questions. cbn. by rewrite (assoc_L (∪)).
    + intros q. rewrite IHl, lookup_total_merge_sets, Hq.
      rewrite lookup_total_built, recorded_answers_cons.
      by rewrite (assoc_L (∪)).
Qed.

Lemma TF_collect_keys fs qs0 :
  NoDup (dict.keys qs0) -> NoDup (dict.keys (TF_collect fs qs0).2).
Proof.
  revert qs0. induction fs as [|f fs IH]; intros qs0 Hnd; cbn; [done|].
  specialize (IH (merge_sets qs0 (q_to_a (Fact_build f)))
                (NoDup_keys_merge_sets _ _ Hnd)).
  by destruct (TF_collect fs _) as [rest qs'].
Qed.

(** The entries of the merged dictionary of a category whose facts are
    clean: one per question text, with the answers recorded for it. *)
Lemma TF_table_entry fs q v :
  Forall spec.clean fs ->
  (TF_collect fs ∅).2 !! q = Some v ->
  q ∈ spec.all_questions fs /\ v = spec.recorded_answers q fs.
Proof.
  intros Hclean Hv. destruct (TF_collect_table fs ∅ Hclean) as [Hd Hl].
  split.
  - assert (q ∈ dom (TF_collect fs ∅).2) as Hin
      by (by apply dict_elem_of_dom).
    rewrite Hd, dict_dom_empty in Hin. set_solver.
  - specialize (Hl q). rewrite dict_lookup_total_alt, Hv in Hl. cbn in Hl.
    rewrite dict_lookup_total_empty in Hl.
    change (inhabitant : gset string) with (∅ : gset string) in Hl.
    by rewrite (left_id_L ∅ (∪)) in Hl.
Qed.

(** The entries that the second loop goes through. *)
Lemma TF_items fs q v :
  (q, v) ∈ dict.items (TF_collect fs ∅).2
  <-> (TF_collect fs ∅).2 !! q = Some v.
Proof. apply elem_of_dict_items, TF_collect_keys, NoDup_nil_2. Qed.

Lemma TF_table_lookup fs q :
  Forall spec.clean fs ->
  q ∈ spec.all_questions fs ->
  (TF_collect fs ∅).2 !! q = Some (spec.recorded_answers q fs).
Proof.
  intros Hclean Hq. destruct (TF_collect_table fs ∅ Hclean) as [Hd Hl].
  assert (q ∈ dom (TF_collect fs ∅).2) as [v Hv]%dict_elem_of_dom.
  { rewrite Hd. set_solver. }
  rewrite Hv. f_equal. by eapply TF_table_entry.
Qed.

Lemma TrueOrFalse_build_unfold st :
  TrueOrFalse_build st
  = for_each (dict.items (TF_collect (facts (self st)) ∅).2) TF_question
      (with_facts (Fact_build <$> facts (self st)) st).
Proof.
  unfold TrueOrFalse_build, bind, get.
  rewrite <- (TF_collect_facts (facts (self st)) ∅).
  by destruct (TF_collect (facts (self st)) ∅).
Qed.

Lemma TF_question_many q v st :
  size v <> 1 ->
  TF_question (q, v) st = (Raise (RuntimeError "Question is invalid!"), st).
Proof. intros Hv. unfold TF_question. cbn. by rewrite decide_False. Qed.

Lemma TF_question_one q v st :
  size v = 1 ->
  exists sample a g',
    TF_question (q, v) st
    = (Ok tt, with_record {| r_kind := "True or False"; r_question := q;
                             r_choices := sample; r_answer := a |}
                {| self := self st; gen := g' |})
    /\ sample ≡ₚ ["True"; "False"] /\ v = {[a]}.
Proof.
  intros Hv. unfold TF_question. cbn [fst snd]. rewrite decide_True by done.
  destruct (sample_spec ["True"; "False"] 2 (gen st)) as (xs & g' & Hs & Hl & Hsub);
    [done|].
  apply size_1_elem_of in Hv as [a Ha]. apply leibniz_equiv in Ha.
  exists xs, a, g'. split; [|split; [|done]].
  - unfold bind, rand. rewrite Hs. rewrite Ha, elements_singleton. done.
  - apply submseteq_length_Permutation; [done|]. by rewrite Hl.
Qed.

Lemma occurrences_true_false a choices :
  choices ≡ₚ ["True"; "False"] -> a = "True" \/ a = "False" ->
  spec.occurrences a choices = 1.
Proof.
  intros Hp Ha. unfold spec.occurrences. rewrite Hp.
  by destruct Ha as [-> | ->].
Qed.

Lemma recorded_answers_elem a q fs :
  a ∈ spec.recorded_answers q fs ->
  exists f, f ∈ fs /\ q ∈ question_texts f /\ a ∈ answer_texts f.
Proof.
  unfold spec.recorded_answers, spec.all_answers.
  rewrite elem_of_union_list. intros (X & HX & Ha).
  apply list_elem_of_fmap in HX as (f & -> & Hf).
  apply list_elem_of_filter in Hf as [Hq Hf]. by exists f.
Qed.

(** C5. For a true/false category that the structural model constructed
    and whose build completes, the choices of every record are "True" and
    "False" in some order, exactly one of them is the stored correct
    answer, and that answer is the only value recorded for the question
    across the facts of the category. *)
Theorem true_or_false_records category c g st' :
  Section_get_category category = Ok c ->
  cclass c = TrueOrFalse ->
  build {| self := c; gen := g |} = (Ok tt, st') ->
  Forall (fun r =>
            r_choices r ≡ₚ ["True"; "False"]
            /\ spec.occurrences (r_answer r) (r_choices r) = 1
            /\ spec.recorded_answers (r_question r) (facts c)
               = {[ r_answer r ]})
    (q_and_a (self st')).
Proof.
  intros Hc Hcls. apply get_category_Ok in Hc as [Hnil Hvalid].
  rewrite Hcls in Hvalid. cbn in Hvalid.
  assert (Hclean : Forall spec.clean (facts c)).
  { eapply Forall_impl; [exact Hvalid|]. intros f (Hf & _). by apply fresh_clean. }
  unfold build, bind, get. cbn [self]. rewrite Hcls.
  rewrite TrueOrFalse_build_unfold. cbn [self].
  set (P := fun r : Record_ => _).
  apply (for_each_inv (fun _ st => Forall P (q_and_a (self st)))).
  2:{ cbn. rewrite Hnil. constructor. }
  intros _ [q v] st st1 Hx%TF_items HI Hbody.
  destruct (TF_table_entry _ _ _ Hclean Hx) as [Hq ->].
  destruct (decide (size (spec.recorded_answers q (facts c)) = 1)) as [H1|H1].
  2:{ by rewrite TF_question_many in Hbody. }
  destruct (TF_question_one q _ st H1) as (sample & a & g' & Hrun & Hperm & Hrec).
  rewrite Hrun in Hbody. injection Hbody as <-. cbn.
  apply Forall_app. split; [done|]. constructor; [|constructor].
  subst P. cbn. split; [done|]. split; [|done].
  apply occurrences_true_false; [done|].
  assert (Ha : a ∈ spec.recorded_answers q (facts c)) by (rewrite Hrec; set_solver).
  apply recorded_answers_elem in Ha as (f & Hf & _ & Ha).
  rewrite Forall_forall in Hvalid.
  destruct (Hvalid f Hf) as (_ & _ & Htf). by apply Htf.
Qed.

Lemma true_or_false_records_witness :
  exists c st',
    Section_get_category examples.sky = Ok c
    /\ build {| self := c; gen := examples.draws |} = (Ok tt, st')
    /\ q_and_a (self st') <> []
    /\ Forall (fun r =>
            r_choices r ≡ₚ ["True"; "False"]
            /\ spec.occurrences (r_answer r) (r_choices r) = 1
            /\ spec.recorded_answers (r_question r) (facts c)
               = {[ r_answer r ]})
         (q_and_a (self st')).
Proof.
  eexists _, _. split; [vm_compute; reflexivity|].
  split; [vm_compute; reflexivity|]. split; [done|].
  eapply (true_or_false_records examples.sky _ examples.draws);
    vm_compute; reflexivity.
Defined.

(** C6. For a true/false category that the structural model constructed,
    a question text for which the facts record more than one answer makes
    [build] raise [RuntimeError]; when that text is the only question of
    the category, the list of records is still empty when it raises. *)
Theorem ambiguous_true_or_false_fails category c g q :
  Section_get_category category = Ok c ->
  cclass c = TrueOrFalse ->
  q ∈ spec.all_questions (facts c) ->
  1 < size (spec.recorded_answers q (facts c)) ->
  (exists st', build {| self := c; gen := g |}
               = (Raise (RuntimeError "Question is invalid!"), st'))
  /\ (spec.all_questions (facts c) = {[ q ]} ->
      exists st', build {| self := c; gen := g |}
                  = (Raise (RuntimeError "Question is invalid!"), st')
                  /\ q_and_a (self st') = []).
Proof.
  intros Hc Hcls Hq Hsize. apply get_category_Ok in Hc as [Hnil Hvalid].
  assert (Hclean : Forall spec.clean (facts c)).
  { eapply Forall_impl; [exact Hvalid|]. intros f (Hf & _). by apply fresh_clean. }
  pose proof (TF_table_lookup _ _ Hclean Hq) as Hlook.
  unfold build, bind, get. cbn [self]. rewrite Hcls.
  rewrite TrueOrFalse_build_unfold. cbn [self]. split.
  - eapply (for_each_raises _ _ _ (q, spec.recorded_answers q (facts c))).
    + by apply TF_items.
    + intros st. apply TF_question_many. lia.
    + intros [q' v] st. destruct (decide (size v = 1)) as [H1|H1].
      * left. destruct (TF_question_one q' v st H1) as (? & ? & ? & -> & _).
        by eexists.
      * right. by apply TF_question_many.
  - intros Honly.
    assert (dict.items (TF_collect (facts c) ∅).2
            = [(q, spec.recorded_answers q (facts c))]) as ->.
    { apply TF_items in Hlook.
      pose proof (TF_collect_keys (facts c) ∅ (NoDup_nil_2 (A:=string))) as Hnd.
      assert (Hkeys : forall k, k ∈ dict.keys (TF_collect (facts c) ∅).2 ->
                                k = q).
      { intros k Hk.
        assert (k ∈ dom (TF_collect (facts c) ∅).2) as Hin
          by (by rewrite dict_dom_keys, elem_of_list_to_set).
        destruct (TF_collect_table (facts c) ∅ Hclean) as [Hd _].
        rewrite Hd, dict_dom_empty, Honly in Hin. set_solver. }
      unfold dict.keys in *.
      destruct (dict.items (TF_collect (facts c) ∅).2) as [|[k1 v1] l];
        [by apply elem_of_nil in Hlook|].
      destruct l as [|[k2 v2] l].
      - by apply list_elem_of_singleton in Hlook as ->.
      - exfalso. cbn in Hnd, Hkeys.
        apply NoDup_cons in Hnd as [Hk1 _]. apply Hk1.
        rewrite (Hkeys k1), (Hkeys k2); [by left|right; by left|by left]. }
    cbn. unfold bind.
    rewrite TF_question_many by lia. eexists. split; [done|]. done.
Qed.

Lemma ambiguous_true_or_false_fails_witness :
  exists c,
    Section_get_category examples.ambiguous = Ok c
    /\ exists st',
        build {| self := c; gen := examples.draws |}
        = (Raise (RuntimeError "Question is invalid!"), st')
        /\ q_and_a (self st') = [].
Proof.
  eexists. split; [vm_compute; reflexivity|].
  eapply (ambiguous_true_or_false_fails examples.ambiguous _
            examples.draws "Sky is blue").
  - vm_compute; reflexivity.
  - vm_compute; reflexivity.
  - vm_compute; set_solver.
  - vm_compute; lia.
  - vm_compute; reflexivity.
Defined.

End true_or_false_facts.

(** ** The matching and multiple-choice builder *)

Section mcm_facts.

Import quizcore.

Implicit Types (fs : list Fact) (q : string) (st : build_state)
  (kinds : dict (option string) group) (kd : option string).

Lemma group_eta (g : group) :
  {| g_question := g_question g; g_answer := g_answer g |} = g.
Proof. by destruct g. Qed.

Lemma fold_add_question (l : list (string * gset string)) kinds kd kd' :
  default empty_group
    (foldl (fun ks '(q, s) => add_question ks kd q s) kinds l !! kd')
  = if decide (kd = kd') then
      {| g_question :=
           foldl (fun d '(k, s) => set_update d k s)
             (g_question (default empty_group (kinds !! kd))) l;
         g_answer := g_answer (default empty_group (kinds !! kd)) |}
    else default empty_group (kinds !! kd').
Proof.
  revert kinds. induction l as [|[q s] l IH]; intros kinds; cbn [foldl].
  - case_decide; [subst; by rewrite group_eta|done].
  - rewrite IH. unfold add_question. rewrite !lookup_setdefault.
    case_decide as Hk; [|done]. by rewrite decide_True.
Qed.

Lemma fold_add_answer (l : list (string * gset string)) kinds kd kd' :
  default empty_group
    (foldl (fun ks '(a, s) => add_answer ks kd a s) kinds l !! kd')
  = if decide (kd = kd') then
      {| g_question := g_question (default empty_group (kinds !! kd));
         g_answer :=
           foldl (fun d '(k, s) => set_update d k s)
             (g_answer (default empty_group (kinds !! kd))) l |}
    else default empty_group (kinds !! kd').
Proof.
  revert kinds. induction l as [|[a s] l IH]; intros kinds; cbn [foldl].
  - case_decide; [subst; by rewrite group_eta|done].
  - rewrite IH. unfold add_answer. rewrite !lookup_setdefault.
    case_decide as Hk; [|done]. by rewrite decide_True.
Qed.

(** The group of a kind label after the two inner loops ran for a fact. *)
Lemma lookup_collect_fact kinds f kd :
  default empty_group (collect_fact kinds f !! kd)
  = if decide (kind f = kd) then
      {| g_question :=
           merge_sets (g_question (default empty_group (kinds !! kd)))
             (q_to_a f);
         g_answer :=
           merge_sets (g_answer (default empty_group (kinds !! kd)))
             (a_to_q f) |}
    else default empty_group (kinds !! kd).
Proof.
  unfold collect_fact. rewrite fold_add_answer.
  case_decide as Hk; [subst kd|].
  - rewrite fold_add_question, decide_True by done. done.
  - by rewrite fold_add_question, decide_False.
Qed.

Lemma group_cons kd f fs :
  spec.group kd (f :: fs)
  = if decide (kind f = kd) then f :: spec.group kd fs else spec.group kd fs.
Proof. unfold spec.group. by rewrite filter_cons. Qed.

Lemma MCM_collect_facts fs kinds :
  (MCM_collect fs kinds).1 = Fact_build <$> fs.
Proof.
  revert kinds. induction fs as [|f fs IH]; intros kinds; cbn; [done|].
  specialize (IH (collect_fact kinds (Fact_build f))).
  destruct (MCM_collect fs _) as [rest ks]. cbn in *. by rewrite IH.
Qed.

(** The table [kinds] after the first loop, for clean facts: the group
    of a label holds the questions and answers of the facts with that
    label, and for each question the answers recorded for it there. *)
Lemma MCM_collect_table fs kinds kd :
  Forall spec.clean fs ->
  let g := default empty_group (kinds !! kd) in
  let g' := default empty_group ((MCM_collect fs kinds).2 !! kd) in
  dom (g_question g')
  = dom (g_question g) ∪ spec.all_questions (spec.group kd fs)
  /\ dom (g_answer g')
     = dom (g_answer g) ∪ spec.all_answers (spec.group kd fs)
  /\ forall q, g_question g' !!! q
       = g_question g !!! q ∪ spec.recorded_answers q (spec.group kd fs).
Proof.
  intros Hclean. revert kinds.
  induction Hclean as [|f fs [Hq Ha] _ IH]; intros kinds; cbn [MCM_collect].
  - cbv zeta. unfold spec.all_questions, spec.all_answers,
      spec.recorded_answers, spec.all_answers. cbn.
    rewrite !(right_id_L ∅ (∪)). split; [done|]. split; [done|].
    intros q. by rewrite (right_id_L ∅ (∪)).
  - specialize (IH (collect_fact kinds (Fact_build f))).
    destruct (MCM_collect fs _) as [rest ks]. cbn [fst snd] in *.
    cbv zeta in *. destruct IH as (IHq & IHa & IHl).
    rewrite lookup_collect_fact in IHq, IHa, IHl.
    change (kind (Fact_build f)) with (kind f) in *.
    rewrite group_cons. case_decide as Hk.
    + cbn [g_question g_answer] in *. split; [|split].
      * rewrite IHq, dom_merge_sets, Hq, dom_gset_to_gmap.
        unfold spec.all_questions. cbn. by rewrite (assoc_L (∪)).
      * rewrite IHa, dom_merge_sets, Ha, dom_gset_to_gmap.
        unfold spec.all_answers. cbn. by rewrite (assoc_L (∪)).
      * intros q. rewrite IHl, lookup_total_merge_sets, Hq.
        rewrite lookup_total_built, recorded_answers_cons.
        by rewrite (assoc_L (∪)).
    + done.
Qed.

Lemma collect_fact_keys kinds f :
  NoDup (dict.keys kinds) -> NoDup (dict.keys (collect_fact kinds f)).
Proof.
  intros Hnd. unfold collect_fact.
  assert (Hq : NoDup (dict.keys
    (foldl (fun ks '(q, s) => add_question ks (kind f) q s) kinds
       (map_to_list (q_to_a f))))).
  { revert kinds Hnd. generalize (map_to_list (q_to_a f)).
    intros l. induction l as [|[q s] l IH]; intros kinds Hnd; cbn; [done|].
    apply IH. by apply NoDup_keys_setdefault. }
  revert Hq. generalize (foldl (fun ks '(q, s) => add_question ks (kind f) q s)
                           kinds (map_to_list (q_to_a f))).
  generalize (map_to_list (a_to_q f)).
  intros l. induction l as [|[a s] l IH]; intros ks Hks; cbn; [done|].
  apply IH. by apply NoDup_keys_setdefault.
Qed.

Lemma MCM_collect_keys fs kinds :
  NoDup (dict.keys kinds) -> NoDup (dict.keys (MCM_collect fs kinds).2).
Proof.
  revert kinds. induction fs as [|f fs IH]; intros kinds Hnd; cbn; [done|].
  specialize (IH (collect_fact kinds (Fact_build f))
                (collect_fact_keys _ _ Hnd)).
  by destruct (MCM_collect fs _) as [rest ks].
Qed.

(** The entries that the second loop goes through. *)
Lemma MCM_items fs kd (grp : group) :
  (kd, grp) ∈ dict.items (MCM_collect fs ∅).2
  <-> (MCM_collect fs ∅).2 !! kd = Some grp.
Proof.
  apply elem_of_dict_items, MCM_collect_keys, (NoDup_nil_2 (A:=option string)).
Qed.

Lemma MCM_build_unfold st :
  MCM_build st
  = for_each (dict.items (MCM_collect (facts (self st)) ∅).2)
      (fun kg => MCM_kind (cclass (self st)) kg.2)
      (with_facts (Fact_build <$> facts (self st)) st).
Proof.
  unfold MCM_build, bind, get.
  rewrite <- (MCM_collect_facts (facts (self st)) ∅).
  by destruct (MCM_collect (facts (self st)) ∅).
Qed.

(** One turn of the inner loop of [_MCM.build] when the question has a
    correct answer: it completes and appends one record. *)
Lemma MCM_question_runs c (g : group) (answers : gset string) q st :
  g_question g !!! q <> ∅ ->
  exists sample a choices g',
    MCM_question c g answers q st
    = (Ok tt, with_record {| r_kind := NAME c; r_question := q;
                             r_choices := choices; r_answer := a |}
                {| self := self st; gen := g' |})
    /\ a ∈ g_question g !!! q
    /\ choices ≡ₚ sample ++ [a]
    /\ length sample = size (answers ∖ g_question g !!! q) `min` CHOICES c
    /\ forall x, x ∈ sample -> x ∈ answers ∖ g_question g !!! q.
Proof.
  intros Hne. unfold MCM_question.
  set (correct := g_question g !!! q) in *.
  set (wrong := answers ∖ correct).
  destruct (sample_spec (elements wrong) (size wrong `min` CHOICES c) (gen st))
    as (sample & g1 & Hs & Hl & Hsub); [apply Nat.le_min_l|].
  destruct (choice_spec (elements correct) g1) as (a & g2 & Hc & Ha).
  { intros Hnil. by apply elements_empty_inv, leibniz_equiv in Hnil. }
  pose proof (shuffle_spec (sample ++ [a]) g2) as Hperm.
  destruct (random.shuffle (sample ++ [a]) g2) as [choices g3] eqn:Hsh.
  exists sample, a, choices, g3. split; [|split; [|split; [|split]]].
  - unfold bind, rand, rand_total. cbn [self gen]. rewrite Hs.
    cbn [self gen]. rewrite Hc. cbn [self gen]. by rewrite Hsh.
  - by apply elem_of_elements.
  - done.
  - done.
  - intros x Hx. apply elem_of_elements. by eapply elem_of_submseteq.
Qed.

Lemma filter_absent (a : string) (l : list string) :
  a ∉ l -> filter (fun x => x = a) l = [].
Proof.
  intros Ha. induction l as [|y l IH]; [done|].
  rewrite filter_cons. apply not_elem_of_cons in Ha as [Hy Hl].
  rewrite decide_False by done. by apply IH.
Qed.

(** The shape of the choices: a sample of wrong answers, the right
    answer once, in some order. *)
Lemma choices_shape (choices sample : list string) a (W : gset string) n :
  choices ≡ₚ sample ++ [a] ->
  (forall x, x ∈ sample -> x ∈ W) -> a ∉ W -> length sample = n ->
  length choices = n + 1
  /\ spec.occurrences a choices = 1
  /\ forall x, x ∈ choices -> x <> a -> x ∈ W.
Proof.
  intros Hp Hs Ha Hn. split; [|split].
  - rewrite Hp, length_app. cbn. lia.
  - unfold spec.occurrences. rewrite Hp, filter_app, length_app.
    rewrite filter_absent by (intros Hin; by apply Ha, Hs).
    rewrite filter_cons, decide_True by done. done.
  - intros x Hx Hxa. rewrite Hp in Hx.
    apply elem_of_app in Hx as [Hx|Hx]; [by apply Hs|].
    by apply list_elem_of_singleton in Hx.
Qed.

Lemma all_questions_elem q fs :
  q ∈ spec.all_questions fs -> exists f, f ∈ fs /\ q ∈ question_texts f.
Proof.
  unfold spec.all_questions. rewrite elem_of_union_list.
  intros (X & HX & Hq). apply list_elem_of_fmap in HX as (f & -> & Hf).
  by exists f.
Qed.

Lemma recorded_answers_intro a q f fs :
  f ∈ fs -> q ∈ question_texts f -> a ∈ answer_texts f ->
  a ∈ spec.recorded_answers q fs.
Proof.
  intros Hf Hq Ha. unfold spec.recorded_answers, spec.all_answers.
  rewrite elem_of_union_list. exists (answer_texts f). split; [|done].
  apply list_elem_of_fmap. exists f. split; [done|].
  by apply list_elem_of_filter.
Qed.

(** The records of a category that is not a true/false one, with the cap
    of its class. *)
Lemma MCM_build_records category c g :
  Section_get_category category = Ok c ->
  cclass c <> TrueOrFalse ->
  exists st',
    build {| self := c; gen := g |} = (Ok tt, st')
    /\ Forall (fun r =>
         exists kd,
           r_question r ∈ spec.all_questions (spec.group kd (facts c))
           /\ r_answer r
              ∈ spec.recorded_answers (r_question r) (spec.group kd (facts c))
           /\ length (r_choices r)
              = size (spec.wrong_pool kd (r_question r) (facts c))
                `min` CHOICES (cclass c) + 1
           /\ spec.occurrences (r_answer r) (r_choices r) = 1
           /\ forall x, x ∈ r_choices r -> x <> r_answer r ->
                x ∈ spec.wrong_pool kd (r_question r) (facts c))
       (q_and_a (self st')).
Proof.
  intros Hc Hcls. apply get_category_Ok in Hc as [Hnil Hvalid].
  assert (Hclean : Forall spec.clean (facts c)).
  { eapply Forall_impl; [exact Hvalid|]. intros f (Hf & _). by apply fresh_clean. }
  set (P := fun r : Record_ => _).
  assert (build {| self := c; gen := g |} = MCM_build {| self := c; gen := g |})
    as ->.
  { unfold build, bind, get. cbn [self]. by destruct (cclass c). }
  rewrite MCM_build_unfold. cbn [self].
  set (I := fun st : build_state =>
              cclass (self st) = cclass c /\ Forall P (q_and_a (self st))).
  cut (exists st', for_each (dict.items (MCM_collect (facts c) ∅).2)
         (fun kg => MCM_kind (cclass c) kg.2)
         (with_facts (Fact_build <$> facts c) {| self := c; gen := g |})
         = (Ok tt, st') /\ I st').
  { intros (st' & Hrun & _ & HP). by exists st'. }
  apply for_each_total.
  2:{ split; [done|]. cbn. rewrite Hnil. constructor. }
  intros [kd grp] st Hkg%MCM_items HI. cbn [snd].
  destruct (MCM_collect_table (facts c) ∅ kd Hclean) as (Hdq & Hda & Hl).
  rewrite Hkg, dict_lookup_empty in Hdq, Hda, Hl.
  cbn [default from_option id empty_group g_question g_answer]
    in Hdq, Hda, Hl.
  rewrite dict_dom_empty, (left_id_L ∅ (∪)) in Hdq, Hda.
  unfold MCM_kind. apply for_each_total; [|done].
  intros q st1 Hq%elem_of_elements [Hcl HP]. rewrite Hdq in Hq.
  assert (Hcorrect : g_question grp !!! q
                     = spec.recorded_answers q (spec.group kd (facts c))).
  { rewrite Hl, dict_lookup_total_empty.
    change (inhabitant : gset string) with (∅ : gset string).
    by rewrite (left_id_L ∅ (∪)). }
  destruct (all_questions_elem _ _ Hq) as (f & Hf & Hqf).
  assert (Hfc : f ∈ facts c).
  { unfold spec.group in Hf. by apply list_elem_of_filter in Hf as [_ ?]. }
  rewrite Forall_forall in Hvalid.
  destruct (valid_fact_answers _ _ (Hvalid f Hfc)) as [a0 Ha0].
  destruct (MCM_question_runs (cclass c) grp (dom (g_answer grp)) q st1)
    as (sample & a & choices & g' & Hrun & Ha & Hperm & Hlen & Hsample).
  { rewrite Hcorrect. intros Hempty.
    pose proof (recorded_answers_intro _ _ _ _ Hf Hqf Ha0) as Hin.
    rewrite Hempty in Hin. set_solver. }
  rewrite Hrun. eexists. split; [done|]. split; [done|]. cbn.
  apply Forall_app. split; [done|]. constructor; [|constructor].
  rewrite Hcorrect, Hda in *.
  destruct (choices_shape choices sample a
              (spec.wrong_pool kd q (facts c))
              (size (spec.wrong_pool kd q (facts c)) `min` CHOICES (cclass c))
              Hperm Hsample) as (H1 & H2 & H3).
  { unfold spec.wrong_pool. set_solver. }
  { exact Hlen. }
  subst P. cbn. exists kd. by repeat split.
Qed.

(** C1. For a matching category, with C = 25, or a multiple-choice
    category, with C = 3, that the structural model constructed, [build]
    completes, and every record it appends belongs to a kind group [kd]
    in which its question occurs: the stored answer is one of the answers
    recorded for the question in that group and occurs exactly once among
    the choices; the number of choices is [min (size pool) C + 1], where
    the pool holds the answers of the group that are not correct for the
    question; every other choice comes from that pool, hence from facts
    labelled [kd]. *)
Theorem matching_records category c g C :
  Section_get_category category = Ok c ->
  cclass c = Matching /\ C = 25 \/ cclass c = MultipleChoice /\ C = 3 ->
  exists st',
    build {| self := c; gen := g |} = (Ok tt, st')
    /\ Forall (fun r =>
         exists kd,
           r_question r ∈ spec.all_questions (spec.group kd (facts c))
           /\ r_answer r
              ∈ spec.recorded_answers (r_question r) (spec.group kd (facts c))
           /\ length (r_choices r)
              = size (spec.wrong_pool kd (r_question r) (facts c)) `min` C + 1
           /\ spec.occurrences (r_answer r) (r_choices r) = 1
           /\ forall x, x ∈ r_choices r -> x <> r_answer r ->
                x ∈ spec.wrong_pool kd (r_question r) (facts c))
       (q_and_a (self st')).
Proof.
  intros Hc Hcls.
  assert (cclass c <> TrueOrFalse /\ CHOICES (cclass c) = C) as [Hne <-].
  { destruct Hcls as [[-> ->]|[-> ->]]; by split. }
  by apply (MCM_build_records category).
Qed.

Lemma matching_records_witness :
  (exists st',
     Section_get_category examples.capitals
     = Ok (examples.built examples.capitals)
     /\ build {| self := examples.built examples.capitals;
                 gen := examples.draws |} = (Ok tt, st')
     /\ (fun r => length (r_choices r)) <$> q_and_a (self st')
        = replicate 27 26
     /\ Forall (fun r =>
          exists kd,
            r_question r
            ∈ spec.all_questions
                (spec.group kd (facts (examples.built examples.capitals)))
            /\ length (r_choices r)
               = size (spec.wrong_pool kd (r_question r)
                         (facts (examples.built examples.capitals)))
                 `min` 25 + 1
            /\ spec.occurrences (r_answer r) (r_choices r) = 1)
        (q_and_a (self st')))
  /\ (exists st',
        Section_get_category examples.five_colors
        = Ok (examples.built examples.five_colors)
        /\ build {| self := examples.built examples.five_colors;
                    gen := examples.draws |} = (Ok tt, st')
        /\ (fun r => length (r_choices r)) <$> q_and_a (self st')
           = replicate 5 4
        /\ Forall (fun r =>
             exists kd,
               r_question r
               ∈ spec.all_questions
                   (spec.group kd
                      (facts (examples.built examples.five_colors)))
               /\ length (r_choices r)
                  = size (spec.wrong_pool kd (r_question r)
                            (facts (examples.built examples.five_colors)))
                    `min` 3 + 1
               /\ spec.occurrences (r_answer r) (r_choices r) = 1)
           (q_and_a (self st'))).
Proof.
  split.
  - destruct (matching_records examples.capitals
                (examples.built examples.capitals) examples.draws 25)
      as (st' & Hrun & HP);
      [vm_compute; reflexivity|left; split; vm_compute; reflexivity|].
    exists st'. split; [vm_compute; reflexivity|]. split; [exact Hrun|].
    split.
    + assert (st' = (build {| self := examples.built examples.capitals;
                              gen := examples.draws |}).2) as ->
        by (rewrite Hrun; reflexivity).
      vm_compute; reflexivity.
    + eapply Forall_impl; [exact HP|].
      intros r (kd & Hq & _ & Hl & Ho & _). exists kd.
      split; [exact Hq|]. split; [exact Hl|exact Ho].
  - destruct (matching_records examples.five_colors
                (examples.built examples.five_colors) examples.draws 3)
      as (st' & Hrun & HP);
      [vm_compute; reflexivity|right; split; vm_compute; reflexivity|].
    exists st'. split; [vm_compute; reflexivity|]. split; [exact Hrun|].
    split.
    + assert (st' = (build {| self := examples.built examples.five_colors;
                              gen := examples.draws |}).2) as ->
        by (rewrite Hrun; reflexivity).
      vm_compute; reflexivity.
    + eapply Forall_impl; [exact HP|].
      intros r (kd & Hq & _ & Hl & Ho & _). exists kd.
      split; [exact Hq|]. split; [exact Hl|exact Ho].
Defined.

End mcm_facts.

(** ** Building twice *)

Section rebuild_facts.

Import quizcore.

Implicit Types (fs : list Fact) (st : build_state).

Lemma TF_collect_rebuilt fs t :
  (TF_collect (Fact_build <$> fs) t).2 = (TF_collect fs t).2.
Proof.
  revert t. induction fs as [|f fs IH]; intros t; [done|].
  rewrite fmap_cons. cbn [TF_collect]. rewrite Fact_build_idem.
  specialize (IH (merge_sets t (q_to_a (Fact_build f)))).
  destruct (TF_collect (Fact_build <$> fs) _), (TF_collect fs _).
  exact IH.
Qed.

Lemma MCM_collect_rebuilt fs kinds :
  (MCM_collect (Fact_build <$> fs) kinds).2 = (MCM_collect fs kinds).2.
Proof.
  revert kinds. induction fs as [|f fs IH]; intros kinds; [done|].
  rewrite fmap_cons. cbn [MCM_collect]. rewrite Fact_build_idem.
  specialize (IH (collect_fact kinds (Fact_build f))).
  destruct (MCM_collect (Fact_build <$> fs) _), (MCM_collect fs _).
  exact IH.
Qed.

(** The questions of a build do not change once the facts were built. *)
Lemma questions_asked_rebuilt c c' :
  cclass c' = cclass c -> facts c' = Fact_build <$> facts c ->
  spec.questions_asked c' = spec.questions_asked c.
Proof.
  intros Hcl Hfs. unfold spec.questions_asked. rewrite Hcl, Hfs.
  by rewrite TF_collect_rebuilt, MCM_collect_rebuilt.
Qed.

Lemma MCM_question_appends c (g : group) (answers : gset string) q st st' :
  MCM_question c g answers q st = (Ok tt, st') ->
  cclass (self st') = cclass (self st) /\ facts (self st') = facts (self st)
  /\ exists r, q_and_a (self st') = q_and_a (self st) ++ [r]
              /\ r_question r = q.
Proof.
  unfold MCM_question, bind, rand, rand_total, append_record, modify.
  destruct (random.sample _ _ _) as [[sample|e] g1]; [|done].
  cbn [self gen].
  destruct (random.choice _ _) as [[a|e] g2]; [|done]. cbn [self gen].
  destruct (random.shuffle _ _) as [choices g3]. intros [= <-].
  cbn. repeat split. by eexists.
Qed.

Lemma TF_question_appends q v st st' :
  TF_question (q, v) st = (Ok tt, st') ->
  cclass (self st') = cclass (self st) /\ facts (self st') = facts (self st)
  /\ exists r, q_and_a (self st') = q_and_a (self st) ++ [r]
              /\ r_question r = q.
Proof.
  destruct (decide (size v = 1)) as [H1|H1].
  - destruct (TF_question_one q v st H1) as (sample & a & g' & -> & _).
    intros [= <-]. cbn. repeat split. by eexists.
  - by rewrite TF_question_many.
Qed.

(** A build that completes leaves the class, builds the facts, and
    appends one record per question it goes through, in order. *)
Lemma build_appends st st1 :
  build st = (Ok tt, st1) ->
  cclass (self st1) = cclass (self st)
  /\ facts (self st1) = Fact_build <$> facts (self st)
  /\ exists batch,
       q_and_a (self st1) = q_and_a (self st) ++ batch
       /\ r_question <$> batch = spec.questions_asked (self st).
Proof.
  set (I := fun (asked : list string) (st' : build_state) =>
    cclass (self st') = cclass (self st)
    /\ facts (self st') = Fact_build <$> facts (self st)
    /\ exists batch, q_and_a (self st') = q_and_a (self st) ++ batch
                    /\ r_question <$> batch = asked).
  assert (HI0 : I [] (with_facts (Fact_build <$> facts (self st)) st)).
  { split; [done|]. split; [done|]. exists []. by rewrite app_nil_r. }
  assert (Hstep : forall asked q s1 s2 r,
    I asked s1 -> cclass (self s2) = cclass (self s1) ->
    facts (self s2) = facts (self s1) ->
    q_and_a (self s2) = q_and_a (self s1) ++ [r] -> r_question r = q ->
    I (asked ++ [q]) s2).
  { intros asked q s1 s2 r (Hc1 & Hf1 & batch & Hb & Hq) Hc2 Hf2 Hr Hrq.
    split; [congruence|]. split; [congruence|].
    exists (batch ++ [r]). split.
    - by rewrite Hr, Hb, app_assoc.
    - rewrite fmap_app, Hq. cbn. by rewrite Hrq. }
  unfold build, bind, get, spec.questions_asked.
  destruct (cclass (self st)) eqn:Hcl.
  1,2: rewrite MCM_build_unfold, Hcl; intros Hrun;
    apply (for_each_inv
      (fun done st' =>
         I (mjoin ((fun kg : option string * group =>
                      elements (dom (g_question kg.2))) <$> done)) st'))
      in Hrun; [exact Hrun| |exact HI0];
    intros done [kd grp] s s' _ HIs Hkind; cbn [snd] in Hkind;
    rewrite fmap_app, join_app; cbn; rewrite app_nil_r;
    unfold MCM_kind in Hkind;
    apply (for_each_inv
      (fun done' st' =>
         I (mjoin ((fun kg : option string * group =>
                      elements (dom (g_question kg.2))) <$> done)
            ++ done') st'))
      in Hkind; [exact Hkind| |by rewrite app_nil_r];
    intros done' q s1 s2 _ HI1 Hbody;
    apply MCM_question_appends in Hbody as (Hc2 & Hf2 & r & Hr & Hrq);
    rewrite app_assoc; by eapply Hstep.
  rewrite TrueOrFalse_build_unfold. intros Hrun.
  apply (for_each_inv (fun done st' => I done.*1 st')) in Hrun;
    [exact Hrun| |exact HI0].
  intros done [q v] s1 s2 _ HI1 Hbody.
  apply TF_question_appends in Hbody as (Hc2 & Hf2 & r & Hr & Hrq).
  rewrite fmap_app. cbn. by eapply Hstep.
Qed.

Lemma records_for_fmap q (l : list Record_) :
  spec.records_for q l = length (filter (fun x => x = q) (r_question <$> l)).
Proof.
  unfold spec.records_for. induction l as [|r l IH]; [done|].
  rewrite fmap_cons, !filter_cons. case_decide; cbn; by rewrite IH.
Qed.

Lemma records_for_app q (l1 l2 : list Record_) :
  spec.records_for q (l1 ++ l2)
  = spec.records_for q l1 + spec.records_for q l2.
Proof. unfold spec.records_for. by rewrite filter_app, length_app. Qed.

(** A text occurs once in a list without repetition that holds it. *)
Lemma count_NoDup (q : string) (l : list string) :
  NoDup l ->
  length (filter (fun x => x = q) l) = if decide (q ∈ l) then 1 else 0.
Proof.
  induction 1 as [|x l Hx Hnd IH]; [done|].
  rewrite filter_cons. destruct (decide (x = q)) as [->|Hne].
  - cbn. rewrite filter_absent by done.
    rewrite decide_True; [done|by left].
  - rewrite IH. case_decide as Hq.
    + rewrite decide_True; [done|by right].
    + rewrite decide_False; [done|]. rewrite not_elem_of_cons. done.
Qed.

(** The occurrences of [q] in the questions of the kinds: one for each
    kind whose group asks it. *)
Lemma count_join_elements (q : string)
    (l : list (option string * group)) :
  length (filter (fun x => x = q)
            (mjoin ((fun kg : option string * group =>
                       elements (dom (g_question kg.2))) <$> l)))
  = length (filter (fun kg : option string * group =>
                      q ∈ dom (g_question kg.2)) l).
Proof.
  induction l as [|[kd grp] l IH]; [done|].
  rewrite fmap_cons. change (mjoin (?x :: ?l)) with (x ++ mjoin l).
  rewrite filter_app, length_app, IH, filter_cons.
  cbn [snd]. rewrite count_NoDup by apply NoDup_elements.
  case_decide as Hq; rewrite elem_of_elements in Hq.
  - by rewrite decide_True.
  - by rewrite decide_False.
Qed.

(** In the table of the first loop, the group of a label asks [q] exactly
    when a fact with that label does. *)
Lemma MCM_group_asks fs kd q :
  Forall spec.clean fs ->
  q ∈ dom (g_question (default empty_group ((MCM_collect fs ∅).2 !! kd)))
  <-> kd ∈ spec.labels_asking q fs.
Proof.
  intros Hclean.
  destruct (MCM_collect_table fs ∅ kd Hclean) as (-> & _ & _).
  rewrite dict_lookup_empty. cbn [default from_option id empty_group g_question].
  rewrite dict_dom_empty, (left_id_L ∅ (∪)).
  unfold spec.labels_asking, spec.all_questions, spec.group.
  rewrite elem_of_union_list, elem_of_list_to_set, list_elem_of_fmap. split.
  - intros (X & (f & -> & [Hk Hf]%list_elem_of_filter)%list_elem_of_fmap & Hq).
    exists f. split; [done|]. by apply list_elem_of_filter.
  - intros (f & -> & [Hq Hf]%list_elem_of_filter).
    exists (question_texts f). split; [|done].
    apply list_elem_of_fmap. exists f. split; [done|].
    by apply list_elem_of_filter.
Qed.

(** The questions that a build goes through hold each question text as
    often as [spec.records_per_build] says. *)
Lemma questions_asked_count c q :
  Forall spec.clean (facts c) ->
  length (filter (fun x => x = q) (spec.questions_asked c))
  = spec.records_per_build c q.
Proof.
  intros Hclean. unfold spec.questions_asked, spec.records_per_build.
  assert (HTF : length (filter (fun x => x = q)
                          (dict.keys (TF_collect (facts c) ∅).2))
                = if decide (q ∈ spec.all_questions (facts c))
                  then 1 else 0).
  { rewrite count_NoDup
      by apply TF_collect_keys, (NoDup_nil_2 (A:=string)).
    destruct (TF_collect_table (facts c) ∅ Hclean) as [Hd _].
    rewrite dict_dom_empty, (left_id_L ∅ (∪)), dict_dom_keys in Hd.
    rewrite <- Hd. by apply decide_ext; rewrite elem_of_list_to_set. }
  assert (HMCM : length (filter (fun x => x = q)
                   (mjoin ((fun kg : option string * group =>
                              elements (dom (g_question kg.2)))
                           <$> dict.items (MCM_collect (facts c) ∅).2)))
                 = size (spec.labels_asking q (facts c))).
  { rewrite count_join_elements.
    pose proof (MCM_collect_keys (facts c) ∅
                  (NoDup_nil_2 (A:=option string))) as Hnd.
    set (asks := fun kg : option string * group =>
                   q ∈ dom (g_question kg.2)).
    assert (Hkeys : NoDup (filter asks
                             (dict.items (MCM_collect (facts c) ∅).2)).*1).
    { eapply sublist_NoDup; [exact Hnd|].
      apply fmap_sublist, sublist_filter. }
    rewrite <- (length_fmap fst),
      <- (size_list_to_set (C:=gset (option string)) _ Hkeys).
    f_equal. apply set_eq. intros kd.
    rewrite <- (MCM_group_asks _ _ _ Hclean), elem_of_list_to_set,
      list_elem_of_fmap.
    split.
    - intros ([kd' grp] & -> & [Hq Hin]%list_elem_of_filter).
      apply MCM_items in Hin. cbn [fst]. by rewrite Hin.
    - destruct ((MCM_collect (facts c) ∅).2 !! kd) as [grp|] eqn:Hk;
        cbn [default from_option id empty_group g_question].
      + intros Hq. exists (kd, grp). split; [done|].
        apply list_elem_of_filter. split; [done|]. by apply MCM_items.
      + rewrite dict_dom_empty. by intros ?%elem_of_empty. }
  by destruct (cclass c).
Qed.

(** What a loop that completes tells of each of its turns. *)
Lemma for_each_turns {S A} (body : A -> M S unit) (l : list A) s s' x :
  for_each l body s = (Ok tt, s') -> x ∈ l ->
  exists s1 s2, body x s1 = (Ok tt, s2).
Proof.
  revert s. induction l as [|y l IH]; intros s; cbn.
  - by intros _ ?%elem_of_nil.
  - unfold bind. destruct (body y s) as [[[]|e] s1] eqn:Hy; [|done].
    intros Hrun [->|Hx]%elem_of_cons; [by eauto|by eapply IH].
Qed.

(** A build on the facts of a constructed category, built or not,
    completes for a matching or multiple-choice category, and for a
    true/false category that records one answer for each question. *)
Lemma build_total c st :
  spec.valid_category c ->
  cclass (self st) = cclass c ->
  facts (self st) = facts c \/ facts (self st) = Fact_build <$> facts c ->
  (cclass c = TrueOrFalse ->
   forall q, q ∈ spec.all_questions (facts c) ->
             size (spec.recorded_answers q (facts c)) = 1) ->
  exists st', build st = (Ok tt, st').
Proof.
  intros [_ Hvalid] Hcl Hfs Hone.
  assert (Hclean : Forall spec.clean (facts c)).
  { eapply Forall_impl; [exact Hvalid|]. intros f (Hf & _).
    by apply fresh_clean. }
  assert (HTF : (TF_collect (facts (self st)) ∅).2
                = (TF_collect (facts c) ∅).2).
  { destruct Hfs as [-> | ->]; [done|apply TF_collect_rebuilt]. }
  assert (HMCM : (MCM_collect (facts (self st)) ∅).2
                 = (MCM_collect (facts c) ∅).2).
  { destruct Hfs as [-> | ->]; [done|apply MCM_collect_rebuilt]. }
  unfold build, bind, get. rewrite Hcl.
  assert (exists st', MCM_build st = (Ok tt, st')) as HM.
  { rewrite MCM_build_unfold, HMCM.
    cut (exists st', for_each (dict.items (MCM_collect (facts c) ∅).2)
           (fun kg => MCM_kind (cclass (self st)) kg.2)
           (with_facts (Fact_build <$> facts (self st)) st)
           = (Ok tt, st') /\ True).
    { intros (st' & Hrun & _). by exists st'. }
    apply (for_each_total (fun _ => True)); [|done].
    intros [kd grp] s1 Hkg%MCM_items _. cbn [snd]. unfold MCM_kind.
    apply (for_each_total (fun _ => True)); [|done].
    intros q s2 Hq%elem_of_elements _.
    destruct (MCM_collect_table (facts c) ∅ kd Hclean) as (Hdq & _ & Hl).
    rewrite Hkg, dict_lookup_empty in Hdq, Hl.
    cbn [default from_option id empty_group g_question] in Hdq, Hl.
    rewrite dict_dom_empty, (left_id_L ∅ (∪)) in Hdq. rewrite Hdq in Hq.
    destruct (all_questions_elem _ _ Hq) as (f & Hf & Hqf).
    assert (Hfc : f ∈ facts c).
    { unfold spec.group in Hf. by apply list_elem_of_filter in Hf as [_ ?]. }
    rewrite Forall_forall in Hvalid.
    destruct (valid_fact_answers _ _ (Hvalid f Hfc)) as [a0 Ha0].
    destruct (MCM_question_runs (cclass (self st)) grp
                (dom (g_answer grp)) q s2)
      as (sample & a & choices & g' & Hrun & _).
    { rewrite Hl, dict_lookup_total_empty.
      change (inhabitant : gset string) with (∅ : gset string).
      rewrite (left_id_L ∅ (∪)). intros Hempty.
      pose proof (recorded_answers_intro _ _ _ _ Hf Hqf Ha0) as Hin.
      rewrite Hempty in Hin. set_solver. }
    rewrite Hrun. by eexists. }
  destruct (cclass c) eqn:Hc; [exact HM|exact HM|].
  rewrite TrueOrFalse_build_unfold, HTF.
  cut (exists st', for_each (dict.items (TF_collect (facts c) ∅).2)
         TF_question (with_facts (Fact_build <$> facts (self st)) st)
         = (Ok tt, st') /\ True).
  { intros (st' & Hrun & _). by exists st'. }
  apply (for_each_total (fun _ => True)); [|done].
  intros [q v] s1 Hx%TF_items _.
  destruct (TF_table_entry _ _ _ Hclean Hx) as [Hq ->].
  destruct (TF_question_one q _ s1 (Hone eq_refl q Hq))
    as (sample & a & g' & -> & _).
  by eexists.
Qed.

(** A true/false build that completes found one answer for each
    question. *)
Lemma TrueOrFalse_build_one c g st1 q :
  Forall spec.clean (facts c) ->
  cclass c = TrueOrFalse ->
  build {| self := c; gen := g |} = (Ok tt, st1) ->
  q ∈ spec.all_questions (facts c) ->
  size (spec.recorded_answers q (facts c)) = 1.
Proof.
  intros Hclean Hcls Hrun Hq. revert Hrun.
  unfold build, bind, get. cbn [self]. rewrite Hcls.
  rewrite TrueOrFalse_build_unfold. cbn [self]. intros Hrun.
  destruct (for_each_turns _ _ _ _ (q, spec.recorded_answers q (facts c))
              Hrun) as (s1 & s2 & Hturn).
  { by apply TF_items, TF_table_lookup. }
  destruct (decide (size (spec.recorded_answers q (facts c)) = 1)); [done|].
  by rewrite TF_question_many in Hturn.
Qed.

(** C9. For a category that the structural model constructed and whose
    [build] completed, a second [build] completes too and does not
    replace the list of records: it appends a second batch after the
    records of the first.  Each of the two batches holds, for every
    question text, one record when the category is a true/false one that
    asks it, and one record for each kind label under which the facts ask
    it otherwise; so the list ends with twice the records of one build:
    two for each question that is asked under one label, more for a
    question asked under several. *)
Theorem second_build_appends category c g st1 :
  Section_get_category category = Ok c ->
  build {| self := c; gen := g |} = (Ok tt, st1) ->
  exists st2 batch,
    build st1 = (Ok tt, st2)
    /\ q_and_a (self st2) = q_and_a (self st1) ++ batch
    /\ forall q,
         spec.records_for q (q_and_a (self st1)) = spec.records_per_build c q
         /\ spec.records_for q batch = spec.records_per_build c q
         /\ spec.records_for q (q_and_a (self st2))
            = 2 * spec.records_per_build c q.
Proof.
  intros Hc H1. apply get_category_Ok in Hc as Hvalid.
  destruct Hvalid as [Hnil Hvalid].
  assert (Hclean : Forall spec.clean (facts c)).
  { eapply Forall_impl; [exact Hvalid|]. intros f (Hf & _).
    by apply fresh_clean. }
  pose proof H1 as (Hc1 & Hf1 & batch1 & Hb1 & Hq1)%build_appends.
  cbn [self] in Hc1, Hf1, Hb1, Hq1. rewrite Hnil in Hb1. cbn in Hb1.
  destruct (build_total c st1) as [st2 H2]; [done|done|by right| |].
  { intros Hcls q Hq. by eapply TrueOrFalse_build_one. }
  pose proof H2 as (Hc2 & Hf2 & batch2 & Hb2 & Hq2)%build_appends.
  rewrite (questions_asked_rebuilt c (self st1) Hc1 Hf1) in Hq2.
  exists st2, batch2. split; [done|]. split; [done|].
  intros q.
  assert (Hn1 : spec.records_for q (q_and_a (self st1))
                = spec.records_per_build c q).
  { by rewrite Hb1, records_for_fmap, Hq1, questions_asked_count. }
  assert (Hn2 : spec.records_for q batch2 = spec.records_per_build c q).
  { by rewrite records_for_fmap, Hq2, questions_asked_count. }
  split; [done|]. split; [done|].
  rewrite Hb2, records_for_app. lia.
Qed.

Lemma second_build_appends_witness :
  (exists st1 st2 batch,
     build {| self := examples.built examples.two_labels;
              gen := examples.draws |} = (Ok tt, st1)
     /\ build st1 = (Ok tt, st2)
     /\ q_and_a (self st2) = q_and_a (self st1) ++ batch
     /\ length batch = 4
     /\ spec.records_for "Found in Egypt" batch = 2)
  /\ (exists st1 st2 batch,
        build {| self := examples.built examples.sky;
                 gen := examples.draws |} = (Ok tt, st1)
        /\ build st1 = (Ok tt, st2)
        /\ q_and_a (self st2) = q_and_a (self st1) ++ batch
        /\ length batch = 1
        /\ spec.records_for "Sky is blue" batch = 1).
Proof.
  split.
  - assert (H1 : build {| self := examples.built examples.two_labels;
                          gen := examples.draws |}
                 = (Ok tt, (build {| self := examples.built examples.two_labels;
                                     gen := examples.draws |}).2))
      by (vm_compute; reflexivity).
    destruct (second_build_appends examples.two_labels _ _ _
                ltac:(vm_compute; reflexivity) H1)
      as (st2 & batch & H2 & Hb & Hn).
    eexists _, st2, batch. split; [exact H1|]. split; [exact H2|].
    split; [exact Hb|].
    assert (batch = drop 4 (q_and_a (self st2))) as ->.
    { rewrite Hb. rewrite drop_app_length'; [done|]. vm_compute; reflexivity. }
    assert (st2 = (build (build {| self := examples.built examples.two_labels;
                                   gen := examples.draws |}).2).2) as ->
      by (rewrite H2; reflexivity).
    split; vm_compute; reflexivity.
  - assert (H1 : build {| self := examples.built examples.sky;
                          gen := examples.draws |}
                 = (Ok tt, (build {| self := examples.built examples.sky;
                                     gen := examples.draws |}).2))
      by (vm_compute; reflexivity).
    destruct (second_build_appends examples.sky _ _ _
                ltac:(vm_compute; reflexivity) H1)
      as (st2 & batch & H2 & Hb & Hn).
    eexists _, st2, batch. split; [exact H1|]. split; [exact H2|].
    split; [exact Hb|].
    assert (batch = drop 1 (q_and_a (self st2))) as ->.
    { rewrite Hb. rewrite drop_app_length'; [done|]. vm_compute; reflexivity. }
    assert (st2 = (build (build {| self := examples.built examples.sky;
                                   gen := examples.draws |}).2).2) as ->
      by (rewrite H2; reflexivity).
    split; vm_compute; reflexivity.
Defined.

(** At [examples.two_labels] the claim fails as it is stated: the
    question asked under two labels has two records after one build and
    four after two, not one and two. *)
Lemma second_build_two_per_question_fails :
  exists st1 st2,
    Section_get_category examples.two_labels
    = Ok (examples.built examples.two_labels)
    /\ build {| self := examples.built examples.two_labels;
                gen := examples.draws |} = (Ok tt, st1)
    /\ build st1 = (Ok tt, st2)
    /\ "Found in Egypt"
       ∈ spec.all_questions (facts (examples.built examples.two_labels))
    /\ spec.records_for "Found in Egypt" (q_and_a (self st1)) = 2
    /\ spec.records_for "Found in Egypt" (q_and_a (self st2)) = 4.
Proof.
  exists (build {| self := examples.built examples.two_labels;
                   gen := examples.draws |}).2,
    (build (build {| self := examples.built examples.two_labels;
                     gen := examples.draws |}).2).2.
  split; [vm_compute; reflexivity|]. split; [vm_compute; reflexivity|].
  split; [vm_compute; reflexivity|].
  split; [|split; vm_compute; reflexivity].
  apply elem_of_union_list. exists {["Found in Egypt"]}.
  split; [|by apply elem_of_singleton].
  apply list_elem_of_fmap.
  exists {| kind := Some "rivers";
            questions := [ {| q_text := "Found in Egypt" |} ];
            answers := [ {| a_text := "Nile" |} ];
            q_to_a := ∅; a_to_q := ∅ |}.
  split; [vm_compute; reflexivity|]. vm_compute. left.
Qed.

End rebuild_facts.

(** ** The session *)

Section session_facts.

Implicit Types (s : session) (h : heap) (drv : driver) (ev : event).

Lemma bind_inv {S A B} (m : M S A) (k : A -> M S B) (t t' : S) (b : B) :
  bind m k t = (Ok b, t') ->
  exists a t1, m t = (Ok a, t1) /\ k a t1 = (Ok b, t').
Proof.
  unfold bind. destruct (m t) as [[a|e] t1]; [|done]. by exists a, t1.
Qed.

Lemma questions_emitted_app t ev :
  questions_emitted (t ++ [ev])
  = questions_emitted t + (if is_question ev then 1 else 0).
Proof.
  unfold questions_emitted. rewrite filter_app, length_app, filter_cons.
  destruct (is_question ev); [rewrite decide_True by done|
                              rewrite decide_False by done]; done.
Qed.

Lemma yield_plain drv ev s s' :
  is_question ev = false ->
  yield drv ev s = (Ok tt, s') ->
  reports s' = reports s
  /\ questions_emitted (trace s') = questions_emitted (trace s).
Proof.
  intros Hev. unfold yield, bind, emit, modify.
  destruct ev; try done; intros [= <-]; cbn [reports trace with_event];
    rewrite questions_emitted_app; cbn; by rewrite Nat.add_0_r.
Qed.

Lemma Report_init_inv level parent s fresh s' :
  with_reports (Report_init level parent) s = (Ok fresh, s') ->
  fresh = length (reports s)
  /\ reports s' = reports s ++ [new_report level parent]
  /\ trace s' = trace s.
Proof. unfold with_reports, Report_init. by intros [= <- <-]. Qed.

Lemma call_build_frame category s o s' :
  call_build category s = (o, s') ->
  reports s' = reports s /\ trace s' = trace s.
Proof.
  unfold call_build. destruct (quizcore.build _) as [o' b].
  by intros [= _ <-].
Qed.

Lemma build_all_frame categories q_and_a s l s' :
  build_all categories q_and_a s = (Ok l, s') ->
  reports s' = reports s /\ trace s' = trace s.
Proof.
  revert q_and_a s. induction categories as [|c cs IH]; intros acc s; cbn.
  - by intros [= _ <-].
  - intros (built & s1 & Hb & Hrest)%bind_inv.
    apply call_build_frame in Hb as [Hr Ht].
    apply IH in Hrest as [Hr' Ht']. split; congruence.
Qed.

Lemma with_gen_frame {A} (f : random.rng -> A * random.rng) s a s' :
  with_gen f s = (Ok a, s') ->
  reports s' = reports s /\ trace s' = trace s.
Proof. unfold with_gen. destruct (f (gen s)). by intros [= _ <-]. Qed.

Lemma counted_refl p s r : reports s !! p = Some r -> spec.counted p 0 s s.
Proof.
  intros Hr. split; [lia|]. split; [done|]. split; [done|].
  exists r, r. repeat split; done || lia.
Qed.

Lemma counted_trans p n m s s1 s2 :
  spec.counted p n s s1 -> spec.counted p m s1 s2 ->
  spec.counted p (n + m) s s2.
Proof.
  intros (HQ1 & Hl1 & Hfr1 & r & r1 & Hr & Hr1 & Hf1 & Hp1 & Ht1)
         (HQ2 & Hl2 & Hfr2 & r1' & r2 & Hr1' & Hr2 & Hf2 & Hp2 & Ht2).
  rewrite Hr1 in Hr1'. injection Hr1' as <-.
  split; [lia|]. split; [lia|]. split.
  - intros i Hi Hne. rewrite Hfr2 by (done || lia). by apply Hfr1.
  - exists r, r2. repeat split; try done; try congruence. lia.
Qed.

(** What a call of [answer] that returns has done to an open report. *)
Lemma answer_counted (q : Question) h r x q' h' :
  q_answered q = false ->
  h !! q_report q = Some r -> _finalized r = false ->
  Question_answer x (q, h) = (Ok tt, (q', h')) ->
  exists r', h' = <[q_report q := r']> h
    /\ _finalized r' = false /\ _parent r' = _parent r
    /\ _right r' + _wrong r' = _right r + _wrong r + 1.
Proof.
  intros Ha Hr Hf Hrun.
  assert (exists given, Question_answer (Str given) (q, h) = (Ok tt, (q', h')))
    as [given Hg].
  { destruct x as [i|given]; [|by exists given].
    destruct (getitem (q_choices q) i) as [given|e] eqn:Hi.
    - exists given. by rewrite <- (answer_index_as_text _ _ _ _ Ha Hi).
    - revert Hrun. unfold Question_answer, bind, get. cbn [fst snd].
      rewrite Ha. unfold resolve. by rewrite Hi. }
  destruct (answer_text_open q h r given Ha Hr Hf)
    as (r' & Hrun' & Hf' & Hp' & Ht' & _).
  rewrite Hrun' in Hg. injection Hg as _ <-. by exists r'.
Qed.

(** A question yielded on an open report and answered: one more question,
    one more answer counted by that report. *)
Lemma yield_question drv p rec s s' r :
  reports s !! p = Some r -> _finalized r = false ->
  yield drv (QuestionEv (Question_init p rec)) s = (Ok tt, s') ->
  spec.counted p 1 s s'.
Proof.
  intros Hr Hf. unfold yield, bind, emit, modify, driver_answers.
  cbn [reports asked with_event gen trace].
  destruct (Question_answer _ _) as [o [q' h']] eqn:Hans.
  intros [= -> <-]. unfold spec.counted. cbn [reports trace].
  apply (answer_counted _ _ r) in Hans as (r' & -> & Hf' & Hp' & Ht');
    [|done..].
  cbn [q_report Question_init] in *.
  split; [by rewrite questions_emitted_app|].
  split; [by rewrite length_insert|]. split.
  - intros i _ Hne. by rewrite list_lookup_insert_ne.
  - exists r, r'. split; [done|]. split; [by eapply lookup_assign_eq|].
    repeat split; congruence.
Qed.

(** A loop each of whose turns counts on the open report [p]. *)
Lemma for_each_counted {A} (body : A -> M session unit) p l :
  (forall x s s' r,
     reports s !! p = Some r -> _finalized r = false ->
     body x s = (Ok tt, s') -> exists n, spec.counted p n s s') ->
  forall s s' r,
    reports s !! p = Some r -> _finalized r = false ->
    for_each l body s = (Ok tt, s') -> exists n, spec.counted p n s s'.
Proof.
  intros Hbody s s' r Hr Hf Hrun.
  apply (for_each_inv (fun _ s1 => exists n, spec.counted p n s s1))
    in Hrun; [done| |].
  - intros _ x s1 s2 _ [n Hn] Hx.
    pose proof Hn as (_ & _ & _ & r0 & r1 & Hr0 & Hr1 & Hf1 & _).
    rewrite Hr in Hr0. injection Hr0 as <-.
    destruct (Hbody x s1 s2 r1 Hr1 ltac:(congruence) Hx) as [m Hm].
    exists (n + m). by eapply counted_trans.
  - exists 0. by eapply counted_refl.
Qed.

Lemma finalize_root h self r :
  h !! self = Some r -> _finalized r = false -> _parent r = None ->
  finalize self h = (Ok tt, <[self := set_finalized true r]> h).
Proof.
  intros Hr Hf Hp. unfold finalize, bind.
  rewrite (deref_lookup _ _ _ Hr), Hf. unfold assign, modify.
  by rewrite Hp.
Qed.

(** The roll-up: the counts and problems of the child go to its parent. *)
Lemma finalize_child h self r parent p :
  h !! self = Some r -> _finalized r = false -> _parent r = Some parent ->
  h !! parent = Some p -> parent <> self ->
  finalize self h
  = (Ok tt,
     <[parent := set_problems (_problems p ++ _problems r)
                   (set_wrong (_wrong p + _wrong r)
                      (set_right (_right p + _right r) p))]>
       (<[self := set_finalized true r]> h)).
Proof.
  intros Hr Hf Hp Hpar Hne.
  pose proof (lookup_lt_Some _ _ _ Hr) as Hlt.
  pose proof (lookup_lt_Some _ _ _ Hpar) as Hlt'.
  unfold finalize, bind. rewrite (deref_lookup _ _ _ Hr), Hf.
  unfold assign, modify, ret, deref. rewrite Hp. cbv beta iota.
  rewrite !list_lookup_total_insert, !length_insert.
  repeat match goal with
         | |- context [decide ?P] =>
             first [ rewrite (decide_True (P := P)) by (split; done || lia)
                   | rewrite (decide_False (P := P))
                       by (intros [? _]; congruence) ]
         end.
  rewrite ?(list_lookup_total_correct _ _ _ Hr),
    ?(list_lookup_total_correct _ _ _ Hpar).
  by rewrite !list_insert_insert_eq.
Qed.

(** Closing the scope of a report created below [p]: what it counted goes
    to [p]. *)
Lemma close_scope drv ev level p n s s4 s5 s' c :
  is_question ev = false ->
  reports s !! p = Some c ->
  reports s4 = reports s ++ [new_report level (Some p)] ->
  questions_emitted (trace s4) = questions_emitted (trace s) ->
  spec.counted (length (reports s)) n s4 s5 ->
  (yield drv ev ;;;
   with_reports (finalize (length (reports s))) ;;;
   yield drv (ReportEv (length (reports s)))) s5 = (Ok tt, s') ->
  spec.counted p n s s'.
Proof.
  intros Hev Hc Hs4 HQ4 (HQ5 & Hl5 & Hfr5 & r4 & r5 & Hr4 & Hr5 & Hf5 & Hp5 & Ht5).
  set (fresh := length (reports s)) in *.
  pose proof (lookup_lt_Some _ _ _ Hc) as Hlt.
  rewrite Hs4, lookup_app_r, Nat.sub_diag in Hr4 by done.
  injection Hr4 as <-. cbn in Hf5, Hp5, Ht5.
  assert (Hc5 : reports s5 !! p = Some c).
  { rewrite Hfr5; [|rewrite Hs4, length_app; cbn; lia|lia].
    rewrite Hs4. by apply lookup_app_l_Some. }
  intros ([] & s6 & Hy6 & ([] & s7 & Hfin & Hy8)%bind_inv)%bind_inv.
  apply yield_plain in Hy6 as [Hr6 HQ6]; [|done].
  apply yield_plain in Hy8 as [Hr8 HQ8]; [|done].
  unfold with_reports in Hfin. rewrite Hr6 in Hfin.
  rewrite (finalize_child _ _ r5 p c) in Hfin by (done || lia).
  injection Hfin as <-. cbn [reports trace] in *.
  split; [lia|]. split.
  { rewrite Hr8, !length_insert. rewrite Hs4, length_app in Hl5.
    cbn in Hl5. lia. }
  split.
  - intros i Hi Hne. rewrite Hr8.
    rewrite !list_lookup_insert_ne by lia.
    rewrite Hfr5; [|rewrite Hs4, length_app; cbn; lia|lia].
    rewrite Hs4. by apply lookup_app_l.
  - eexists c, _. split; [done|]. split.
    + rewrite Hr8. apply list_lookup_insert_eq.
      rewrite length_insert. by eapply lookup_lt_Some.
    + cbn. repeat split; lia.
Qed.

(** A section: every question it yields is counted by the report of the
    chapter once the section is over. *)
Lemma iter_section_counted drv p section s s' c :
  reports s !! p = Some c -> _finalized c = false ->
  iter_section drv p section s = (Ok tt, s') ->
  exists n, spec.counted p n s s'.
Proof.
  intros Hc Hf. unfold iter_section.
  intros ([] & s1 & Hy1 & (sr & s2 & Hinit & (l & s3 & Hb & (l' & s4 & Hsh &
    ([] & s5 & Hloop & Htail)%bind_inv)%bind_inv)%bind_inv)%bind_inv)%bind_inv.
  apply yield_plain in Hy1 as [Hr1 HQ1]; [|done].
  apply Report_init_inv in Hinit as (-> & Hr2 & Ht2).
  apply build_all_frame in Hb as [Hr3 Ht3].
  apply with_gen_frame in Hsh as [Hr4 Ht4].
  assert (Hs4 : reports s4 = reports s ++ [new_report "Section" (Some p)])
    by congruence.
  assert (Hbody : forall x sa sb r,
    reports sa !! length (reports s1) = Some r -> _finalized r = false ->
    yield drv (QuestionEv (Question_init (length (reports s1)) x)) sa
    = (Ok tt, sb) ->
    exists n, spec.counted (length (reports s1)) n sa sb).
  { intros x sa sb r Hr Hfr Hx. exists 1. by eapply yield_question. }
  assert (Hnew : reports s4 !! length (reports s1)
                 = Some (new_report "Section" (Some p))).
  { rewrite Hs4, Hr1. by rewrite lookup_app_r, Nat.sub_diag. }
  destruct (for_each_counted _ _ _ Hbody _ _ _ Hnew eq_refl Hloop) as [n Hn].
  exists n. rewrite Hr1 in *.
  eapply (close_scope drv _ "Section" p n s s4 s5 s' c); try done;
    [reflexivity|by rewrite Ht4, Ht3, Ht2].
Qed.

(** A chapter: every question of its sections is counted by the report of
    the unit test once the chapter is over. *)
Lemma iter_chapter_counted drv p chapter s s' u :
  reports s !! p = Some u -> _finalized u = false ->
  iter_chapter drv p chapter s = (Ok tt, s') ->
  exists n, spec.counted p n s s'.
Proof.
  intros Hu Hf. unfold iter_chapter.
  intros ([] & s1 & Hy1 & (cr & s2 & Hinit &
    ([] & s3 & Hloop & Htail)%bind_inv)%bind_inv)%bind_inv.
  apply yield_plain in Hy1 as [Hr1 HQ1]; [|done].
  apply Report_init_inv in Hinit as (-> & Hr2 & Ht2).
  assert (Hs2 : reports s2 = reports s ++ [new_report "Chapter" (Some p)])
    by congruence.
  assert (Hbody : forall x sa sb r,
    reports sa !! length (reports s1) = Some r -> _finalized r = false ->
    iter_section drv (length (reports s1)) x sa = (Ok tt, sb) ->
    exists n, spec.counted (length (reports s1)) n sa sb).
  { intros x sa sb r Hr Hfr Hx. by eapply iter_section_counted. }
  assert (Hnew : reports s2 !! length (reports s1)
                 = Some (new_report "Chapter" (Some p))).
  { rewrite Hs2, Hr1. by rewrite lookup_app_r, Nat.sub_diag. }
  destruct (for_each_counted _ _ _ Hbody _ _ _ Hnew eq_refl Hloop) as [n Hn].
  exists n. rewrite Hr1 in *.
  eapply (close_scope drv _ "Chapter" p n s s2 s3 s' u); try done;
    [reflexivity|by rewrite Ht2].
Qed.

(** C3. In a session that runs to its end, with the driver answering each
    question once before it pulls the next event, the report of the unit
    test is finalized, has no parent, and its total, the sum of what the
    chapter reports received from their sections, is the number of
    Question events of the session. *)
Theorem terminal_report_counts_questions drv faq g ur s' :
  FAQ_iter drv faq (start g) = (Ok ur, s') ->
  Report_total ur (reports s')
  = (Ok (questions_emitted (trace s')), reports s')
  /\ Report_final ur (reports s') = (Ok true, reports s').
Proof.
  unfold FAQ_iter.
  intros ([] & s1 & Hy1 & (u & s2 & Hinit & ([] & s3 & Hloop &
    ([] & s4 & Hy4 & ([] & s5 & Hfin & ([] & s6 & Hy6 & Hret)%bind_inv)
    %bind_inv)%bind_inv)%bind_inv)%bind_inv)%bind_inv.
  injection Hret as <- <-.
  apply yield_plain in Hy1 as [Hr1 HQ1]; [|done].
  apply Report_init_inv in Hinit as (-> & Hr2 & Ht2).
  rewrite Hr1 in *. cbn in Hr2, HQ1.
  change (length (reports (start g))) with 0 in *.
  assert (Hbody : forall x sa sb r,
    reports sa !! 0 = Some r -> _finalized r = false ->
    iter_chapter drv 0 x sa = (Ok tt, sb) ->
    exists n, spec.counted 0 n sa sb).
  { intros x sa sb r Hr Hfr Hx. by eapply iter_chapter_counted. }
  assert (Hnew : reports s2 !! 0 = Some (new_report "UnitTest" None))
    by (by rewrite Hr2).
  destruct (for_each_counted _ _ _ Hbody _ _ _ Hnew eq_refl Hloop) as [n Hn].
  destruct Hn as (HQ3 & _ & _ & r2 & r3 & Hr2' & Hr3 & Hf3 & Hp3 & Ht3).
  rewrite Hr2 in Hr2'. injection Hr2' as <-. cbn in Hf3, Hp3, Ht3.
  apply yield_plain in Hy4 as [Hr4 HQ4]; [|done].
  apply yield_plain in Hy6 as [Hr6 HQ6]; [|done].
  unfold with_reports in Hfin. rewrite Hr4 in Hfin.
  rewrite (finalize_root _ _ r3) in Hfin by done.
  injection Hfin as <-. cbn [reports trace] in *.
  assert (Hu : reports s6 !! 0 = Some (set_finalized true r3)).
  { rewrite Hr6. by eapply lookup_assign_eq. }
  unfold Report_total, Report_final, bind.
  rewrite (deref_lookup _ _ _ Hu). cbn. rewrite Hp3. split; [|done].
  unfold ret. do 2 f_equal. unfold questions_emitted in *.
  rewrite Ht2 in HQ3. lia.
Qed.

Lemma terminal_report_counts_questions_witness :
  exists faq s',
    FAQ_init examples.bank = Ok faq
    /\ FAQ_iter examples.answers_given faq (start examples.draws) = (Ok 0, s')
    /\ questions_emitted (trace s') = 3
    /\ Report_total 0 (reports s')
       = (Ok (questions_emitted (trace s')), reports s')
    /\ Report_final 0 (reports s') = (Ok true, reports s').
Proof.
  eexists _, _. split; [vm_compute; reflexivity|].
  lazymatch goal with
  | |- ?run /\ _ => assert (Hrun : run) by (vm_compute; reflexivity)
  end.
  split; [exact Hrun|]. split; [vm_compute; reflexivity|].
  exact (terminal_report_counts_questions _ _ _ _ _ Hrun).
Defined.

End session_facts.

(** ** Answers, reports and reviews *)

Section answer_facts.

Implicit Types (h : heap) (q : Question) (r : Report).

Lemma mutators_closed h self r :
  h !! self = Some r -> _finalized r = true ->
  right_answer self h = (Raise (RuntimeError "Report is finalized!"), h)
  /\ wrong_answer self h = (Raise (RuntimeError "Report is finalized!"), h)
  /\ forall rec given,
       review self rec given h
       = (Raise (RuntimeError "Report is finalized!"), h).
Proof.
  intros Hr Hf. unfold right_answer, wrong_answer, review, bind.
  rewrite (deref_lookup _ _ _ Hr), Hf. done.
Qed.

(** X1. On a finalized report, [right_answer], [wrong_answer] and [review]
    raise and return the heap they were given. *)
Theorem finalized_report_is_locked h self r :
  h !! self = Some r -> _finalized r = true ->
  right_answer self h = (Raise (RuntimeError "Report is finalized!"), h)
  /\ wrong_answer self h = (Raise (RuntimeError "Report is finalized!"), h)
  /\ forall rec given,
       review self rec given h
       = (Raise (RuntimeError "Report is finalized!"), h).
Proof. apply mutators_closed. Qed.

Lemma finalized_report_is_locked_witness :
  [examples.closed_report] !! 0 = Some examples.closed_report
  /\ right_answer 0 [examples.closed_report]
     = (Raise (RuntimeError "Report is finalized!"), [examples.closed_report]).
Proof.
  split; [reflexivity|].
  apply (finalized_report_is_locked [examples.closed_report] 0
           examples.closed_report); reflexivity.
Defined.

Lemma answer_Ok_answered x q h s1 :
  Question_answer x (q, h) = (Ok tt, s1) -> q_answered s1.1 = true.
Proof.
  unfold Question_answer. intros (s & s0 & Hget & Hrun)%bind_inv.
  injection Hget as <- <-. cbn [fst snd] in Hrun.
  destruct (q_answered q); [done|].
  apply bind_inv in Hrun as (given & s2 & _ & Hrun).
  apply bind_inv in Hrun as ([] & s3 & _ & Hrun).
  unfold modify in Hrun. by injection Hrun as <-.
Qed.

(** X2. Once a call of [answer] has returned, every further call on the
    question raises and changes neither the question nor any report. *)
Theorem answer_twice_fails x y q h s1 :
  Question_answer x (q, h) = (Ok tt, s1) ->
  Question_answer y s1
  = (Raise (RuntimeError "Question has already been answered!"), s1).
Proof.
  intros Hrun%answer_Ok_answered. destruct s1 as [q1 h1]. cbn in Hrun.
  unfold Question_answer, bind, get. cbn [fst snd]. by rewrite Hrun.
Qed.

Lemma answer_twice_fails_witness :
  exists s1,
    Question_answer (Int 0) (examples.sky_question, [examples.open_report])
    = (Ok tt, s1)
    /\ Question_answer (Str "Blue") s1
       = (Raise (RuntimeError "Question has already been answered!"), s1).
Proof.
  eexists. split; [vm_compute; reflexivity|].
  eapply (answer_twice_fails (Int 0) (Str "Blue") examples.sky_question
            [examples.open_report]).
  vm_compute; reflexivity.
Defined.

Lemma answer_text_wrong q h r given :
  q_answered q = false ->
  h !! q_report q = Some r -> _finalized r = false ->
  given <> q_right q ->
  Question_answer (Str given) (q, h)
  = (Ok tt,
     (set_answered true q,
      <[q_report q :=
          set_problems (_problems r ++ [(q_q_and_a q, given)])
            (set_wrong (_wrong r + 1) r)]> h)).
Proof.
  intros Ha Hr Hf Hne.
  unfold Question_answer, bind, get. cbn [fst snd]. rewrite Ha.
  unfold resolve, ret. rewrite decide_False by done.
  unfold on_heap. cbn [fst snd]. rewrite (wrong_answer_open _ _ _ Hr Hf).
  erewrite review_open; [|by eapply lookup_assign_eq|done].
  unfold modify. cbn [fst snd]. by rewrite list_insert_insert_eq.
Qed.

(** X3. On an unanswered question whose report is open, an answer that is
    not the correct text, given as text or as the index of a choice, adds
    one to the wrong count, leaves the right count, and appends to the
    problems the record of the question with the text of the choice. *)
Theorem wrong_answer_is_recorded q h r i given :
  q_answered q = false ->
  h !! q_report q = Some r -> _finalized r = false ->
  getitem (q_choices q) i = Ok given -> given <> q_right q ->
  exists r',
    Question_answer (Int i) (q, h)
    = (Ok tt, (set_answered true q, <[q_report q := r']> h))
    /\ Question_answer (Str given) (q, h)
       = (Ok tt, (set_answered true q, <[q_report q := r']> h))
    /\ _right r' = _right r
    /\ _wrong r' = _wrong r + 1
    /\ _problems r' = _problems r ++ [(q_q_and_a q, given)]
    /\ _finalized r' = false.
Proof.
  intros Ha Hr Hf Hi Hne. rewrite (answer_index_as_text _ _ _ _ Ha Hi).
  rewrite (answer_text_wrong _ _ _ _ Ha Hr Hf Hne).
  eexists. split; [reflexivity|]. split; [reflexivity|]. by cbn.
Qed.

Lemma wrong_answer_is_recorded_witness :
  exists r',
    Question_answer (Int 0) (examples.sky_question, [examples.open_report])
    = (Ok tt, (set_answered true examples.sky_question,
               <[0 := r']> [examples.open_report]))
    /\ _wrong r' = 2
    /\ _problems r' = [(examples.sky_record, "Green")].
Proof.
  destruct (wrong_answer_is_recorded examples.sky_question
              [examples.open_report] examples.open_report 0 "Green")
    as (r' & H1 & _ & _ & Hw & Hp & _); try reflexivity; [done|].
  exists r'. by repeat split.
Defined.

Lemma getitem_Raise {A} (l : list A) i e :
  getitem l i = Raise e -> e = IndexError.
Proof.
  unfold getitem. cbv zeta. case_decide; [|by intros [= <-]].
  destruct (l !! _); [done|]. by intros [= <-].
Qed.

Lemma answer_text_closed q h r given :
  q_answered q = false ->
  h !! q_report q = Some r -> _finalized r = true ->
  Question_answer (Str given) (q, h)
  = (Raise (RuntimeError "Report is finalized!"), (q, h)).
Proof.
  intros Ha Hr Hf.
  destruct (mutators_closed h _ r Hr Hf) as (Hra & Hwa & _).
  unfold Question_answer, bind, get. cbn [fst snd]. rewrite Ha.
  unfold resolve, ret. case_decide; unfold on_heap; cbn [fst snd].
  - by rewrite Hra.
  - by rewrite Hwa.
Qed.

(** X4. On an unanswered question whose report is finalized, every call
    of [answer] raises, for the finalized report or for an index outside
    the choices, and leaves the question unanswered and the heap as it
    was. *)
Theorem answer_after_finalize_fails x q h r :
  q_answered q = false ->
  h !! q_report q = Some r -> _finalized r = true ->
  exists e,
    Question_answer x (q, h) = (Raise e, (q, h))
    /\ (e = RuntimeError "Report is finalized!" \/ e = IndexError).
Proof.
  intros Ha Hr Hf. destruct x as [i|given].
  - destruct (getitem (q_choices q) i) as [given|e] eqn:Hi.
    + rewrite (answer_index_as_text _ _ _ _ Ha Hi).
      eexists. split; [by eapply answer_text_closed|by left].
    + exists e. split; [|right; by eapply getitem_Raise].
      unfold Question_answer, bind, get. cbn [fst snd]. rewrite Ha.
      unfold resolve. by rewrite Hi.
  - eexists. split; [by eapply answer_text_closed|by left].
Qed.

Lemma answer_after_finalize_fails_witness :
  exists e,
    Question_answer (Int 1) (examples.sky_question, [examples.closed_report])
    = (Raise e, (examples.sky_question, [examples.closed_report]))
    /\ (e = RuntimeError "Report is finalized!" \/ e = IndexError).
Proof.
  apply (answer_after_finalize_fails (Int 1) examples.sky_question
           [examples.closed_report] examples.closed_report); reflexivity.
Defined.

Lemma get_problems_closed h self r :
  h !! self = Some r -> _finalized r = true ->
  get_problems self h = (Ok (props.review_entry <$> _problems r), h).
Proof.
  intros Hr Hf. unfold get_problems, bind.
  by rewrite (deref_lookup _ _ _ Hr), Hf.
Qed.

Lemma finalize_self h self r :
  h !! self = Some r -> _finalized r = false ->
  (forall p, _parent r = Some p -> p <> self /\ is_Some (h !! p)) ->
  exists h', finalize self h = (Ok tt, h')
    /\ h' !! self = Some (set_finalized true r).
Proof.
  intros Hr Hf Hpar. destruct (_parent r) as [p|] eqn:Hp.
  - destruct (Hpar p eq_refl) as [Hne [pr Hpr]].
    rewrite (finalize_child _ _ _ _ _ Hr Hf Hp Hpr Hne).
    eexists. split; [done|]. rewrite list_lookup_insert_ne by done.
    by eapply lookup_assign_eq.
  - rewrite (finalize_root _ _ _ Hr Hf Hp).
    eexists. split; [done|]. by eapply lookup_assign_eq.
Qed.

(** X5. A wrong answer to the question made of a record, followed by the
    [finalize] of its report, comes back from [get_problems] as the last
    entry: the answer given, with the category, question, choices and
    right answer of the record. *)
Theorem wrong_answer_comes_back p rec given h r :
  h !! p = Some r -> _finalized r = false ->
  (forall par, _parent r = Some par -> par <> p /\ is_Some (h !! par)) ->
  given <> quizcore.r_answer rec ->
  exists q' h1 h2,
    Question_answer (Str given) (Question_init p rec, h) = (Ok tt, (q', h1))
    /\ finalize p h1 = (Ok tt, h2)
    /\ get_problems p h2
       = (Ok ((props.review_entry <$> _problems r)
              ++ [ {| a_answer := given;
                      a_category := quizcore.r_kind rec;
                      a_question := quizcore.r_question rec;
                      a_choices := quizcore.r_choices rec;
                      a_right := quizcore.r_answer rec |} ]), h2).
Proof.
  intros Hr Hf Hpar Hne.
  pose proof (answer_text_wrong (Question_init p rec) h r given eq_refl Hr Hf
                Hne) as Hans.
  cbn [q_report Question_init q_q_and_a] in Hans.
  set (r1 := set_problems _ _) in Hans.
  assert (Hr1 : <[p := r1]> h !! p = Some r1) by (by eapply lookup_assign_eq).
  destruct (finalize_self (<[p := r1]> h) p r1 Hr1 Hf) as (h2 & Hfin & Hr2).
  { intros par Hp. destruct (Hpar par Hp) as [Hnp Hsome]. split; [done|].
    by rewrite list_lookup_insert_ne. }
  eexists _, _, h2. split; [exact Hans|]. split; [exact Hfin|].
  rewrite (get_problems_closed _ _ _ Hr2 eq_refl). subst r1. cbn.
  by rewrite fmap_app.
Qed.

Lemma wrong_answer_comes_back_witness :
  exists q' h1 h2,
    Question_answer (Str "Green")
      (Question_init 0 examples.sky_record, [examples.open_report])
    = (Ok tt, (q', h1))
    /\ finalize 0 h1 = (Ok tt, h2)
    /\ get_problems 0 h2
       = (Ok [ {| a_answer := "Green";
                  a_category := "Multiple Choice";
                  a_question := "Color of sky";
                  a_choices := ["Green"; "Blue"];
                  a_right := "Blue" |} ], h2).
Proof.
  apply (wrong_answer_comes_back 0 examples.sky_record "Green"
           [examples.open_report] examples.open_report);
    [reflexivity|reflexivity|done|done].
Defined.

End answer_facts.

(** ** The heap of reports along a session *)

Section heap_facts.

Implicit Types (s : session) (h : heap) (drv : driver) (E : list nat).

(** Writing a report that keeps parent and flag, and is tallied, keeps the
    heap of a session. *)
Lemma session_heap_insert E h i r r' :
  props.session_heap E h -> h !! i = Some r ->
  props.tallied r' -> _parent r' = _parent r ->
  (_finalized r = true -> _finalized r' = true) ->
  props.session_heap E (<[i := r']> h).
Proof.
  intros (Ht & Hp & Hc & Hroot) Hi Ht' Hp' Hf'.
  unfold props.session_heap. split_and?.
  - by apply Forall_insert.
  - intros j rj p Hj Hpar.
    apply list_lookup_insert_Some in Hj as [(-> & <- & _)|[Hne Hj]].
    + rewrite Hp' in Hpar. by eapply Hp.
    + by eapply Hp.
  - intros j rj Hj Hopen.
    apply list_lookup_insert_Some in Hj as [(-> & <- & _)|[Hne Hj]].
    + apply Hf'. by eapply Hc.
    + by eapply Hc.
  - intros j rj Hj Hpar.
    apply list_lookup_insert_Some in Hj as [(-> & <- & _)|[Hne Hj]].
    + rewrite Hp' in Hpar. by eapply Hroot.
    + by eapply Hroot.
Qed.

Lemma session_heap_tallied E h i r :
  props.session_heap E h -> h !! i = Some r -> props.tallied r.
Proof.
  intros (Ht & _) Hi. rewrite Forall_forall in Ht. apply Ht.
  by eapply list_elem_of_lookup_2.
Qed.

(** Without a report behind the reference, the three mutators write
    nowhere. *)
Lemma answer_text_dangling (q : Question) h given :
  q_answered q = false -> h !! q_report q = None ->
  Question_answer (Str given) (q, h) = (Ok tt, (set_answered true q, h)).
Proof.
  intros Ha Hr.
  assert (Hge : length h <= q_report q) by (by apply lookup_ge_None).
  unfold Question_answer, bind, get. cbn [fst snd]. rewrite Ha.
  unfold resolve, ret.
  case_decide;
    unfold on_heap, right_answer, wrong_answer, review, bind, deref, assign,
      modify; cbn [fst snd]; rewrite !list_lookup_total_alt, Hr; cbn.
  - by rewrite list_insert_ge.
  - rewrite !list_insert_ge by done. rewrite list_lookup_total_alt, Hr. cbn.
    by rewrite list_insert_ge.
Qed.

(** A call of [answer] that returns keeps the heap of a session. *)
Lemma answer_session_heap E x (q q' : Question) h h' :
  props.session_heap E h ->
  Question_answer x (q, h) = (Ok tt, (q', h')) ->
  props.session_heap E h' /\ length h' = length h.
Proof.
  intros Hinv Hrun.
  assert (Ha : q_answered q = false).
  { revert Hrun. unfold Question_answer, bind, get. cbn [fst snd].
    by destruct (q_answered q). }
  assert (exists given, Question_answer (Str given) (q, h) = (Ok tt, (q', h')))
    as [given Hg].
  { destruct x as [i|given]; [|by exists given].
    destruct (getitem (q_choices q) i) as [given|e] eqn:Hi.
    - exists given. by rewrite <- (answer_index_as_text _ _ _ _ Ha Hi).
    - revert Hrun. unfold Question_answer, bind, get. cbn [fst snd].
      rewrite Ha. unfold resolve. by rewrite Hi. }
  clear Hrun. destruct (h !! q_report q) as [r|] eqn:Hr.
  - destruct (_finalized r) eqn:Hf.
    { by rewrite (answer_text_closed _ _ _ _ Ha Hr Hf) in Hg. }
    pose proof (session_heap_tallied _ _ _ _ Hinv Hr) as Hr'.
    revert Hg. unfold Question_answer, bind, get. cbn [fst snd]. rewrite Ha.
    unfold resolve, ret. case_decide as Hgiven; unfold on_heap; cbn [fst snd].
    + rewrite (right_answer_open _ _ _ Hr Hf). unfold modify.
      intros [= _ <-]. split; [|by rewrite length_insert].
      by eapply session_heap_insert.
    + rewrite (wrong_answer_open _ _ _ Hr Hf). cbn [fst snd].
      erewrite review_open; [|by eapply lookup_assign_eq|done].
      unfold modify. cbn [fst snd]. rewrite list_insert_insert_eq.
      intros [= _ <-]. split; [|by rewrite length_insert].
      eapply session_heap_insert; try done.
      unfold props.tallied in *. cbn. rewrite length_app. cbn. lia.
  - rewrite (answer_text_dangling _ _ _ Ha Hr) in Hg.
    injection Hg as _ <-. by split.
Qed.

(** Writing a report, with its flag possibly raised, when only that
    report leaves the set of the open ones. *)
Lemma session_heap_close E E' h i r r' :
  props.session_heap E h -> h !! i = Some r ->
  props.tallied r' -> _parent r' = _parent r ->
  (_finalized r = true -> _finalized r' = true) ->
  (forall j, j ∈ E -> j ∉ E' -> j = i /\ _finalized r' = true) ->
  props.session_heap E' (<[i := r']> h).
Proof.
  intros (Ht & Hp & Hc & Hroot) Hi Ht' Hp' Hf' HE.
  unfold props.session_heap. split_and?.
  - by apply Forall_insert.
  - intros j rj p Hj Hpar.
    apply list_lookup_insert_Some in Hj as [(-> & <- & _)|[Hne Hj]].
    + rewrite Hp' in Hpar. by eapply Hp.
    + by eapply Hp.
  - intros j rj Hj Hopen.
    apply list_lookup_insert_Some in Hj as [(-> & <- & _)|[Hne Hj]].
    + destruct (decide (j ∈ E)) as [HiE|HiE].
      * by destruct (HE j HiE Hopen).
      * apply Hf'. by eapply Hc.
    + destruct (decide (j ∈ E)) as [HjE|HjE].
      * by destruct (HE j HjE Hopen).
      * by eapply Hc.
  - intros j rj Hj Hpar.
    apply list_lookup_insert_Some in Hj as [(-> & <- & _)|[Hne Hj]].
    + rewrite Hp' in Hpar. by eapply Hroot.
    + by eapply Hroot.
Qed.

(** [finalize] keeps the heap of a session and closes its report. *)
Lemma finalize_session_heap E self h h' :
  props.session_heap (self :: E) h ->
  finalize self h = (Ok tt, h') ->
  props.session_heap E h' /\ length h' = length h.
Proof.
  intros Hinv Hrun. destruct (h !! self) as [r|] eqn:Hr.
  - destruct (_finalized r) eqn:Hf.
    { by rewrite (finalize_closed _ _ _ Hr Hf) in Hrun. }
    pose proof (session_heap_tallied _ _ _ _ Hinv Hr) as Hr'.
    assert (Hself : props.session_heap E (<[self := set_finalized true r]> h)).
    { eapply session_heap_close; try done.
      intros j Hj Hnj. apply elem_of_cons in Hj as [->|Hj]; done. }
    destruct (_parent r) as [p|] eqn:Hp.
    + destruct Hinv as (_ & Hbelow & _).
      pose proof (Hbelow _ _ _ Hr Hp) as Hlt.
      pose proof (lookup_lt_Some _ _ _ Hr) as Hlt'.
      destruct (lookup_lt_is_Some_2 h p ltac:(lia)) as [pr Hpr].
      rewrite (finalize_child _ _ _ _ _ Hr Hf Hp Hpr) in Hrun by lia.
      injection Hrun as <-. split; [|by rewrite !length_insert].
      assert (Hlook : <[self := set_finalized true r]> h !! p = Some pr).
      { by rewrite list_lookup_insert_ne by lia. }
      pose proof (session_heap_tallied _ _ _ _ Hself Hlook) as Hpr'.
      apply (session_heap_insert E _ p pr _ Hself Hlook); [|done|done].
      unfold props.tallied in *. cbn. rewrite length_app. lia.
    + rewrite (finalize_root _ _ _ Hr Hf Hp) in Hrun.
      injection Hrun as <-. split; [done|by rewrite length_insert].
  - assert (Hge : length h <= self) by (by apply lookup_ge_None).
    revert Hrun. unfold finalize, bind, deref, assign, modify, ret.
    rewrite list_lookup_total_alt, Hr. cbn.
    rewrite list_insert_ge by done. intros [= <-]. split; [|done].
    destruct Hinv as (Ht & Hb & Hc & Hroot).
    unfold props.session_heap. split_and?; [done..| |done].
    intros j rj Hj Hnj. eapply Hc; [done|].
    intros [->|Hin]%elem_of_cons; [congruence|done].
Qed.

(** [Report(level, parent)] with a parent that exists keeps the heap of a
    session and opens the new report. *)
Lemma Report_init_session_heap E level parent h :
  props.session_heap E h ->
  (forall p, parent = Some p -> p < length h) ->
  (parent = None -> h = []) ->
  props.session_heap (length h :: E) (h ++ [new_report level parent]).
Proof.
  intros (Ht & Hb & Hc & Hroot) Hpar Hnone.
  unfold props.session_heap. split_and?.
  - apply Forall_app. split; [done|]. by repeat constructor.
  - intros j rj p Hj Hp.
    apply lookup_app_Some in Hj as [Hj|[Hge Hj]].
    + by eapply Hb.
    + apply list_lookup_singleton_Some in Hj as [Hj <-]. cbn in Hp.
      specialize (Hpar p Hp). lia.
  - intros j rj Hj Hnj.
    apply lookup_app_Some in Hj as [Hj|[Hge Hj]].
    + eapply Hc; [done|]. intros Hin. apply Hnj. by right.
    + apply list_lookup_singleton_Some in Hj as [Hj <-].
      exfalso. apply Hnj. replace j with (length h) by lia. left.
  - intros j rj Hj Hp.
    apply lookup_app_Some in Hj as [Hj|[Hge Hj]].
    + by eapply Hroot.
    + apply list_lookup_singleton_Some in Hj as [Hj <-]. cbn in Hp.
      rewrite (Hnone Hp) in *. cbn in *. lia.
Qed.

(** The heap of a session across a [yield]. *)
Lemma yield_session_heap E drv ev s s' :
  props.session_heap E (reports s) ->
  yield drv ev s = (Ok tt, s') ->
  props.session_heap E (reports s')
  /\ length (reports s') = length (reports s).
Proof.
  intros Hinv. destruct (is_question ev) eqn:Hev.
  - destruct ev as [| |q|]; try done.
    unfold yield, bind, emit, modify, driver_answers.
    cbn [reports asked with_event gen trace].
    destruct (Question_answer _ _) as [o [q' h']] eqn:Hans.
    intros [= -> <-]. cbn [reports]. by eapply answer_session_heap.
  - intros [Hr _]%yield_plain; [|done]. by rewrite Hr.
Qed.

(** A section leaves the heap of the session with one more report. *)
Lemma iter_section_heap E drv p section s s' :
  props.session_heap E (reports s) -> p < length (reports s) ->
  iter_section drv p section s = (Ok tt, s') ->
  props.session_heap E (reports s')
  /\ length (reports s') = Datatypes.S (length (reports s)).
Proof.
  intros Hinv Hp. unfold iter_section.
  intros ([] & s1 & Hy1 & (sr & s2 & Hinit & (l & s3 & Hb & (l' & s4 & Hsh &
    ([] & s5 & Hloop & ([] & s6 & Hy6 & ([] & s7 & Hfin & Hy8)%bind_inv)
    %bind_inv)%bind_inv)%bind_inv)%bind_inv)%bind_inv)%bind_inv.
  apply (yield_session_heap E) in Hy1 as [H1 L1]; [|done].
  apply Report_init_inv in Hinit as (-> & Hr2 & _).
  apply build_all_frame in Hb as [Hr3 _].
  apply with_gen_frame in Hsh as [Hr4 _].
  set (sr := length (reports s1)) in *.
  assert (H4 : props.session_heap (sr :: E) (reports s4)
               /\ length (reports s4) = Datatypes.S (length (reports s))).
  { rewrite Hr4, Hr3, Hr2. split.
    - apply Report_init_session_heap; [done| |done].
      intros ? [= <-]. lia.
    - rewrite length_app. cbn. lia. }
  apply (for_each_inv
           (fun _ s0 => props.session_heap (sr :: E) (reports s0)
                        /\ length (reports s0)
                           = Datatypes.S (length (reports s)))) in Hloop;
    [| |exact H4].
  2:{ intros _ x sa sb _ [Ha La] Hx.
      apply (yield_session_heap (sr :: E)) in Hx as [Hb' Lb]; [|done].
      split; [done|lia]. }
  destruct Hloop as [H5 L5].
  apply (yield_session_heap (sr :: E)) in Hy6 as [H6 L6]; [|done].
  unfold with_reports in Hfin.
  destruct (finalize sr (reports s6)) as [o h7] eqn:Hf7.
  injection Hfin as -> <-.
  apply (finalize_session_heap E) in Hf7 as [H7 L7]; [|done].
  apply (yield_session_heap E) in Hy8 as [H8 L8]; [|done].
  split; [done|]. cbn [reports] in *. lia.
Qed.

(** A chapter leaves the heap of the session with one more report for
    itself and one for each of its sections. *)
Lemma iter_chapter_heap E drv p chapter s s' :
  props.session_heap E (reports s) -> p < length (reports s) ->
  iter_chapter drv p chapter s = (Ok tt, s') ->
  props.session_heap E (reports s')
  /\ length (reports s')
     = length (reports s) + (1 + length (quizcore.sections chapter)).
Proof.
  intros Hinv Hp. unfold iter_chapter.
  intros ([] & s1 & Hy1 & (cr & s2 & Hinit & ([] & s3 & Hloop &
    ([] & s4 & Hy4 & ([] & s5 & Hfin & Hy6)%bind_inv)%bind_inv)
    %bind_inv)%bind_inv)%bind_inv.
  apply (yield_session_heap E) in Hy1 as [H1 L1]; [|done].
  apply Report_init_inv in Hinit as (-> & Hr2 & _).
  set (cr := length (reports s1)) in *.
  assert (H2 : props.session_heap (cr :: E) (reports s2)
               /\ length (reports s2) = length (reports s) + 1 + length (@nil quizcore.Section)).
  { rewrite Hr2. split.
    - apply Report_init_session_heap; [done| |done].
      intros ? [= <-]. lia.
    - rewrite length_app. cbn. lia. }
  apply (for_each_inv
           (fun done s0 => props.session_heap (cr :: E) (reports s0)
                           /\ length (reports s0)
                              = length (reports s) + 1 + length done))
    in Hloop; [| |exact H2].
  2:{ intros done x sa sb _ [Ha La] Hx.
      apply (iter_section_heap (cr :: E)) in Hx as [Hb' Lb];
        [|done|subst cr; lia].
      split; [done|]. rewrite length_app. cbn. lia. }
  destruct Hloop as [H3 L3].
  apply (yield_session_heap (cr :: E)) in Hy4 as [H4 L4]; [|done].
  unfold with_reports in Hfin.
  destruct (finalize cr (reports s4)) as [o h5] eqn:Hf5.
  injection Hfin as -> <-.
  apply (finalize_session_heap E) in Hf5 as [H5 L5]; [|done].
  apply (yield_session_heap E) in Hy6 as [H6 L6]; [|done].
  split; [done|]. cbn [reports] in *. lia.
Qed.

(** The heap of reports at the end of a session. *)
Lemma FAQ_iter_heap drv faq g ur s' :
  FAQ_iter drv faq (start g) = (Ok ur, s') ->
  ur = 0
  /\ props.session_heap [] (reports s')
  /\ length (reports s') = props.divisions (test faq)
  /\ last (trace s') = Some (ReportEv ur).
Proof.
  unfold FAQ_iter.
  intros ([] & s1 & Hy1 & (u & s2 & Hinit & ([] & s3 & Hloop &
    ([] & s4 & Hy4 & ([] & s5 & Hfin & ([] & s6 & Hy6 & Hret)%bind_inv)
    %bind_inv)%bind_inv)%bind_inv)%bind_inv)%bind_inv.
  injection Hret as <- <-.
  assert (H0 : props.session_heap [] (reports (start g))).
  { cbn. split; [constructor|].
    split_and?; [intros i r p Hi|intros i r Hi|intros i r Hi];
      by rewrite lookup_nil in Hi. }
  apply (yield_session_heap []) in Hy1 as [H1 L1]; [|done].
  apply Report_init_inv in Hinit as (-> & Hr2 & _).
  cbn in L1. rewrite L1 in *.
  assert (H2 : props.session_heap [0] (reports s2)
               /\ length (reports s2)
                  = 1 + sum_list_with
                          (fun c => 1 + length (quizcore.sections c))
                          (@nil quizcore.Chapter)).
  { rewrite Hr2. split.
    - rewrite <- L1 at 1. apply Report_init_session_heap; [done|done|].
      intros _. by apply nil_length_inv.
    - rewrite length_app. cbn. lia. }
  apply (for_each_inv
           (fun done s0 =>
              props.session_heap [0] (reports s0)
              /\ length (reports s0)
                 = 1 + sum_list_with
                         (fun c => 1 + length (quizcore.sections c)) done))
    in Hloop; [| |exact H2].
  2:{ intros done x sa sb _ [Ha La] Hx.
      apply (iter_chapter_heap [0]) in Hx as [Hb' Lb]; [|done|lia].
      split; [done|]. rewrite sum_list_with_app, Lb, La.
      cbn [sum_list_with]. lia. }
  destruct Hloop as [H3 L3].
  apply (yield_session_heap [0]) in Hy4 as [H4 L4]; [|done].
  unfold with_reports in Hfin.
  destruct (finalize 0 (reports s4)) as [o h5] eqn:Hf5.
  injection Hfin as -> <-.
  apply (finalize_session_heap []) in Hf5 as [H5 L5]; [|done].
  assert (Hlast : last (trace s6) = Some (ReportEv 0)).
  { revert Hy6. unfold yield, bind, emit, modify. intros [= <-].
    cbn [trace with_event]. apply last_snoc. }
  apply (yield_session_heap []) in Hy6 as [H6 L6]; [|done].
  split; [done|]. split; [done|]. split; [|done]. unfold props.divisions.
  cbn [reports] in *. lia.
Qed.

(** X6. When a session ends, there is one report for the unit test, one
    for each chapter and one for each section, and every one of them is
    finalized. *)
Theorem session_closes_every_report drv faq g ur s' :
  FAQ_iter drv faq (start g) = (Ok ur, s') ->
  length (reports s') = props.divisions (test faq)
  /\ Forall (fun r => _finalized r = true) (reports s').
Proof.
  intros (_ & (_ & _ & Hc & _) & Hl & _)%FAQ_iter_heap. split; [done|].
  apply Forall_forall. intros r [i Hi]%list_elem_of_lookup_1.
  eapply Hc; [done|]. apply not_elem_of_nil.
Qed.

Lemma session_closes_every_report_witness :
  exists faq s',
    FAQ_init examples.bank = Ok faq
    /\ FAQ_iter examples.answers_given faq (start examples.draws) = (Ok 0, s')
    /\ length (reports s') = 3
    /\ Forall (fun r => _finalized r = true) (reports s').
Proof.
  eexists _, _. split; [vm_compute; reflexivity|].
  lazymatch goal with
  | |- ?run /\ _ => assert (Hrun : run) by (vm_compute; reflexivity)
  end.
  split; [exact Hrun|].
  exact (session_closes_every_report _ _ _ _ _ Hrun).
Defined.

(** X7. When a session ends, every report yields from [get_problems] as
    many entries as its [wrong] property counts: each wrong answer left
    one review entry, in the report of its section and in those above. *)
Theorem session_reviews_every_wrong_answer drv faq g ur s' i :
  FAQ_iter drv faq (start g) = (Ok ur, s') ->
  i < length (reports s') ->
  exists entries,
    get_problems i (reports s') = (Ok entries, reports s')
    /\ Report_wrong i (reports s') = (Ok (length entries), reports s').
Proof.
  intros (_ & Hinv & _)%FAQ_iter_heap Hi.
  destruct (lookup_lt_is_Some_2 _ _ Hi) as [r Hr].
  pose proof (session_heap_tallied _ _ _ _ Hinv Hr) as Ht.
  destruct Hinv as (_ & _ & Hc & _).
  pose proof (Hc i r Hr ltac:(apply not_elem_of_nil)) as Hf.
  exists (props.review_entry <$> _problems r).
  split; [by apply get_problems_closed|].
  unfold Report_wrong, bind. rewrite (deref_lookup _ _ _ Hr), Hf. cbn.
  unfold ret. by rewrite length_fmap, <- Ht.
Qed.

Lemma session_reviews_every_wrong_answer_witness :
  exists faq s' entries,
    FAQ_init examples.bank = Ok faq
    /\ FAQ_iter examples.answers_given faq (start examples.draws) = (Ok 0, s')
    /\ get_problems 0 (reports s') = (Ok entries, reports s')
    /\ Report_wrong 0 (reports s') = (Ok (length entries), reports s')
    /\ length entries = 2.
Proof.
  eexists _, _, _. split; [vm_compute; reflexivity|].
  lazymatch goal with
  | |- ?run /\ _ => assert (Hrun : run) by (vm_compute; reflexivity)
  end.
  split; [exact Hrun|].
  destruct (session_reviews_every_wrong_answer _ _ _ _ _ 0 Hrun)
    as (entries & Hg & Hw); [vm_compute; lia|].
  vm_compute in Hg. injection Hg as <-.
  split; [vm_compute; reflexivity|]. split; [vm_compute; reflexivity|].
  reflexivity.
Defined.

(** X8. A session that runs to its end yields the report of the unit
    test last, and that report is the only one of the session whose
    [final] property holds. *)
Theorem session_ends_with_the_final_report drv faq g ur s' :
  FAQ_iter drv faq (start g) = (Ok ur, s') ->
  last (trace s') = Some (ReportEv ur)
  /\ forall i, i < length (reports s') ->
       Report_final i (reports s')
       = (Ok (bool_decide (i = ur)), reports s').
Proof.
  intros (-> & (_ & Hb & _ & Hroot) & _ & Hlast)%FAQ_iter_heap.
  split; [done|]. intros i Hi.
  destruct (lookup_lt_is_Some_2 _ _ Hi) as [r Hr].
  unfold Report_final, bind. rewrite (deref_lookup _ _ _ Hr). unfold ret.
  do 2 f_equal. apply bool_decide_ext. split.
  - by apply Hroot.
  - intros ->. destruct (_parent r) as [p|] eqn:Hp; [|done].
    pose proof (Hb _ _ _ Hr Hp). lia.
Qed.

Lemma session_ends_with_the_final_report_witness :
  exists faq s',
    FAQ_init examples.bank = Ok faq
    /\ FAQ_iter examples.answers_given faq (start examples.draws) = (Ok 0, s')
    /\ last (trace s') = Some (ReportEv 0)
    /\ Report_final 2 (reports s') = (Ok false, reports s').
Proof.
  eexists _, _. split; [vm_compute; reflexivity|].
  lazymatch goal with
  | |- ?run /\ _ => assert (Hrun : run) by (vm_compute; reflexivity)
  end.
  split; [exact Hrun|].
  destruct (session_ends_with_the_final_report _ _ _ _ _ Hrun)
    as [Hlast Hfinal].
  split; [exact Hlast|]. apply (Hfinal 2). vm_compute; lia.
Defined.

End heap_facts.

(** ** Facts and the questions of a category *)

Section builder_facts.

Import quizcore.

Implicit Types (f : Fact) (fs : list Fact) (st : build_state).

(** X9. [Fact.build] a second time changes nothing: the mappings are those
    of the first call. *)
Theorem fact_build_twice f : Fact_build (Fact_build f) = Fact_build f.
Proof. apply Fact_build_idem. Qed.

(** X10. The two mappings of a fact built for the first time are converse
    to one another: an answer is listed under a question exactly when the
    question is listed under the answer, which is when both are texts of
    the fact. *)
Theorem fact_mappings_converse f q a :
  spec.fresh f ->
  (a ∈ q_to_a (Fact_build f) !!! q <-> q ∈ a_to_q (Fact_build f) !!! a)
  /\ (a ∈ q_to_a (Fact_build f) !!! q
      <-> q ∈ question_texts f /\ a ∈ answer_texts f).
Proof.
  intros [Hq Ha]%fresh_clean. rewrite Hq, Ha, !lookup_total_built.
  repeat case_decide; set_solver.
Qed.

Lemma fact_mappings_converse_witness :
  ("Blue" ∈ q_to_a (Fact_build
            {| kind := None; questions := [ {| q_text := "Color of sky" |} ];
               answers := [ {| a_text := "Blue" |} ];
               q_to_a := ∅; a_to_q := ∅ |}) !!! "Color of sky"
   <-> "Color of sky" ∈ a_to_q (Fact_build
            {| kind := None; questions := [ {| q_text := "Color of sky" |} ];
               answers := [ {| a_text := "Blue" |} ];
               q_to_a := ∅; a_to_q := ∅ |}) !!! "Blue").
Proof.
  apply (fact_mappings_converse
           {| kind := None; questions := [ {| q_text := "Color of sky" |} ];
              answers := [ {| a_text := "Blue" |} ];
              q_to_a := ∅; a_to_q := ∅ |} "Color of sky" "Blue").
  split; reflexivity.
Defined.

(** X11. A true/false category that the structural model constructed and
    whose build completes has exactly one record for each distinct
    question text of its facts. *)
Theorem true_or_false_one_record_per_question category c g st' :
  Section_get_category category = Ok c ->
  cclass c = TrueOrFalse ->
  build {| self := c; gen := g |} = (Ok tt, st') ->
  NoDup (r_question <$> q_and_a (self st'))
  /\ (forall q, q ∈ r_question <$> q_and_a (self st')
                <-> q ∈ spec.all_questions (facts c)).
Proof.
  intros Hc Hcls Hrun. apply get_category_Ok in Hc as [Hnil Hvalid].
  assert (Hclean : Forall spec.clean (facts c)).
  { eapply Forall_impl; [exact Hvalid|]. intros f (Hf & _). by apply fresh_clean. }
  apply build_appends in Hrun as (_ & _ & batch & Hb & Hq).
  cbn [self] in Hb, Hq. rewrite Hnil in Hb. cbn in Hb. rewrite Hb, Hq.
  unfold spec.questions_asked. rewrite Hcls. split.
  - apply TF_collect_keys, (NoDup_nil_2 (A:=string)).
  - intros q. unfold dict.keys. rewrite list_elem_of_fmap. split.
    + intros ([q' v] & -> & Hin%TF_items). cbn.
      by destruct (TF_table_entry _ _ _ Hclean Hin).
    + intros Hin. exists (q, spec.recorded_answers q (facts c)).
      split; [done|]. apply TF_items. by apply TF_table_lookup.
Qed.

Lemma true_or_false_one_record_per_question_witness :
  exists c st',
    Section_get_category examples.sky = Ok c
    /\ build {| self := c; gen := examples.draws |} = (Ok tt, st')
    /\ NoDup (r_question <$> q_and_a (self st'))
    /\ (forall q, q ∈ r_question <$> q_and_a (self st')
                  <-> q ∈ spec.all_questions (facts c)).
Proof.
  eexists _, _. split; [vm_compute; reflexivity|].
  lazymatch goal with
  | |- ?run /\ _ => assert (Hrun : run) by (vm_compute; reflexivity)
  end.
  split; [exact Hrun|].
  eapply (true_or_false_one_record_per_question examples.sky _
            examples.draws); [vm_compute; reflexivity|reflexivity|exact Hrun].
Defined.

Lemma all_questions_group q kd fs :
  q ∈ spec.all_questions (spec.group kd fs) -> q ∈ spec.all_questions fs.
Proof.
  intros (f & Hf & Hq)%all_questions_elem.
  unfold spec.group in Hf. apply list_elem_of_filter in Hf as [_ Hf].
  unfold spec.all_questions. apply elem_of_union_list.
  exists (question_texts f). split; [|done].
  apply list_elem_of_fmap. by exists f.
Qed.

(** X12. A matching or multiple-choice category that the structural model
    constructed and whose build completes asks every question text of its
    facts and no other text. *)
Theorem matching_asks_every_question category c g st' :
  Section_get_category category = Ok c ->
  cclass c <> TrueOrFalse ->
  build {| self := c; gen := g |} = (Ok tt, st') ->
  forall q, q ∈ r_question <$> q_and_a (self st')
            <-> q ∈ spec.all_questions (facts c).
Proof.
  intros Hc Hcls Hrun q. apply get_category_Ok in Hc as [Hnil Hvalid].
  assert (Hclean : Forall spec.clean (facts c)).
  { eapply Forall_impl; [exact Hvalid|]. intros f (Hf & _). by apply fresh_clean. }
  apply build_appends in Hrun as (_ & _ & batch & Hb & Hq).
  cbn [self] in Hb, Hq. rewrite Hnil in Hb. cbn in Hb. rewrite Hb, Hq.
  assert (spec.questions_asked c
          = mjoin ((fun kg : option string * group =>
                      elements (dom (g_question kg.2)))
                   <$> dict.items (MCM_collect (facts c) ∅).2)) as ->.
  { unfold spec.questions_asked. by destruct (cclass c). }
  rewrite list_elem_of_join. split.
  - intros (l & Hql & ([kd grp] & -> & Hkg%MCM_items)
                       %list_elem_of_fmap).
    cbn [snd] in Hql. apply elem_of_elements in Hql.
    destruct (MCM_collect_table (facts c) ∅ kd Hclean) as (Hdq & _ & _).
    rewrite Hkg, dict_lookup_empty in Hdq.
    cbn [default from_option id empty_group g_question] in Hdq.
    rewrite dict_dom_empty, (left_id_L ∅ (∪)) in Hdq. rewrite Hdq in Hql.
    by eapply all_questions_group.
  - intros (f & Hf & Hqf)%all_questions_elem.
    destruct (MCM_collect_table (facts c) ∅ (kind f) Hclean) as (Hdq & _ & _).
    rewrite dict_lookup_empty in Hdq.
    cbn [default from_option id empty_group g_question] in Hdq.
    rewrite dict_dom_empty, (left_id_L ∅ (∪)) in Hdq.
    assert (Hin : q ∈ spec.all_questions (spec.group (kind f) (facts c))).
    { unfold spec.all_questions. apply elem_of_union_list.
      exists (question_texts f). split; [|done].
      apply list_elem_of_fmap. exists f. split; [done|].
      unfold spec.group. by apply list_elem_of_filter. }
    rewrite <- Hdq in Hin.
    destruct ((MCM_collect (facts c) ∅).2 !! kind f) as [grp|] eqn:Hk.
    + exists (elements (dom (g_question grp))). split.
      * by apply elem_of_elements.
      * apply list_elem_of_fmap. exists (kind f, grp). split; [done|].
        by apply MCM_items.
    + cbn [default from_option id empty_group g_question] in Hin.
      by rewrite dict_dom_empty in Hin.
Qed.

Lemma matching_asks_every_question_witness :
  exists c st',
    Section_get_category examples.colors = Ok c
    /\ build {| self := c; gen := examples.draws |} = (Ok tt, st')
    /\ forall q, q ∈ r_question <$> q_and_a (self st')
                 <-> q ∈ spec.all_questions (facts c).
Proof.
  eexists _, _. split; [vm_compute; reflexivity|].
  lazymatch goal with
  | |- ?run /\ _ => assert (Hrun : run) by (vm_compute; reflexivity)
  end.
  split; [exact Hrun|].
  eapply (matching_asks_every_question examples.colors _ examples.draws);
    [vm_compute; reflexivity|done|exact Hrun].
Defined.

End builder_facts.

(** ** Which trees are accepted *)

Section acceptance_facts.

Import testbank.

Lemma Fact_sort_texts children tf qs ans qs' ans' :
  quizcore.Fact_sort children tf qs ans = Ok (qs', ans') ->
  quizcore.q_text <$> qs'
  = (quizcore.q_text <$> qs) ++ props.texts_of Question children
  /\ quizcore.a_text <$> ans'
     = (quizcore.a_text <$> ans) ++ props.texts_of Answer children.
Proof.
  unfold props.texts_of. revert qs ans.
  induction children as [|c l IH]; intros qs ans; cbn [quizcore.Fact_sort].
  - intros [= <- <-]. by rewrite !app_nil_r.
  - rewrite !filter_cons. destruct (cls c) eqn:Hc; try done.
    + intros [-> ->]%IH. rewrite decide_True, decide_False by done.
      rewrite fmap_app, fmap_cons. cbn. by rewrite <- app_assoc.
    + unfold quizcore.Answer_init. destruct (tf && _); [done|]. cbn.
      intros [-> ->]%IH. rewrite decide_False, decide_True by done.
      rewrite fmap_app, fmap_cons. cbn. by rewrite <- app_assoc.
Qed.

(** X13. A fact that the structural model constructed keeps the label of
    its node and the texts of the question children and of the answer
    children, each in document order. *)
Theorem fact_keeps_texts fact tf f :
  quizcore.Fact_init fact tf = Ok f ->
  quizcore.kind f = attr fact
  /\ quizcore.q_text <$> quizcore.questions f
     = props.texts_of Question (children fact)
  /\ quizcore.a_text <$> quizcore.answers f
     = props.texts_of Answer (children fact).
Proof.
  unfold quizcore.Fact_init.
  destruct (quizcore.Fact_sort _ _ _ _) as [[qs ans]|] eqn:Hsort; [|done].
  apply Fact_sort_texts in Hsort as [Hq Ha]. cbn.
  destruct ans; [done|]. by intros [= <-].
Qed.

Lemma fact_keeps_texts_witness :
  exists f,
    quizcore.Fact_init
      (Node Fact None "" [examples.Q "Sky is blue"; examples.A "True";
                           examples.Q "Sea is blue"]) true = Ok f
    /\ quizcore.q_text <$> quizcore.questions f
       = ["Sky is blue"; "Sea is blue"].
Proof.
  eexists. split; [vm_compute; reflexivity|].
  eapply (fact_keeps_texts
            (Node Fact None "" [examples.Q "Sky is blue"; examples.A "True";
                                 examples.Q "Sea is blue"]) true).
  vm_compute; reflexivity.
Defined.

Lemma map_raise_Raise_inv {A B} (f : A -> outcome B) l :
  is_Raise (map_raise f l) -> exists x, x ∈ l /\ is_Raise (f x).
Proof.
  induction l as [|x l IH]; cbn; [done|].
  destruct (f x) as [y|e] eqn:Hx; cbn.
  - destruct (map_raise f l); cbn; [done|]. intros _.
    destruct (IH I) as (z & Hz & Hfz). exists z. split; [by right|done].
  - intros _. exists x. split; [by left|]. by rewrite Hx.
Qed.

Lemma map_raise_nil {A B} (f : A -> outcome B) l :
  map_raise f l = Ok [] -> l = [].
Proof. intros H%map_raise_Ok. by inversion H. Qed.

Lemma Fact_sort_foreign children tf qs ans c :
  c ∈ children -> cls c <> Question -> cls c <> Answer ->
  is_Raise (quizcore.Fact_sort children tf qs ans).
Proof.
  intros Hc Hq Ha. revert qs ans.
  induction Hc as [c l|c d l Hc IH]; intros qs ans; cbn;
    try specialize (IH Hq Ha).
  - by destruct (cls c).
  - destruct (cls d); try exact I; [apply IH|].
    destruct (quizcore.Answer_init d tf); [apply IH|exact I].
Qed.

Lemma Fact_sort_Raise_inv children tf qs ans :
  is_Raise (quizcore.Fact_sort children tf qs ans) ->
  props.foreign_fact (Node Fact None "" children)
  \/ (tf = true /\ exists a, a ∈ children /\ spec.invalid_answer a).
Proof.
  revert qs ans. induction children as [|c l IH]; intros qs ans; cbn; [done|].
  assert (Hlift : props.foreign_fact (Node Fact None "" l)
                  \/ tf = true /\ (exists a, a ∈ l /\ spec.invalid_answer a) ->
                  props.foreign_fact (Node Fact None "" (c :: l))
                  \/ tf = true
                     /\ (exists a, a ∈ c :: l /\ spec.invalid_answer a)).
  { intros [(d & Hd & Hf)|(Htf & a & Ha & Hbad)].
    - left. exists d. split; [by right|done].
    - right. split; [done|]. exists a. split; [by right|done]. }
  destruct (cls c) eqn:Hc;
    try (intros _; left; exists c; split; [by left|by rewrite Hc]).
  - intros H%IH. by apply Hlift.
  - unfold quizcore.Answer_init.
    destruct tf; cbn.
    + case_bool_decide as Ht; cbn.
      * intros H%IH. by apply Hlift.
      * intros _. right. split; [done|]. exists c. split; [by left|].
        rewrite !elem_of_cons, elem_of_nil in Ht. split; [done|]. tauto.
    + intros H%IH. by apply Hlift.
Qed.

Lemma texts_of_nil c children :
  props.texts_of c children = [] -> forall n, n ∈ children -> cls n <> c.
Proof.
  unfold props.texts_of. intros Hnil n Hn Hc.
  apply fmap_nil_inv in Hnil.
  assert (n ∈ filter (fun n => cls n = c) children) as Hin
    by (by apply list_elem_of_filter).
  rewrite Hnil in Hin. by apply elem_of_nil in Hin.
Qed.

Lemma Fact_init_Raise_inv fact tf :
  is_Raise (quizcore.Fact_init fact tf) ->
  spec.bad_fact tf fact \/ props.foreign_fact fact.
Proof.
  unfold quizcore.Fact_init.
  destruct (quizcore.Fact_sort _ _ _ _) as [[qs ans]|e] eqn:Hsort; cbn.
  - destruct ans; [|done]. intros _. left. left.
    apply Fact_sort_texts in Hsort as [_ Ha]. cbn in Ha.
    intros n Hn. eapply texts_of_nil; [symmetry; exact Ha|exact Hn].
  - intros _.
    destruct (Fact_sort_Raise_inv (children fact) tf [] []) as [Hf|Hb].
    + by rewrite Hsort.
    + right. exact Hf.
    + left. right. exact Hb.
Qed.

Lemma CATEGORY_unknown key :
  quizcore._CATEGORY !! key = None -> ~ spec.recognized (Some key).
Proof.
  intros Hk [[= ->]|[[= ->]|[= ->]]]; by vm_compute in Hk.
Qed.

Lemma get_category_Raise_inv category :
  is_Raise (quizcore.Section_get_category category) ->
  spec.bad_category category
  \/ exists f, f ∈ children category /\ props.foreign_fact f.
Proof.
  unfold quizcore.Section_get_category, spec.bad_category.
  destruct (attr category) as [key|] eqn:Hattr; cbn.
  2:{ intros _. left. left. intros [?|[?|?]]; done. }
  destruct (quizcore._CATEGORY !! key) as [c|] eqn:Hkey.
  2:{ intros _. left. left. by apply CATEGORY_unknown. }
  destruct (CATEGORY_lookup _ _ Hkey) as [_ Htf].
  unfold quizcore.Category_init.
  destruct (map_raise _ _) as [fs|e] eqn:Hfs; cbn.
  - destruct fs; [|done]. intros _. left. right. left.
    by eapply map_raise_nil.
  - intros _.
    destruct (map_raise_Raise_inv
                (fun child => quizcore.Fact_init child
                                (quizcore.is_TrueOrFalse c))
                (children category)) as (f & Hf & Hr).
    { by rewrite Hfs. }
    apply Fact_init_Raise_inv in Hr as [Hb|Hfor].
    + left. right. right. exists f. split; [done|]. by rewrite <- Htf.
    + right. by exists f.
Qed.

Lemma Fact_init_foreign fact tf :
  props.foreign_fact fact -> is_Raise (quizcore.Fact_init fact tf).
Proof.
  intros (c & Hc & Hq & Ha). unfold quizcore.Fact_init.
  pose proof (Fact_sort_foreign _ tf [] [] c Hc Hq Ha) as Hr.
  by destruct (quizcore.Fact_sort _ _ _ _).
Qed.

Lemma get_category_foreign category f :
  f ∈ children category -> props.foreign_fact f ->
  is_Raise (quizcore.Section_get_category category).
Proof.
  intros Hf Hfor. unfold quizcore.Section_get_category.
  destruct (attr category ≫= _) as [c|]; [|exact I].
  unfold quizcore.Category_init.
  pose proof (map_raise_fails
    (fun child => quizcore.Fact_init child (quizcore.is_TrueOrFalse c))
    (children category) f Hf (Fact_init_foreign _ _ Hfor)) as Hr.
  by destruct (map_raise _ (children category)).
Qed.

(** Why a constructor raises, level by level. *)
Lemma Section_init_Raise_inv section :
  is_Raise (quizcore.Section_init section) ->
  spec.bad_section section
  \/ exists c f, c ∈ children section /\ f ∈ children c
       /\ props.foreign_fact f.
Proof.
  unfold quizcore.Section_init, spec.bad_section.
  destruct (map_raise _ _) as [cs|e] eqn:Hcs; cbn.
  - destruct cs; [|done]. intros _. left. left. by eapply map_raise_nil.
  - intros _.
    destruct (map_raise_Raise_inv quizcore.Section_get_category
                (children section)) as (c & Hc & Hr); [by rewrite Hcs|].
    apply get_category_Raise_inv in Hr as [Hb|(f & Hf & Hfor)].
    + left. right. by exists c.
    + right. by exists c, f.
Qed.

Lemma Chapter_init_Raise_inv chapter :
  is_Raise (quizcore.Chapter_init chapter) ->
  spec.bad_chapter chapter
  \/ exists s c f, s ∈ children chapter /\ c ∈ children s
       /\ f ∈ children c /\ props.foreign_fact f.
Proof.
  unfold quizcore.Chapter_init, spec.bad_chapter.
  destruct (map_raise _ _) as [ss|e] eqn:Hss; cbn.
  - destruct ss; [|done]. intros _. left. left. by eapply map_raise_nil.
  - intros _.
    destruct (map_raise_Raise_inv quizcore.Section_init
                (children chapter)) as (s & Hs & Hr); [by rewrite Hss|].
    apply Section_init_Raise_inv in Hr as [Hb|(c & f & Hc & Hf & Hfor)].
    + left. right. by exists s.
    + right. by exists s, c, f.
Qed.

Lemma UnitTest_init_Raise_inv root :
  is_Raise (quizcore.UnitTest_init root) ->
  spec.malformed root \/ props.foreign root.
Proof.
  unfold quizcore.UnitTest_init, spec.malformed, props.foreign.
  destruct (map_raise _ _) as [cs|e] eqn:Hcs; cbn.
  - destruct cs; [|done]. intros _. left. left. by eapply map_raise_nil.
  - intros _.
    destruct (map_raise_Raise_inv quizcore.Chapter_init
                (children root)) as (ch & Hch & Hr); [by rewrite Hcs|].
    apply Chapter_init_Raise_inv in Hr
      as [Hb|(s & c & f & Hs & Hc & Hf & Hfor)].
    + left. right. by exists ch.
    + right. by exists ch, s, c, f.
Qed.

Lemma UnitTest_init_foreign root :
  props.foreign root -> is_Raise (quizcore.UnitTest_init root).
Proof.
  intros (ch & s & c & f & Hch & Hs & Hc & Hf & Hfor).
  pose proof (get_category_foreign c f Hf Hfor) as Hrc.
  assert (Hrs : is_Raise (quizcore.Section_init s)).
  { unfold quizcore.Section_init.
    pose proof (map_raise_fails _ _ c Hc Hrc) as Hr.
    by destruct (map_raise _ (children s)). }
  assert (Hrch : is_Raise (quizcore.Chapter_init ch)).
  { unfold quizcore.Chapter_init.
    pose proof (map_raise_fails _ _ s Hs Hrs) as Hr.
    by destruct (map_raise _ (children ch)). }
  unfold quizcore.UnitTest_init.
  pose proof (map_raise_fails _ _ ch Hch Hrch) as Hr.
  by destruct (map_raise _ (children root)).
Qed.

(** X14. The construction from a document tree raises exactly when some
    level of the tree is empty, some category type is unknown, some fact
    has no answer, some true/false answer is neither "True" nor "False",
    or some fact has a child that is neither a question nor an answer;
    every other tree is accepted. *)
Theorem rejected_exactly_when_malformed root :
  (exists e, FAQ_init root = Raise e)
  <-> spec.malformed root \/ props.foreign root.
Proof.
  unfold FAQ_init. split.
  - intros [e He]. apply UnitTest_init_Raise_inv.
    by destruct (quizcore.UnitTest_init root).
  - intros H.
    assert (Hr : is_Raise (quizcore.UnitTest_init root)).
    { destruct H; [by apply UnitTest_init_bad|by apply UnitTest_init_foreign]. }
    destruct (quizcore.UnitTest_init root); [done|]. by eexists.
Qed.

End acceptance_facts.

(** ** The handler of the parser *)

Section parser_facts.

Import testbank BankParser.

Lemma pop_snoc {A} (l : list A) x : pop (l ++ [x]) = Some (l, x).
Proof.
  induction l as [|y l IH]; cbn; [done|]. by rewrite IH.
Qed.

Lemma pop_Some {A} (l rest : list A) x :
  pop l = Some (rest, x) -> l = rest ++ [x].
Proof.
  revert rest. induction l as [|y l IH]; intros rest; cbn; [done|].
  destruct (pop l) as [[r z]|] eqn:Hp.
  - intros [= <- <-]. cbn. f_equal. by apply IH.
  - intros [= <- <-]. destruct l as [|w l]; [done|].
    cbn in Hp. by destruct (pop l) as [[? ?]|].
Qed.

Lemma pop_None {A} (l : list A) : pop l = None -> l = [].
Proof.
  destruct l as [|y l]; cbn; [done|]. by destruct (pop l) as [[? ?]|].
Qed.

Lemma shaped_new c a :
  match c with
  | TestBank | Chapter | Section => is_Some a
  | Category => spec.recognized a
  | Fact => True
  | Question | Answer => a = None
  end ->
  shape.shaped (new_node c a).
Proof.
  intros Ha. unfold shape.shaped. destruct c; cbn;
    unfold shape.testbank, shape.chapter, shape.section, shape.category,
      shape.fact, shape.leaf; cbn; auto.
Qed.

Lemma shaped_add_text content n :
  shape.shaped n -> shape.shaped (add_text content n).
Proof. by destruct n as [[] a t l]. Qed.

Lemma shaped_add_child n parent :
  shape.shaped parent -> shape.shaped n -> shape.nests parent n ->
  shape.shaped (add_child n parent).
Proof.
  destruct parent as [c a t l], n as [c' a' t' l'].
  unfold shape.shaped, shape.nests. cbn.
  destruct c, c'; try done; cbn;
    unfold shape.testbank, shape.chapter, shape.section, shape.category,
      shape.fact, shape.nests; cbn;
    intros Hp Hn Hnest; destruct_and?; split_and?; try done;
    apply Forall_app; (split; [done|]); apply Forall_singleton; cbn;
    by split_and?.
Qed.

Lemma stack_inv b st :
  shape.stack (b :: st) ->
  match st with
  | [] => cls b = TestBank
  | a :: _ => shape.nests a b /\ shape.stack st
  end.
Proof. by destruct st. Qed.

Lemma stack_push n parent st :
  shape.nests parent n -> shape.stack (parent :: st) ->
  shape.stack (n :: parent :: st).
Proof. by split. Qed.

Lemma stack_replace b b' st :
  cls b' = cls b -> attr b' = attr b ->
  shape.stack (b :: st) -> shape.stack (b' :: st).
Proof.
  intros Hc Ha. destruct st as [|a st]; cbn; [congruence|].
  unfold shape.nests. by rewrite Hc, Ha.
Qed.

Lemma stack_tail b st : shape.stack (b :: st) -> shape.stack st.
Proof.
  destruct st as [|a st]; [done|]. by intros [_ ?].
Qed.

Lemma tag_inj c c' : shape.tag c = shape.tag c' -> c = c'.
Proof. by destruct c, c'. Qed.

Lemma Category_init_Done a n :
  Category_init a = Done n ->
  n = new_node Category (Some a) /\ spec.recognized (Some a).
Proof.
  unfold Category_init. case_decide as Hin; [|done]. intros [= <-].
  split; [done|]. unfold spec.recognized.
  rewrite !elem_of_cons, elem_of_nil in Hin.
  destruct Hin as [->|[->|[->|[]]]]; auto.
Qed.

Lemma named_Done c attributes key n :
  named c attributes key = Done n -> exists v, n = new_node c (Some v).
Proof.
  unfold named. destruct (getValue _ _); [|done]. intros [= <-]. by eexists.
Qed.

(** The nodes that [startElement] makes below the root. *)
Lemma inside_Done c msg make p p' :
  inside c msg make p = (Done tt, p') ->
  exists rest parent n,
    context p = rest ++ [parent] /\ cls parent = c
    /\ make parent = Done n /\ p' = push n p.
Proof.
  unfold inside. destruct (pop (context p)) as [[rest parent]|] eqn:Hp;
    [|done].
  apply pop_Some in Hp. case_decide as Hc; [|done].
  destruct (make parent) as [n|] eqn:Hm; [|done]. intros [= <-].
  by exists rest, parent, n.
Qed.

Lemma parsing_push open p n :
  shape.parsing open p -> shape.shaped n ->
  match reverse (context p) with
  | [] => cls n = TestBank
  | parent :: _ => shape.nests parent n
  end ->
  shape.parsing (shape.tag (cls n) :: open) (push n p).
Proof.
  unfold shape.parsing, push. cbn [context root_node]. rewrite reverse_snoc.
  intros (Hsh & Hst & Hop & Hroot) Hn Hnest. split_and?;
    [| |by rewrite fmap_cons, Hop|done].
  - by constructor.
  - destruct (reverse (context p)); [done|]. by apply stack_push.
Qed.

Ltac start_inside H :=
  apply inside_Done in H as (rest & parent & n & Hctx & Hcls & Hmake & ->).

Lemma startElement_parsing open name attributes p p' :
  shape.parsing open p ->
  startElement name attributes p = (Done tt, p') ->
  shape.parsing (name :: open) p'.
Proof.
  intros Hinv. unfold startElement.
  repeat case_decide; subst.
  - destruct (context p) eqn:Hctx; [|done].
    destruct (named _ _ _) as [n|] eqn:Hn; [|done]. intros [= <-].
    apply named_Done in Hn as [v ->].
    apply (parsing_push open p (new_node TestBank (Some v)));
      [done|by apply shaped_new|by rewrite Hctx].
  - intros Hstart. start_inside Hstart. apply named_Done in Hmake as [v ->].
    apply (parsing_push open p (new_node Chapter (Some v)));
      [done|by apply shaped_new|].
    rewrite Hctx, reverse_snoc. unfold shape.nests. by rewrite Hcls.
  - intros Hstart. start_inside Hstart. apply named_Done in Hmake as [v ->].
    apply (parsing_push open p (new_node Section (Some v)));
      [done|by apply shaped_new|].
    rewrite Hctx, reverse_snoc. unfold shape.nests. by rewrite Hcls.
  - intros Hstart. start_inside Hstart.
    destruct (getValue _ _) as [v|]; [|done].
    apply Category_init_Done in Hmake as [-> Hrec].
    apply (parsing_push open p (new_node Category (Some v)));
      [done|by apply shaped_new|].
    rewrite Hctx, reverse_snoc. unfold shape.nests. by rewrite Hcls.
  - intros Hstart. start_inside Hstart.
    assert (exists a, n = new_node Fact a
              /\ if decide (attr parent = Some "multiple_choice")
                 then is_Some a else a = None)
      as (a & -> & Ha).
    { case_decide as Hmc.
      - apply named_Done in Hmake as [v ->]. by eexists.
      - injection Hmake as <-. by eexists. }
    apply (parsing_push open p (new_node Fact a));
      [done|by apply shaped_new|].
    rewrite Hctx, reverse_snoc. unfold shape.nests. by rewrite Hcls.
  - intros Hstart. start_inside Hstart. injection Hmake as <-.
    apply (parsing_push open p (new_node Question None));
      [done|by apply shaped_new|].
    rewrite Hctx, reverse_snoc. unfold shape.nests. by rewrite Hcls.
  - intros Hstart. start_inside Hstart. injection Hmake as <-.
    apply (parsing_push open p (new_node Answer None));
      [done|by apply shaped_new|].
    rewrite Hctx, reverse_snoc. unfold shape.nests. by rewrite Hcls.
  - done.
Qed.

Lemma characters_parsing open content p p' :
  shape.parsing open p ->
  characters content p = (Done tt, p') ->
  shape.parsing open p'.
Proof.
  unfold characters, shape.parsing.
  destruct (pop (context p)) as [[rest n]|] eqn:Hp; [|done].
  apply pop_Some in Hp. rewrite Hp, reverse_snoc.
  intros (Hsh & Hst & Hop & Hroot) [= <-]. cbn [context root_node].
  rewrite reverse_snoc.
  apply Forall_cons in Hsh as [Hn Hsh]. split_and?; [| |done|done].
  - constructor; [by apply shaped_add_text|done].
  - by eapply stack_replace.
Qed.

Lemma endElement_parsing inner outer p p' :
  shape.parsing (inner :: outer) p ->
  endElement inner p = (Done tt, p') ->
  shape.parsing outer p'.
Proof.
  unfold endElement, shape.parsing.
  destruct (pop (context p)) as [[rest n]|] eqn:Hp; [|done].
  apply pop_Some in Hp. rewrite Hp, reverse_snoc.
  intros (Hsh & Hst & Hop & Hroot). cbn in Hop. injection Hop as Htag Hop.
  apply Forall_cons in Hsh as [Hn Hsh].
  case_decide as Hname.
  - intros [= <-]. cbn [context root_node].
    split_and?; [done|by eapply stack_tail|done|].
    intros t [= <-]. subst inner.
    assert (cls n = TestBank) as Hc by (by apply tag_inj).
    unfold shape.shaped in Hn. by rewrite Hc in Hn.
  - destruct (pop rest) as [[rest' parent]|] eqn:Hp'; [|done].
    apply pop_Some in Hp'. subst rest. rewrite reverse_snoc in *.
    intros [= <-]. cbn [context root_node]. rewrite reverse_snoc.
    apply Forall_cons in Hsh as [Hparent Hsh].
    apply stack_inv in Hst as [Hnest Hst]. cbn in Hop.
    split_and?; [| |done|done].
    + constructor; [by apply shaped_add_child|done].
    + by eapply stack_replace.
Qed.

Lemma feed_parsing events open p p' :
  shape.well_nested open events = true ->
  shape.parsing open p ->
  feed events p = (Done tt, p') ->
  shape.parsing [] p'.
Proof.
  revert open p. induction events as [|ev events IH]; intros open p; cbn.
  - intros ->%bool_decide_eq_true Hinv [= <-]. done.
  - destruct ev as [name attributes|content|name]; cbn.
    + intros Hwn Hinv.
      destruct (startElement name attributes p) as [[[]|e] p1] eqn:Hs; [|done].
      apply (IH _ _ Hwn). by eapply startElement_parsing.
    + intros Hwn Hinv.
      destruct (characters content p) as [[[]|e] p1] eqn:Hs; [|done].
      apply (IH _ _ Hwn). by eapply characters_parsing.
    + destruct open as [|inner outer]; [done|].
      intros [->%bool_decide_eq_true Hwn]%andb_true_iff Hinv.
      destruct (endElement inner p) as [[[]|e] p1] eqn:Hs; [|done].
      apply (IH _ _ Hwn). by eapply endElement_parsing.
Qed.

Lemma parsing_init : shape.parsing [] init.
Proof. unfold shape.parsing. cbn. by split_and?. Qed.

Lemma parse_shaped events root :
  shape.well_nested [] events = true ->
  parse events = Done (Some root) ->
  shape.testbank root.
Proof.
  unfold parse. intros Hwn.
  destruct (feed events init) as [[[]|e] p] eqn:Hfeed; [|done].
  intros [= Hroot].
  by destruct (feed_parsing _ _ _ _ Hwn parsing_init Hfeed) as (_ & _ & _ & H);
    apply H.
Qed.

(** X15. The tree that the parser returns for a well-nested document
    has a named test bank at its root, named chapters below it, then
    named sections, categories of one of the three recognized types,
    facts, and questions and answers with no attribute and no children; a
    fact has a type under a category of type [multiple_choice] and none
    under the others. *)
Theorem parsed_tree_levels events root :
  shape.well_nested [] events = true ->
  parse events = Done (Some root) ->
  cls root = TestBank /\ is_Some (attr root)
  /\ forall ch, ch ∈ children root ->
     cls ch = Chapter /\ is_Some (attr ch)
     /\ forall s, s ∈ children ch ->
        cls s = Section /\ is_Some (attr s)
        /\ forall c, c ∈ children s ->
           cls c = Category /\ spec.recognized (attr c)
           /\ forall f, f ∈ children c ->
              cls f = Fact
              /\ (if decide (attr c = Some "multiple_choice")
                  then is_Some (attr f) else attr f = None)
              /\ forall n, n ∈ children f ->
                 (cls n = Question \/ cls n = Answer)
                 /\ attr n = None /\ children n = [].
Proof.
  intros Hwn Hparse.
  destruct (parse_shaped _ _ Hwn Hparse) as (Hroot & Hname & Hchs).
  split_and?; [done..|].
  intros ch Hch. rewrite Forall_forall in Hchs.
  destruct (Hchs _ Hch) as (_ & Hc & Hnch & Hss). split_and?; [done..|].
  intros s Hs. rewrite Forall_forall in Hss.
  destruct (Hss _ Hs) as (_ & Hc' & Hns' & Hcs). split_and?; [done..|].
  intros c Hcin. rewrite Forall_forall in Hcs.
  destruct (Hcs _ Hcin) as (_ & Hcc & Hrec & Hfs). split_and?; [done..|].
  intros f Hf. rewrite Forall_forall in Hfs.
  destruct (Hfs _ Hf) as (Hnest & Hcf & Hns).
  unfold shape.nests in Hnest. rewrite Hcc, Hcf in Hnest.
  split_and?; [done..|].
  intros n Hn. rewrite Forall_forall in Hns.
  destruct (Hns _ Hn) as (Hnest' & Hattr & Hleaf).
  unfold shape.nests in Hnest'. rewrite Hcf in Hnest'.
  split_and?; [|done..]. destruct (cls n); auto; done.
Qed.

Lemma parsed_tree_levels_witness :
  parse documents.colors = Done (Some examples.bank)
  /\ cls examples.bank = TestBank.
Proof.
  split; [vm_compute; reflexivity|].
  eapply (parsed_tree_levels documents.colors); vm_compute; reflexivity.
Defined.

Lemma map_raise_RuntimeError {A B} (f : A -> outcome B) l :
  Forall (fun x => shape.value_or_RuntimeError (f x)) l ->
  shape.value_or_RuntimeError (map_raise f l).
Proof.
  induction 1 as [|x l Hx _ IH]; cbn; [done|].
  destruct (f x); [|done]. cbn. by destruct (map_raise f l).
Qed.

Lemma Fact_sort_RuntimeError fact l tf qs ans :
  cls fact = Fact ->
  Forall (fun n => shape.nests fact n /\ shape.leaf n) l ->
  shape.value_or_RuntimeError (quizcore.Fact_sort l tf qs ans).
Proof.
  intros Hf Hl. revert qs ans.
  induction Hl as [|n l [Hn _] _ IH]; intros qs ans; cbn; [done|].
  unfold shape.nests in Hn. rewrite Hf in Hn.
  destruct (cls n); cbn in Hn; try done.
  unfold quizcore.Answer_init. destruct (tf && _); [done|]. apply IH.
Qed.

Lemma Fact_init_RuntimeError fact tf :
  shape.fact fact -> shape.value_or_RuntimeError (quizcore.Fact_init fact tf).
Proof.
  intros [Hf Hl]. unfold quizcore.Fact_init.
  pose proof (Fact_sort_RuntimeError fact _ tf [] [] Hf Hl) as Hs.
  destruct (quizcore.Fact_sort _ _ _ _) as [[qs ans]|e]; [|done].
  cbn. by destruct ans.
Qed.

Lemma get_category_RuntimeError category :
  shape.category category ->
  shape.value_or_RuntimeError (quizcore.Section_get_category category).
Proof.
  intros (_ & Hrec & Hfs). unfold quizcore.Section_get_category.
  assert (exists c, attr category ≫= (fun key => quizcore._CATEGORY !! key)
                    = Some c) as [c ->].
  { destruct Hrec as [-> | [-> | ->]]; by eexists. }
  unfold quizcore.Category_init.
  pose proof (map_raise_RuntimeError
    (fun child => quizcore.Fact_init child (quizcore.is_TrueOrFalse c))
    (children category)) as Hm.
  destruct (map_raise _ _) as [fs|e].
  - cbn. by destruct fs.
  - apply Hm. eapply Forall_impl; [exact Hfs|].
    intros f [_ Hf]. by apply Fact_init_RuntimeError.
Qed.

Lemma Section_init_RuntimeError section :
  shape.section section ->
  shape.value_or_RuntimeError (quizcore.Section_init section).
Proof.
  intros (_ & _ & Hcs). unfold quizcore.Section_init.
  pose proof (map_raise_RuntimeError quizcore.Section_get_category
                (children section)) as Hm.
  destruct (map_raise _ _) as [cs|e].
  - cbn. by destruct cs.
  - apply Hm. eapply Forall_impl; [exact Hcs|].
    intros c [_ Hc]. by apply get_category_RuntimeError.
Qed.

Lemma Chapter_init_RuntimeError chapter :
  shape.chapter chapter ->
  shape.value_or_RuntimeError (quizcore.Chapter_init chapter).
Proof.
  intros (_ & _ & Hss). unfold quizcore.Chapter_init.
  pose proof (map_raise_RuntimeError quizcore.Section_init
                (children chapter)) as Hm.
  destruct (map_raise _ _) as [ss|e].
  - cbn. by destruct ss.
  - apply Hm. eapply Forall_impl; [exact Hss|].
    intros s [_ Hs]. by apply Section_init_RuntimeError.
Qed.

Lemma UnitTest_init_RuntimeError root :
  shape.testbank root ->
  shape.value_or_RuntimeError (quizcore.UnitTest_init root).
Proof.
  intros (_ & _ & Hchs). unfold quizcore.UnitTest_init.
  pose proof (map_raise_RuntimeError quizcore.Chapter_init
                (children root)) as Hm.
  destruct (map_raise _ _) as [cs|e].
  - cbn. by destruct cs.
  - apply Hm. eapply Forall_impl; [exact Hchs|].
    intros ch [_ Hch]. by apply Chapter_init_RuntimeError.
Qed.

(** X16. Whatever the parser returns for a well-nested document, the
    construction of the quiz from it succeeds or raises a [RuntimeError]:
    never the [ValueError] of an unknown category type, never the
    [TypeError] of a misplaced child. *)
Theorem parsed_bank_fails_only_with_RuntimeError events root :
  shape.well_nested [] events = true ->
  parse events = Done (Some root) ->
  (exists faq, FAQ_init root = Ok faq)
  \/ (exists msg, FAQ_init root = Raise (RuntimeError msg)).
Proof.
  intros Hwn Hparse.
  pose proof (UnitTest_init_RuntimeError root
                (parse_shaped _ _ Hwn Hparse)) as H.
  unfold FAQ_init.
  destruct (quizcore.UnitTest_init root) as [t|[msg| | |]]; try done.
  - left. by eexists.
  - right. by eexists.
Qed.

Lemma parsed_bank_fails_only_with_RuntimeError_witness :
  parse documents.hollow = Done (Some examples.hollow)
  /\ ((exists faq, FAQ_init examples.hollow = Ok faq)
      \/ (exists msg, FAQ_init examples.hollow = Raise (RuntimeError msg))).
Proof.
  split; [vm_compute; reflexivity|].
  eapply (parsed_bank_fails_only_with_RuntimeError documents.hollow);
    vm_compute; reflexivity.
Defined.

Lemma feed_app events events' p :
  feed (events ++ events') p
  = match feed events p with
    | (Done _, p') => feed events' p'
    | failed => failed
    end.
Proof.
  revert p. induction events as [|ev events IH]; intros p; cbn; [done|].
  destruct (handle ev p) as [[[]|e] p1]; [apply IH|done].
Qed.

Lemma string_app_assoc (a b c : string) : (a +:+ b) +:+ c = a +:+ (b +:+ c).
Proof.
  induction a as [|x a IH]; [done|].
  change (String x ((a +:+ b) +:+ c) = String x (a +:+ (b +:+ c))).
  by rewrite IH.
Qed.

(** X17. The tree does not depend on how the text of an element is cut
    into pieces: two consecutive pieces of character data leave the
    handler as the one piece made of both does, also when they fail. *)
Theorem characters_in_pieces before a b after p :
  feed (before ++ [Characters a; Characters b] ++ after) p
  = feed (before ++ [Characters (a +:+ b)] ++ after) p.
Proof.
  rewrite !feed_app. destruct (feed before p) as [[[]|e] p1]; [|done].
  rewrite !feed_app. cbn [feed handle]. unfold characters.
  destruct (pop (context p1)) as [[rest n]|] eqn:Hp; [|done].
  cbn [context root_node]. rewrite pop_snoc. cbn [context root_node].
  unfold add_text. cbn [cls attr text children]. by rewrite string_app_assoc.
Qed.

(** The induction principle of trees. *)
Lemma node_children_ind (P : node -> Prop) :
  (forall c a t l, Forall P l -> P (Node c a t l)) -> forall n, P n.
Proof.
  intros step. fix IH 1. intros [c a t l]. apply step.
  induction l as [|x l IHl]; constructor; [apply IH|exact IHl].
Qed.

Lemma document_unfold c a t l :
  shape.document (Node c a t l)
  = StartElement (shape.tag c) (shape.attributes (Node c a t l))
    :: (if decide (t = "") then [] else [Characters t])
    ++ concat (map shape.document l) ++ [EndElement (shape.tag c)].
Proof. done. Qed.

Lemma well_nested_document n open rest :
  shape.well_nested open (shape.document n ++ rest)
  = shape.well_nested open rest.
Proof.
  revert open rest. induction n as [c a t l IH] using node_children_ind.
  intros open rest. rewrite document_unfold.
  cbn [app shape.well_nested]. rewrite <- !app_assoc.
  assert (Hl : forall rest',
    shape.well_nested (shape.tag c :: open)
      (concat (map shape.document l) ++ rest')
    = shape.well_nested (shape.tag c :: open) rest').
  { induction IH as [|x l Hx _ IHl]; intros rest'; cbn [map concat app];
      [done|].
    by rewrite <- app_assoc, Hx, IHl. }
  case_decide; cbn [app shape.well_nested]; rewrite Hl;
    cbn [app shape.well_nested]; by rewrite bool_decide_eq_true_2.
Qed.

Lemma nests_parent parent parent' n :
  cls parent' = cls parent -> attr parent' = attr parent ->
  shape.nests parent n -> shape.nests parent' n.
Proof. unfold shape.nests. by intros -> ->. Qed.

Lemma shaped_children n :
  shape.shaped n ->
  Forall (fun x => shape.shaped x /\ shape.nests n x) (children n).
Proof.
  unfold shape.shaped. destruct (cls n) eqn:Hc.
  - intros (_ & _ & Hl). eapply Forall_impl; [exact Hl|].
    intros x [Hnx Hx]. split; [|done]. by rewrite (proj1 Hx).
  - intros (_ & _ & Hl). eapply Forall_impl; [exact Hl|].
    intros x [Hnx Hx]. split; [|done]. by rewrite (proj1 Hx).
  - intros (_ & _ & Hl). eapply Forall_impl; [exact Hl|].
    intros x [Hnx Hx]. split; [|done]. by rewrite (proj1 Hx).
  - intros (_ & _ & Hl). eapply Forall_impl; [exact Hl|].
    intros x [Hnx Hx]. split; [|done]. by rewrite (proj1 Hx).
  - intros (_ & Hl). eapply Forall_impl; [exact Hl|].
    intros x [Hnx Hx]. split; [|done].
    unfold shape.nests in Hnx. rewrite Hc in Hnx. by destruct (cls x).
  - intros [_ ->]. constructor.
  - intros [_ ->]. constructor.
Qed.

(** The start tag of a node under the parent it nests in. *)
Lemma startElement_nested n parent ctx root :
  shape.shaped n -> shape.nests parent n ->
  startElement (shape.tag (cls n)) (shape.attributes n)
    {| context := ctx ++ [parent]; root_node := root |}
  = (Done tt, {| context := (ctx ++ [parent])
                            ++ [new_node (cls n) (attr n)];
                 root_node := root |}).
Proof.
  destruct n as [c a t l], parent as [pc pa pt pl].
  unfold shape.shaped, shape.nests, shape.attributes. cbn.
  destruct pc, c; try done; cbn;
    unfold shape.chapter, shape.section, shape.category, shape.fact,
      shape.leaf, spec.recognized; cbn;
    intros Hn Hnest; unfold startElement;
    repeat (rewrite decide_False by done); rewrite decide_True by done;
    unfold inside; cbn [context]; rewrite pop_snoc; cbn [cls attr];
    rewrite decide_True by done.
  - destruct Hn as (_ & [v ->] & _). unfold named, getValue.
    by rewrite lookup_singleton.
  - destruct Hn as (_ & [v ->] & _). unfold named, getValue.
    by rewrite lookup_singleton.
  - destruct Hn as (_ & Hrec & _). unfold getValue.
    destruct Hrec as [-> | [-> | ->]]; by rewrite lookup_singleton.
  - case_decide as Hmc.
    + destruct Hnest as [v ->]. unfold named, getValue.
      by rewrite lookup_singleton.
    + by rewrite Hnest.
  - by destruct Hn as [-> _].
  - by destruct Hn as [-> _].
Qed.

Lemma feed_text c a t ctx root rest :
  feed ((if decide (t = "") then [] else [Characters t]) ++ rest)
    {| context := ctx ++ [new_node c a]; root_node := root |}
  = feed rest {| context := ctx ++ [Node c a t []]; root_node := root |}.
Proof.
  case_decide as Ht; [by subst t|].
  cbn [app feed handle]. unfold characters. cbn [context root_node].
  by rewrite pop_snoc.
Qed.

(** The events of the children of a node, each of which, fed under its
    parent, is added to the children of the parent. *)
Lemma feed_children c a t l :
  Forall (fun n =>
    forall parent ctx root rest,
      shape.shaped n -> shape.nests parent n ->
      feed (shape.document n ++ rest)
        {| context := ctx ++ [parent]; root_node := root |}
      = feed rest
          {| context := ctx ++ [add_child n parent]; root_node := root |}) l ->
  forall seen ctx root rest,
    Forall (fun x => shape.shaped x /\ shape.nests (Node c a t seen) x) l ->
    feed (concat (map shape.document l) ++ rest)
      {| context := ctx ++ [Node c a t seen]; root_node := root |}
    = feed rest
        {| context := ctx ++ [Node c a t (seen ++ l)]; root_node := root |}.
Proof.
  induction 1 as [|x l Hx _ IHl]; intros seen ctx root rest Hl;
    cbn [map concat app].
  - by rewrite app_nil_r.
  - apply Forall_cons in Hl as [[Hsx Hnx] Hl].
    rewrite <- app_assoc, (Hx _ _ _ _ Hsx Hnx).
    unfold add_child at 1. cbn [cls attr text children].
    rewrite IHl; [by rewrite <- (app_assoc seen [x] l)|].
    eapply Forall_impl; [exact Hl|]. by intros y [? ?].
Qed.

Lemma feed_document n parent ctx root rest :
  shape.shaped n -> shape.nests parent n ->
  feed (shape.document n ++ rest)
    {| context := ctx ++ [parent]; root_node := root |}
  = feed rest
      {| context := ctx ++ [add_child n parent]; root_node := root |}.
Proof.
  revert parent ctx root rest. induction n as [c a t l IH] using node_children_ind.
  intros parent ctx root rest Hn Hnest.
  rewrite document_unfold. cbn [app]. rewrite <- !app_assoc.
  cbn [feed handle].
  pose proof (startElement_nested (Node c a t l) parent ctx root Hn Hnest)
    as Hstart.
  cbn [cls attr] in Hstart. rewrite Hstart. clear Hstart.
  rewrite feed_text, (feed_children c a t l IH).
  - cbn [app feed handle]. unfold endElement. cbn [context root_node].
    rewrite pop_snoc, decide_False.
    + by rewrite pop_snoc.
    + unfold shape.nests in Hnest. cbn in Hnest.
      by destruct (cls parent), c.
  - eapply Forall_impl; [exact (shaped_children _ Hn)|].
    intros x [Hx Hnx]. split; [done|]. by eapply nests_parent.
Qed.

Lemma startElement_root v :
  startElement "testbank" {[ "name" := v ]} init
  = (Done tt, {| context := [] ++ [new_node TestBank (Some v)];
                 root_node := None |}).
Proof.
  unfold startElement. rewrite decide_True by done.
  unfold named, getValue. by rewrite lookup_singleton.
Qed.

(** X18. A tree of the shape that the parser builds is what the parser
    returns for the document that writes it: the start tag of every node
    with its attribute, its text, its children in order, its end tag. *)
Theorem parse_document root :
  shape.testbank root ->
  shape.well_nested [] (shape.document root) = true
  /\ parse (shape.document root) = Done (Some root).
Proof.
  intros Hroot. split.
  { rewrite <- (app_nil_r (shape.document root)).
    by rewrite well_nested_document. }
  assert (Hsh : shape.shaped root).
  { unfold shape.shaped. by rewrite (proj1 Hroot). }
  pose proof (shaped_children _ Hsh) as Hkids.
  destruct root as [c a t l]. destruct Hroot as (Hc & [v Ha] & _).
  cbn in Hc, Ha, Hkids. subst c a.
  unfold parse. rewrite document_unfold. cbn [feed handle].
  change (shape.attributes _) with ({[ "name" := v ]} : gmap string string).
  rewrite startElement_root.
  rewrite feed_text, (feed_children TestBank (Some v) t l).
  - cbn [feed handle]. unfold endElement. cbn [context root_node].
    rewrite pop_snoc. by rewrite decide_True.
  - apply Forall_forall. intros x _ parent ctx root rest.
    apply feed_document.
  - exact Hkids.
Qed.

Lemma parse_document_witness :
  shape.testbank examples.bank
  /\ parse (shape.document examples.bank) = Done (Some examples.bank).
Proof.
  assert (H : shape.testbank examples.bank).
  { repeat first
      [ progress cbn
      | split
      | apply Forall_cons
      | apply Forall_nil
      | by eexists
      | by left
      | by right; left
      | by right; right
      | done ]. }
  split; [exact H|]. exact (proj2 (parse_document examples.bank H)).
Defined.

(** X19. A document whose first element is not [testbank] is refused at
    that element: with an [IndexError] when the name is one of the six
    other elements, whose branch looks at the top of the empty context,
    and with the [ValueError] of the name otherwise. *)
Theorem first_element_must_be_testbank name attributes rest :
  name <> "testbank" ->
  parse (StartElement name attributes :: rest)
  = Failed (Builtin
      (if decide (name ∈ ["chapter"; "section"; "category"; "fact";
                           "question"; "answer"])
       then IndexError else ValueError (Some name))).
Proof.
  intros Hname. unfold parse. cbn [feed handle]. unfold startElement.
  rewrite decide_False by done.
  destruct (decide (name ∈ _)) as [Hin|Hin].
  - rewrite !elem_of_cons, elem_of_nil in Hin.
    destruct Hin as [-> | [-> | [-> | [-> | [-> | [-> | []]]]]]];
      reflexivity.
  - repeat (rewrite decide_False by (intros ->; apply Hin; set_solver)).
    reflexivity.
Qed.

Lemma first_element_must_be_testbank_witness :
  parse (documents.element "chapter" {[ "name" := "one" ]} [])
  = Failed (Builtin IndexError).
Proof.
  apply (first_element_must_be_testbank "chapter" {[ "name" := "one" ]}).
  done.
Defined.

End parser_facts.
